(** * safe-yubikey: the PIV smart-card engine of [yubikey-pcsc.ts]

    A shallow embedding of the byte-level protocol code of
    [src/main/yubikey-pcsc.ts] (class [YubiKeyPCSC]) and the properties of
    its parsers, its APDU transport and its PIV session operations.

    Buffers are lists of bytes, JavaScript numbers that can be [undefined]
    or [NaN] are kept as such, exceptions are an error monad, and the
    asynchronous methods thread the session object (with the card behind
    the reader) through every call. *)

From Stdlib Require Import ZArith NArith List String Ascii Bool Lia.
From Stdlib Require Import Strings.Byte Numbers.DecimalString.
Import ListNotations.

Local Open Scope Z_scope.

(* ================================================================== *)
(** ** JavaScript values used by the module *)
(* ================================================================== *)

Module JS.

(** A Node [Buffer]: a sequence of octets. *)
Definition Buffer := list byte.

Definition u8 (b : byte) : Z := Z.of_N (Byte.to_N b).

(** [Buffer.from([n])] stores [n & 255]. *)
Definition byte_of_Z (z : Z) : byte :=
  match Byte.of_N (Z.to_N (z mod 256)) with
  | Some b => b
  | None => x00
  end.

(** The numeric values the code computes with: integers (all far below
    2^53), [NaN] (a number plus [undefined]) and [undefined] (a read past
    the end of a buffer). *)
Inductive jsval : Type :=
| Num (z : Z)
| NaN
| Undefined.

(** [buf[i]] on a Buffer. *)
Definition at_ (b : Buffer) (i : jsval) : jsval :=
  match i with
  | Num z =>
      if (0 <=? z) && (z <? Z.of_nat (List.length b))
      then match nth_error b (Z.to_nat z) with
           | Some x => Num (u8 x)
           | None => Undefined
           end
      else Undefined
  | _ => Undefined
  end.

(** [a === b] *)
Definition seq (a b : jsval) : bool :=
  match a, b with
  | Num x, Num y => x =? y
  | Undefined, Undefined => true
  | _, _ => false
  end.

(** [a !== b] *)
Definition sne (a b : jsval) : bool := negb (seq a b).

(** [a <= b] and [a < b]: false as soon as one side is not a number. *)
Definition le (a b : jsval) : bool :=
  match a, b with
  | Num x, Num y => x <=? y
  | _, _ => false
  end.

Definition lt (a b : jsval) : bool :=
  match a, b with
  | Num x, Num y => x <? y
  | _, _ => false
  end.

(** [a + b] on numbers; [undefined] and [NaN] give [NaN]. *)
Definition add (a b : jsval) : jsval :=
  match a, b with
  | Num x, Num y => Num (x + y)
  | _, _ => NaN
  end.

(** [ToInt32]: the operand conversion of the bitwise operators. *)
Definition toInt32 (a : jsval) : Z :=
  match a with
  | Num z => (z + 2 ^ 31) mod 2 ^ 32 - 2 ^ 31
  | _ => 0
  end.

(** [a << k], [a | b], [a & b], [a >> k] *)
Definition shl (a : jsval) (k : Z) : jsval :=
  Num (toInt32 (Num (Z.shiftl (toInt32 a) k))).
Definition bor (a b : jsval) : jsval := Num (Z.lor (toInt32 a) (toInt32 b)).
Definition band (a b : jsval) : jsval := Num (Z.land (toInt32 a) (toInt32 b)).
Definition shr (a : jsval) (k : Z) : jsval := Num (Z.shiftr (toInt32 a) k).

Definition blen (b : Buffer) : jsval := Num (Z.of_nat (List.length b)).

(** Node's [adjustOffset] (lib/buffer.js), used by [Buffer.prototype.slice]:
    [NaN] and [undefined] become 0, a negative offset counts from the end,
    everything is clamped to [0, length]. *)
Definition adjustOffset (offset : jsval) (len : Z) : Z :=
  match offset with
  | Num z =>
      if z =? 0 then 0
      else if z <? 0 then (if 0 <? z + len then z + len else 0)
      else if z <? len then z
      else len
  | _ => 0
  end.

(** [buf.slice(start, end)]; an [undefined] end is the buffer's length. *)
Definition slice (b : Buffer) (start end_ : jsval) : Buffer :=
  let srcLength := Z.of_nat (List.length b) in
  let s := adjustOffset start srcLength in
  let e := match end_ with
           | Undefined => srcLength
           | _ => adjustOffset end_ srcLength
           end in
  let newLength := if s <? e then e - s else 0 in
  firstn (Z.to_nat newLength) (skipn (Z.to_nat s) b).

(** [a.equals(b)] *)
Fixpoint equals (a b : Buffer) : bool :=
  match a, b with
  | [], [] => true
  | x :: a', y :: b' => Byte.eqb x y && equals a' b'
  | _, _ => false
  end.

(** *** Hexadecimal text *)

Definition hexdigit (n : N) : ascii :=
  match n with
  | 0 => "0" | 1 => "1" | 2 => "2" | 3 => "3" | 4 => "4" | 5 => "5"
  | 6 => "6" | 7 => "7" | 8 => "8" | 9 => "9" | 10 => "a" | 11 => "b"
  | 12 => "c" | 13 => "d" | 14 => "e" | _ => "f"
  end%N%char.

(** Value of a hexadecimal digit, either case; [None] for another
    character. *)
Definition unhex (c : ascii) : option N :=
  let n := N_of_ascii c in
  (if (48 <=? n) && (n <=? 57) then Some (n - 48)
   else if (97 <=? n) && (n <=? 102) then Some (n - 87)
   else if (65 <=? n) && (n <=? 70) then Some (n - 55)
   else None)%N.

(** [buf.toString('hex')] *)
Fixpoint toHex (b : Buffer) : string :=
  match b with
  | [] => EmptyString
  | x :: b' =>
      String (hexdigit (Byte.to_N x / 16)%N)
        (String (hexdigit (Byte.to_N x mod 16)%N) (toHex b'))
  end.

(** [Buffer.from(s, 'hex')]: pairs of digits are decoded until the first
    pair that is not hexadecimal; a trailing single character is dropped. *)
Fixpoint fromHex (s : string) : Buffer :=
  match s with
  | String a (String b rest) =>
      match unhex a, unhex b with
      | Some h, Some l => byte_of_Z (Z.of_N (16 * h + l)%N) :: fromHex rest
      | _, _ => []
      end
  | _ => []
  end.

(** [Buffer.from(s, 'ascii')] for a string of code units below 256: each
    character gives the byte of its code. *)
Fixpoint fromAscii (s : string) : Buffer :=
  match s with
  | EmptyString => []
  | String c rest => byte_of_Z (Z.of_N (N_of_ascii c)) :: fromAscii rest
  end.

(** [Buffer.alloc(n, fill)] *)
Definition alloc (n : nat) (fill : byte) : Buffer := repeat fill n.

(** [src.copy(target, targetStart)]: overwrites [target] from
    [targetStart] with as many bytes of [src] as fit. *)
Definition copy (src target : Buffer) (targetStart : nat) : Buffer :=
  let room := (List.length target - targetStart)%nat in
  let n := Nat.min (List.length src) room in
  firstn targetStart target ++ firstn n src
    ++ skipn (targetStart + n) target.

(** [s.padStart(n, "0")] *)
Definition padStart0 (n : nat) (s : string) : string :=
  (string_of_list_ascii (repeat "0"%char (n - String.length s)) ++ s)%string.

(** [s.replace(pat, "")] with a string pattern: the first occurrence of
    [pat] is removed. *)
Fixpoint removeFirst (pat s : string) : string :=
  if String.prefix pat s
  then substring (String.length pat) (String.length s - String.length pat) s
  else match s with
       | EmptyString => EmptyString
       | String c s' => String c (removeFirst pat s')
       end.

(** *** BigInt *)

(** Digits of [n] in base 16, most significant first, in front of [acc];
    [fuel] bounds the number of digits. *)
Fixpoint hexDigits (fuel : nat) (n : N) (acc : string) : string :=
  match fuel with
  | O => acc
  | S f =>
      let acc' := String (hexdigit (n mod 16)%N) acc in
      if (n <? 16)%N then acc' else hexDigits f (n / 16)%N acc'
  end.

(** [z.toString(16)] on a BigInt: lower-case digits, a minus sign in front
    of a negative value. *)
Definition bigIntToString16 (z : Z) : string :=
  let n := Z.abs_N z in
  let ds := hexDigits (S (N.to_nat (N.log2 n))) n EmptyString in
  if z <? 0 then String "-"%char ds else ds.

End JS.

(* ================================================================== *)
(** ** Result types and exceptions *)
(* ================================================================== *)

(** [YubiKeyResult<T>]: [{ success: true, data }] or
    [{ success: false, error }]. *)
Inductive YubiKeyResult (T : Type) : Type :=
| Success (data : T)
| Failure (error : string).
Arguments Success {T} data.
Arguments Failure {T} error.

Record PublicKeyResult : Type := mkPublicKeyResult {
  publicKeyHex : string;   (* 65 bytes: 04 || x || y *)
  x : string;              (* 32 bytes hex *)
  y : string               (* 32 bytes hex *)
}.

Record SignatureResult : Type := mkSignatureResult {
  signatureDer : string;   (* DER-encoded signature *)
  r : string;              (* 32 bytes hex *)
  s : string               (* 32 bytes hex *)
}.

(** A computation that returns or throws. *)
Inductive Exc (A : Type) : Type :=
| Ok (a : A)
| Throw (msg : string).
Arguments Ok {A} a.
Arguments Throw {A} msg.

Definition bindExc {A B} (m : Exc A) (k : A -> Exc B) : Exc B :=
  match m with
  | Ok a => k a
  | Throw e => Throw e
  end.

Declare Scope exc_scope.
Delimit Scope exc_scope with exc.
Notation "v <- m ;; k" := (bindExc m (fun v => k))
  (at level 61, m at next level, right associativity) : exc_scope.

(** [try { body } catch { return null }] *)
Definition tryOrNull {A} (body : Exc (option A)) : option A :=
  match body with
  | Ok res => res
  | Throw _ => None
  end.

(** A [for (let i = start; i < bound; i++)] loop whose body either
    returns a value (or breaks with it) or falls through to the next
    index; [n] counts the iterations left. *)
Fixpoint forFrom {A} (n : nat) (i bound : Z) (body : Z -> option A)
  : option A :=
  match n with
  | O => None
  | S n' =>
      if i <? bound
      then match body i with
           | Some res => Some res
           | None => forFrom n' (i + 1) bound body
           end
      else None
  end.

Definition forRange {A} (start bound : Z) (body : Z -> option A) : option A :=
  forFrom (Z.to_nat (bound - start)) start bound body.

(* ================================================================== *)
(** ** ASN.1/DER codec, signature codec and certificate parser *)
(* ================================================================== *)

Module Codec.
Import JS.
Local Open Scope exc_scope.

(** [parseLength(data, offset)]: the value of an ASN.1 length. *)
Definition parseLength (data : Buffer) (offset : jsval) : Exc jsval :=
  let firstByte := at_ data offset in
  if le firstByte (Num 0x7f) then Ok firstByte
  else if seq firstByte (Num 0x81) then Ok (at_ data (add offset (Num 1)))
  else if seq firstByte (Num 0x82)
  then Ok (bor (shl (at_ data (add offset (Num 1))) 8)
               (at_ data (add offset (Num 2))))
  else Throw "Unsupported length encoding".

(** [parseLengthBytes(data, offset)]: the number of bytes of the length
    encoding. *)
Definition parseLengthBytes (data : Buffer) (offset : jsval) : Exc jsval :=
  let firstByte := at_ data offset in
  if le firstByte (Num 0x7f) then Ok (Num 1)
  else if seq firstByte (Num 0x81) then Ok (Num 2)
  else if seq firstByte (Num 0x82) then Ok (Num 3)
  else Throw "Unsupported length encoding".

(** [encodeLength(len)] *)
Definition encodeLength (len : Z) : Buffer :=
  if len <? 128 then [byte_of_Z len]
  else if len <? 256 then [x81; byte_of_Z len]
  else [x82; byte_of_Z (toInt32 (band (shr (Num len) 8) (Num 0xff)));
             byte_of_Z (toInt32 (band (Num len) (Num 0xff)))].

(** [normalizeTo32Bytes(buf)] *)
Definition normalizeTo32Bytes (buf : Buffer) : Buffer :=
  let buf :=
    if seq (blen buf) (Num 33) && seq (at_ buf (Num 0)) (Num 0x00)
    then slice buf (Num 1) Undefined
    else buf in
  if lt (blen buf) (Num 32)
  then copy buf (alloc 32 x00) (32 - List.length buf)
  else slice buf (Num 0) (Num 32).

(** The P-256 group order [n] and [halfN = n / 2n]. *)
Definition curveOrder : Z :=
  0xFFFFFFFF00000000FFFFFFFFFFFFFFFFBCE6FAADA7179E84F3B9CAC2FC632551.
Definition halfN : Z := Z.quot curveOrder 2.

(** Value of a string of hexadecimal digits, [None] on another
    character. *)
Fixpoint hexValue (hex : string) (acc : N) : option N :=
  match hex with
  | EmptyString => Some acc
  | String c rest =>
      match unhex c with
      | Some d => hexValue rest (16 * acc + d)%N
      | None => None
      end
  end.

(** [BigInt('0x' + hex)]: a SyntaxError on an empty or malformed
    literal. *)
Definition bigIntOfHex (hex : string) : Exc Z :=
  match hex with
  | EmptyString => Throw "SyntaxError: Cannot convert 0x to a BigInt"
  | _ => match hexValue hex 0 with
         | Some v => Ok (Z.of_N v)
         | None => Throw "SyntaxError: Cannot convert to a BigInt"
         end
  end.

(** The low-S step of [parseDerSignature] (the block "Normalize s to
    low-S form"), applied to the 32-byte [s]. *)
Definition lowS (s : Buffer) : Exc Buffer :=
  sBigInt <- bigIntOfHex (toHex s) ;;
  if halfN <? sBigInt
  then
    let lowS := curveOrder - sBigInt in
    let lowSHex := padStart0 64 (bigIntToString16 lowS) in
    Ok (fromHex lowSHex)
  else Ok s.

(** The walk of [parseDerSignature] over the SEQUENCE of two INTEGERs,
    up to the raw contents [rRaw] and [sRaw]. *)
Definition derIntegers (der : Buffer) : Exc (Buffer * Buffer) :=
  let offset := Num 0 in
  if sne (at_ der offset) (Num 0x30)
  then Throw "Invalid DER: expected SEQUENCE" else
  let offset := add offset (Num 1) in
  seqLenBytes <- parseLengthBytes der offset ;;
  let offset := add offset seqLenBytes in
  if sne (at_ der offset) (Num 0x02)
  then Throw "Invalid DER: expected INTEGER for r" else
  let offset := add offset (Num 1) in
  rLen <- parseLength der offset ;;
  rLenBytes <- parseLengthBytes der offset ;;
  let offset := add offset rLenBytes in
  let rRaw := slice der offset (add offset rLen) in
  let offset := add offset rLen in
  if sne (at_ der offset) (Num 0x02)
  then Throw "Invalid DER: expected INTEGER for s" else
  let offset := add offset (Num 1) in
  sLen <- parseLength der offset ;;
  sLenBytes <- parseLengthBytes der offset ;;
  let offset := add offset sLenBytes in
  let sRaw := slice der offset (add offset sLen) in
  Ok (rRaw, sRaw).

(** [parseDerSignature(der)]: the walk, then both integers brought to 32
    bytes and [s] to low-S form. *)
Definition parseDerSignature (der : Buffer) : Exc (Buffer * Buffer) :=
  raw <- derIntegers der ;;
  let r := normalizeTo32Bytes (fst raw) in
  let s := normalizeTo32Bytes (snd raw) in
  s <- lowS s ;;
  Ok (r, s).

(** [parseSignatureResponse(response)] *)
Definition parseSignatureResponse (response : Buffer)
  : option SignatureResult :=
  tryOrNull (
    let offset := Num 0 in
    if sne (at_ response offset) (Num 0x7c) then Ok None else
    let offset := add offset (Num 1) in
    skip <- parseLengthBytes response offset ;;
    let offset := add offset skip in
    if sne (at_ response offset) (Num 0x82) then Ok None else
    let offset := add offset (Num 1) in
    lenInfo <- parseLengthBytes response offset ;;
    sigLen <- parseLength response offset ;;
    let offset := add offset lenInfo in
    let sigDer := slice response offset (add offset sigLen) in
    rs <- parseDerSignature sigDer ;;
    Ok (Some {| signatureDer := toHex sigDer;
                r := padStart0 64 (toHex (fst rs));
                s := padStart0 64 (toHex (snd rs)) |})).

(** [parsePublicKeyResponse(response)] *)
Definition parsePublicKeyResponse (response : Buffer)
  : option PublicKeyResult :=
  tryOrNull (
    let offset := Num 0 in
    if sne (at_ response offset) (Num 0x7f)
       || sne (at_ response (add offset (Num 1))) (Num 0x49)
    then Ok None else
    let offset := add offset (Num 2) in
    skip <- parseLengthBytes response offset ;;
    let offset := add offset skip in
    if sne (at_ response offset) (Num 0x86) then Ok None else
    let offset := add offset (Num 1) in
    lenInfo <- parseLengthBytes response offset ;;
    pubKeyLen <- parseLength response offset ;;
    let offset := add offset lenInfo in
    let pubKey := slice response offset (add offset pubKeyLen) in
    if sne (blen pubKey) (Num 65) || sne (at_ pubKey (Num 0)) (Num 0x04)
    then Ok None else
    let x := slice pubKey (Num 1) (Num 33) in
    let y := slice pubKey (Num 33) (Num 65) in
    Ok (Some {| publicKeyHex := toHex pubKey;
                x := toHex x;
                y := toHex y |})).

(** The [while (offset < data.length - 1)] loop of [parseTlvValue]. Every
    round moves [offset] forward by two bytes or more, so [fuel] rounds
    with [fuel] the length of [data] are never used up. *)
Fixpoint parseTlvValue_loop (fuel : nat) (data : Buffer) (tag : jsval)
  (offset : jsval) : Exc (option Buffer) :=
  match fuel with
  | O => Ok None
  | S fuel' =>
      if lt offset (Num (Z.of_nat (List.length data) - 1))
      then
        let currentTag := at_ data offset in
        let offset := add offset (Num 1) in
        len <- parseLength data offset ;;
        lenBytes <- parseLengthBytes data offset ;;
        let offset := add offset lenBytes in
        if seq currentTag tag
        then Ok (Some (slice data offset (add offset len)))
        else parseTlvValue_loop fuel' data tag (add offset len)
      else Ok None
  end.

(** [parseTlvValue(data, tag)] *)
Definition parseTlvValue (data : Buffer) (tag : Z) : option Buffer :=
  tryOrNull (
    let offset := Num 0 in
    offset <- (if seq (at_ data offset) (Num 0x7c)
               then (let offset := add offset (Num 1) in
                     skip <- parseLengthBytes data offset ;;
                     Ok (add offset skip))
               else Ok offset) ;;
    parseTlvValue_loop (List.length data) data (Num tag) offset).

(** The EC public key OID 1.2.840.10045.2.1 with its tag and length. *)
Definition ecPubKeyOid : Buffer :=
  [x06; x07; x2a; x86; x48; xce; x3d; x02; x01].

(** [parsePublicKeyFallback(data)] *)
Definition parsePublicKeyFallback (data : Buffer) : option PublicKeyResult :=
  forRange 0 (Z.of_nat (List.length data) - 67) (fun i =>
    let d k := at_ data (Num (i + k)) in
    if seq (d 0) (Num 0x03) && seq (d 1) (Num 0x42)
       && seq (d 2) (Num 0x00) && seq (d 3) (Num 0x04)
    then
      let x := slice data (Num (i + 4)) (Num (i + 36)) in
      let y := slice data (Num (i + 36)) (Num (i + 68)) in
      Some {| publicKeyHex := toHex (slice data (Num (i + 3)) (Num (i + 68)));
              x := toHex x;
              y := toHex y |}
    else if seq (d 0) (Num 0x03) && seq (d 1) (Num 0x81)
            && seq (d 2) (Num 0x42) && seq (d 3) (Num 0x00)
            && seq (d 4) (Num 0x04)
    then
      let x := slice data (Num (i + 5)) (Num (i + 37)) in
      let y := slice data (Num (i + 37)) (Num (i + 69)) in
      Some {| publicKeyHex := toHex (slice data (Num (i + 4)) (Num (i + 69)));
              x := toHex x;
              y := toHex y |}
    else None).

(** First loop of [parsePublicKeyFromCert]: the index of the EC public
    key OID, or -1. *)
Definition findEcOid (data : Buffer) : Z :=
  match forRange 0 (Z.of_nat (List.length data)
                    - Z.of_nat (List.length ecPubKeyOid)) (fun i =>
          if equals (slice data (Num i)
                       (Num (i + Z.of_nat (List.length ecPubKeyOid))))
                    ecPubKeyOid
          then Some i else None)
  with
  | Some i => i
  | None => -1
  end.

(** Second loop of [parsePublicKeyFromCert]: the BIT STRING of 66 bytes
    after the OID (the primary strategy). *)
Definition findBitString (data : Buffer) (ecOidIndex : Z)
  : option PublicKeyResult :=
  forRange (ecOidIndex + Z.of_nat (List.length ecPubKeyOid))
           (Z.of_nat (List.length data) - 67) (fun i =>
    if seq (at_ data (Num i)) (Num 0x03)
    then
      let lenOffset := Num (i + 1) in
      let bitStringLen := at_ data lenOffset in
      let '(bitStringLen, lenOffset) :=
        if seq bitStringLen (Num 0x81)
        then (at_ data (add lenOffset (Num 1)), add lenOffset (Num 1))
        else if seq bitStringLen (Num 0x82)
        then (bor (shl (at_ data (add lenOffset (Num 1))) 8)
                  (at_ data (add lenOffset (Num 2))),
              add lenOffset (Num 2))
        else (bitStringLen, lenOffset) in
      if seq bitStringLen (Num 66)
      then
        let contentStart := add lenOffset (Num 1) in
        let unusedBits := at_ data contentStart in
        if seq unusedBits (Num 0x00)
           && seq (at_ data (add contentStart (Num 1))) (Num 0x04)
        then
          let x := slice data (add contentStart (Num 2))
                     (add contentStart (Num 34)) in
          let y := slice data (add contentStart (Num 34))
                     (add contentStart (Num 66)) in
          Some {| publicKeyHex :=
                    toHex (slice data (add contentStart (Num 1))
                             (add contentStart (Num 66)));
                  x := toHex x;
                  y := toHex y |}
        else None
      else None
    else None).

(** [parsePublicKeyFromCert(data)]. Nothing in the [try] block throws, so
    its [catch] is never entered. *)
Definition parsePublicKeyFromCert (data : Buffer) : option PublicKeyResult :=
  let ecOidIndex := findEcOid data in
  if ecOidIndex =? -1 then parsePublicKeyFallback data
  else match findBitString data ecOidIndex with
       | Some res => Some res
       | None => parsePublicKeyFallback data
       end.

(** [buildSubjectPublicKeyInfo(publicKey)] *)
Definition buildSubjectPublicKeyInfo (publicKey : PublicKeyResult) : Buffer :=
  let ecPoint := fromHex (publicKeyHex publicKey) in
  let algId :=
    [x30; x13; x06; x07; x2a; x86; x48; xce; x3d; x02; x01;
     x06; x08; x2a; x86; x48; xce; x3d; x03; x01; x07] in
  let pubKeyBitString :=
    [x03; byte_of_Z (Z.of_nat (List.length ecPoint) + 1); x00] ++ ecPoint in
  let inner := algId ++ pubKeyBitString in
  [x30] ++ encodeLength (Z.of_nat (List.length inner)) ++ inner.

(** [wrapSequence(data)] *)
Definition wrapSequence (data : Buffer) : Buffer :=
  [x30] ++ encodeLength (Z.of_nat (List.length data)) ++ data.

(** [wrapSet(data)] *)
Definition wrapSet (data : Buffer) : Buffer :=
  [x31] ++ encodeLength (Z.of_nat (List.length data)) ++ data.

(** [buildMinimalCertificate(publicKey)] *)
Definition buildMinimalCertificate (publicKey : PublicKeyResult) : Buffer :=
  let ecPoint := fromHex (publicKeyHex publicKey) in
  let algId :=
    [x30; x13; x06; x07; x2a; x86; x48; xce; x3d; x02; x01;
     x06; x08; x2a; x86; x48; xce; x3d; x03; x01; x07] in
  let spki := wrapSequence (algId ++ [x03; x42; x00] ++ ecPoint) in
  let name :=
    [x30; x0c; x31; x0a; x30; x08; x06; x03; x55; x04; x03; x0c; x01; x50] in
  let validity :=
    [x30; x1e;
     x17; x0d; x32; x35; x30; x31; x30; x31; x30; x30; x30; x30; x30; x30; x5a;
     x17; x0d; x33; x35; x30; x31; x30; x31; x30; x30; x30; x30; x30; x30; x5a] in
  let sigAlg :=
    [x30; x0a; x06; x08; x2a; x86; x48; xce; x3d; x04; x03; x02] in
  let tbs :=
    wrapSequence ([x02; x01; x01] ++ sigAlg ++ name ++ validity ++ name
                  ++ spki) in
  let sig := [x03; x03; x00; x00; x00] in
  wrapSequence (tbs ++ sigAlg ++ sig).

(** [buildCertificateObject(cert)] *)
Definition buildCertificateObject (cert : Buffer) : Buffer :=
  let tag70 := [x70] ++ encodeLength (Z.of_nat (List.length cert)) ++ cert in
  let tag71 := [x71; x01; x00] in
  let tagFE := [xfe; x00] in
  let inner := tag70 ++ tag71 ++ tagFE in
  [x53] ++ encodeLength (Z.of_nat (List.length inner)) ++ inner.

(** The UTC fields of a [Date], as its getters return them. *)
Record UtcFields : Type := mkUtcFields {
  utcFullYear : Z;
  utcMonth : Z;       (* 0 for January *)
  utcDate : Z;
  utcHours : Z;
  utcMinutes : Z;
  utcSeconds : Z
}.

(** [n.toString()] on an integer. *)
Definition numberToString (n : Z) : string :=
  NilZero.string_of_int (Z.to_int n).

(** [encodeUtcTime(date)] *)
Definition encodeUtcTime (date : UtcFields) : Buffer :=
  let yy := padStart0 2 (numberToString (Z.rem (utcFullYear date) 100)) in
  let mm := padStart0 2 (numberToString (utcMonth date + 1)) in
  let dd := padStart0 2 (numberToString (utcDate date)) in
  let hh := padStart0 2 (numberToString (utcHours date)) in
  let min := padStart0 2 (numberToString (utcMinutes date)) in
  let ss := padStart0 2 (numberToString (utcSeconds date)) in
  let timeStr := (yy ++ mm ++ dd ++ hh ++ min ++ ss ++ "Z")%string in
  [x17; byte_of_Z (Z.of_nat (String.length timeStr))] ++ fromAscii timeStr.

End Codec.

(* ================================================================== *)
(** ** APDU transport and PIV session *)
(* ================================================================== *)

Module PIV.
Import JS Codec.

Definition PIV_SLOT_AUTHENTICATION : Z := 0x9a.
Definition PIV_ALGORITHM_ECCP256 : Z := 0x11.

(** The fields of the [YubiKeyPCSC] object, the token behind the PC/SC
    service, and two traces kept for the proofs: the commands handed to
    [reader.transmit] and the lines written with [console.error]. *)
Record Session (R : Type) : Type := mkSession {
  device : R;                     (* the reader and card, as the host sees them *)
  reader : bool;                  (* this.reader is not null *)
  pcsc : bool;                    (* this.pcsc is not null *)
  protocol : option Z;            (* this.protocol *)
  isConnected : bool;
  connectPromiseResolved : bool;
  sent : list Buffer;             (* trace of transmitted commands *)
  errlog : list string            (* trace of console.error *)
}.
Arguments mkSession {R}.
Arguments device {R}.
Arguments reader {R}.
Arguments pcsc {R}.
Arguments protocol {R}.
Arguments isConnected {R}.
Arguments connectPromiseResolved {R}.
Arguments sent {R}.
Arguments errlog {R}.

(** [pcsclite.CardReader.transmit(data, res_len, protocol, callback)]:
    the callback receives an error (left, its message) or the response
    (right). *)
Class CardReader (R : Type) : Type := {
  reader_transmit : R -> Buffer -> Z -> Z -> (string + Buffer) * R
}.

(** Node's [crypto] module, as far as the handshake uses it: AES-192-ECB
    without padding on a buffer, under a key. *)
Class Crypto : Type := {
  aes192ecb_decrypt : Buffer -> Buffer -> Buffer;
  aes192ecb_encrypt : Buffer -> Buffer -> Buffer
}.

(** What the run of [ykman] and of the file system calls around it can
    come to in [storeCertificateViaYkman]. *)
Inductive YkmanOutcome : Type :=
| MkdtempThrows (msg : string)   (* fs.mkdtempSync throws, outside the try *)
| WriteThrows (msg : string)     (* a throw inside the try block *)
| ExecError (msg : string)       (* exec reports an error: stderr || error.message *)
| ExecOk.

(** The collaborators outside the process: the [ykman] tool acting on
    the token, given the slot name and the DER public key written to the
    PEM file, and [connect()], which is driven by reader events and a
    timer and whose value [reconnectAfterYkman] discards. *)
Class External (R : Type) : Type := {
  ykman : R -> string -> Buffer -> YkmanOutcome * R;
  connect : Session R -> Session R
}.

(** An [async] method: from the session to a result and the session
    after it, or nothing when [fuel] rounds of the continuation loop of
    [transmit] were not enough. *)
Definition Async (R A : Type) : Type := Session R -> option (A * Session R).

Definition ret {R A} (a : A) : Async R A := fun st => Some (a, st).

Definition bind {R A B} (m : Async R A) (k : A -> Async R B) : Async R B :=
  fun st =>
    match m st with
    | Some (a, st') => k a st'
    | None => None
    end.

Declare Scope async_scope.
Delimit Scope async_scope with async.
Notation "v <- m ;; k" := (bind m (fun v => k))
  (at level 61, m at next level, right associativity) : async_scope.

(** The session with one more line on [console.error]. *)
Definition logged {R} (st : Session R) (line : string) : Session R :=
  mkSession (device st) (reader st) (pcsc st) (protocol st) (isConnected st)
    (connectPromiseResolved st) (sent st) (errlog st ++ [line]).

(** [console.error(label, text)] *)
Definition consoleError {R} (label text : string) : Async R unit :=
  fun st => Some (tt, logged st (label ++ " " ++ text)%string).

(** The session after [disconnectForYkman()]. *)
Definition released {R} (st : Session R) : Session R :=
  mkSession (device st) false false None false false (sent st) (errlog st).

(** The GET RESPONSE command asking for [le] more bytes. *)
Definition getResponseCommand (le : byte) : Buffer :=
  [x00; xc0; x00; x00; le].

(** What a template literal prints for a number. *)
Definition toStr (v : jsval) : string :=
  match v with
  | Num z => NilZero.string_of_int (Z.to_int z)
  | NaN => "NaN"
  | Undefined => "undefined"
  end.

(** An array element stored in a Buffer. *)
Definition byte_of_jsval (v : jsval) : byte := byte_of_Z (toInt32 v).

(** [sw[0] !== 0x90 || sw[1] !== 0x00] *)
Definition notOk (sw : Buffer) : bool :=
  sne (at_ sw (Num 0)) (Num 0x90) || sne (at_ sw (Num 1)) (Num 0x00).

(** [getSlotObjectId(slot)] *)
Definition getSlotObjectId (slot : Z) : option Buffer :=
  if slot =? 0x9a then Some [x5f; xc1; x05]
  else if slot =? 0x9c then Some [x5f; xc1; x0a]
  else if slot =? 0x9d then Some [x5f; xc1; x0b]
  else if slot =? 0x9e then Some [x5f; xc1; x01]
  else None.

Section Methods.
Context {R : Type} `{CardReader R} `{Crypto} `{External R}.
Local Open Scope async_scope.

(** The session once [command] went to the reader and left the token in
    state [dev]. *)
Definition afterTransmit (st : Session R) (dev : R) (command : Buffer)
  : Session R :=
  mkSession dev (reader st) (pcsc st) (protocol st) (isConnected st)
    (connectPromiseResolved st) (sent st ++ [command]) (errlog st).

(** [transmitRaw(command)] *)
Definition transmitRaw (command : Buffer)
  : Session R -> YubiKeyResult Buffer * Session R :=
  fun st =>
    match reader st, protocol st with
    | true, Some proto =>
        let '(res, dev) := reader_transmit (device st) command 1024 proto in
        let st' := afterTransmit st dev command in
        match res with
        | inl msg => (Failure msg, st')
        | inr data => (Success data, st')
        end
    | _, _ => (Failure "Not connected", st)
    end.

(** The [while (data.length >= 2)] loop of [transmit]. *)
Fixpoint transmit_loop (fuel : nat) (data : Buffer)
  : Async R (YubiKeyResult Buffer) :=
  fun st =>
    match fuel with
    | O => None
    | S fuel' =>
        if le (Num 2) (blen data)
        then
          let sw1 := at_ data (Num (Z.of_nat (List.length data) - 2)) in
          let sw2 := at_ data (Num (Z.of_nat (List.length data) - 1)) in
          if seq sw1 (Num 0x61)
          then
            let getResponse := [x00; xc0; x00; x00; byte_of_jsval sw2] in
            let '(moreResult, st') := transmitRaw getResponse st in
            match moreResult with
            | Failure e => Some (Failure e, st')
            | Success more =>
                transmit_loop fuel'
                  (slice data (Num 0) (Num (-2)) ++ more) st'
            end
          else Some (Success data, st)
        else Some (Success data, st)
    end.

(** [transmit(command)] *)
Definition transmit (fuel : nat) (command : Buffer)
  : Async R (YubiKeyResult Buffer) :=
  fun st =>
    let '(result, st') := transmitRaw command st in
    match result with
    | Failure e => Some (Failure e, st')
    | Success data => transmit_loop fuel data st'
    end.

(** The command of [verifyPin]: the PIN copied over eight bytes 0xFF,
    after the VERIFY header. *)
Definition verifyPinCommand (pin : string) : Buffer :=
  let pinBytes := alloc 8 xff in
  let pinBytes := copy (fromAscii pin) pinBytes 0 in
  [x00; x20; x00; x80; x08] ++ pinBytes.

(** [{ remainingAttempts?: number }] *)
Record PinData : Type := mkPinData { remainingAttempts : option Z }.

(** [verifyPin(pin)] *)
Definition verifyPin (fuel : nat) (pin : string)
  : Async R (YubiKeyResult PinData) :=
  let command := verifyPinCommand pin in
  response <- transmit fuel command ;;
  match response with
  | Failure e =>
      _ <- consoleError "PIN transmit failed:" e ;;
      ret (Failure e)
  | Success data =>
      let sw := slice data (Num (-2)) Undefined in
      let sw1 := at_ sw (Num 0) in
      let sw2 := at_ sw (Num 1) in
      if seq sw1 (Num 0x90) && seq sw2 (Num 0x00)
      then ret (Success (mkPinData None))
      else if seq sw1 (Num 0x63) && seq (band sw2 (Num 0xf0)) (Num 0xc0)
      then
        let remaining := band sw2 (Num 0x0f) in
        ret (Failure ("Wrong PIN. " ++ toStr remaining
                      ++ " attempts remaining.")%string)
      else if seq sw1 (Num 0x69) && seq sw2 (Num 0x83)
      then ret (Failure "PIN is blocked.")
      else ret (Failure ("PIN verification failed: SW=" ++ toHex sw)%string)
  end.

(** The GET DATA command of [readPublicKey]. *)
Definition getDataCommand (objectId : Buffer) : Buffer :=
  [x00; xcb; x3f; xff]
    ++ [byte_of_Z (Z.of_nat (List.length objectId) + 2)]
    ++ [x5c; byte_of_Z (Z.of_nat (List.length objectId))]
    ++ objectId
    ++ [x00].

(** [readPublicKey(slot)] *)
Definition readPublicKey (fuel : nat) (slot : Z)
  : Async R (YubiKeyResult PublicKeyResult) :=
  match getSlotObjectId slot with
  | None => ret (Failure "Invalid slot")
  | Some objectId =>
      let command := getDataCommand objectId in
      response <- transmit fuel command ;;
      match response with
      | Failure e => ret (Failure e)
      | Success data =>
          let sw := slice data (Num (-2)) Undefined in
          if seq (at_ sw (Num 0)) (Num 0x6a) && seq (at_ sw (Num 1)) (Num 0x82)
          then ret (Failure "NO_KEY")
          else if notOk sw
          then ret (Failure ("Read public key failed: SW=" ++ toHex sw)%string)
          else
            match parsePublicKeyFromCert (slice data (Num 0) (Num (-2))) with
            | None => ret (Failure "Failed to parse public key from response")
            | Some pubKey => ret (Success pubKey)
            end
      end
  end.

(** The default management key. *)
Definition mgmtKey : Buffer :=
  [x01; x02; x03; x04; x05; x06; x07; x08; x01; x02; x03; x04; x05; x06; x07;
   x08; x01; x02; x03; x04; x05; x06; x07; x08].

Definition AES192_ALG : byte := x0a.

Definition witnessReqCmd : Buffer :=
  [x00; x87; AES192_ALG; x9b; x04; x7c; x02; x80; x00].

Definition authCmd (decryptedWitness challenge : Buffer) : Buffer :=
  [x00; x87; AES192_ALG; x9b; x26; x7c; x24; x80; x10]
    ++ decryptedWitness ++ [x81; x10] ++ challenge.

(** [authenticateManagementKey()]; [challenge] is the value of
    [crypto.randomBytes(16)] in this call. *)
Definition authenticateManagementKey (fuel : nat) (challenge : Buffer)
  : Async R (YubiKeyResult unit) :=
  witnessResp <- transmit fuel witnessReqCmd ;;
  match witnessResp with
  | Failure e => ret (Failure e)
  | Success data =>
      let sw := slice data (Num (-2)) Undefined in
      if notOk sw
      then ret (Failure ("Witness request failed: SW=" ++ toHex sw)%string)
      else
        let witnessData := slice data (Num 0) (Num (-2)) in
        let witness := parseTlvValue witnessData 0x80 in
        match witness with
        | None =>
            ret (Failure "Failed to parse witness (got undefined bytes, expected 16)")
        | Some witness =>
            if sne (blen witness) (Num 16)
            then ret (Failure ("Failed to parse witness (got "
                               ++ toStr (blen witness)
                               ++ " bytes, expected 16)")%string)
            else
              let decryptedWitness := aes192ecb_decrypt mgmtKey witness in
              authResp <- transmit fuel (authCmd decryptedWitness challenge) ;;
              match authResp with
              | Failure e => ret (Failure e)
              | Success data =>
                  let sw := slice data (Num (-2)) Undefined in
                  if notOk sw
                  then ret (Failure ("Management key auth failed: SW="
                                     ++ toHex sw)%string)
                  else
                    match parseTlvValue (slice data (Num 0) (Num (-2))) 0x82 with
                    | None => ret (Failure "Failed to parse card response")
                    | Some cardResponse =>
                        if sne (blen cardResponse) (Num 16)
                        then ret (Failure "Failed to parse card response")
                        else
                          let expectedResponse :=
                            aes192ecb_encrypt mgmtKey challenge in
                          if negb (equals cardResponse expectedResponse)
                          then ret (Failure "Card response verification failed")
                          else ret (Success tt)
                    end
              end
        end
  end.

(** The GENERATE ASYMMETRIC KEY PAIR command of [generateNewKey]. *)
Definition generateKeyCommand (slot : Z) : Buffer :=
  [x00; x47; x00; byte_of_Z slot; x05; xac; x03; x80; x01;
   byte_of_Z PIV_ALGORITHM_ECCP256].

(** [generateNewKey(slot)] *)
Definition generateNewKey (fuel : nat) (challenge : Buffer) (slot : Z)
  : Async R (YubiKeyResult PublicKeyResult) :=
  authResult <- authenticateManagementKey fuel challenge ;;
  match authResult with
  | Failure e => ret (Failure e)
  | Success _ =>
      response <- transmit fuel (generateKeyCommand slot) ;;
      match response with
      | Failure e => ret (Failure e)
      | Success data =>
          let sw := slice data (Num (-2)) Undefined in
          if notOk sw
          then ret (Failure ("Key generation failed: SW=" ++ toHex sw)%string)
          else
            match parsePublicKeyResponse (slice data (Num 0) (Num (-2))) with
            | None => ret (Failure "Failed to parse generated public key")
            | Some pubKey => ret (Success pubKey)
            end
      end
  end.

(** [disconnectForYkman()] *)
Definition disconnectForYkman : Async R unit :=
  fun st => Some (tt, released st).

(** [storeCertificateViaYkman(slot, publicKey)]: the promise resolves
    with a result, or is rejected when [fs.mkdtempSync] throws. *)
Definition storeCertificateViaYkman (slot : Z) (publicKey : PublicKeyResult)
  : Async R (Exc (YubiKeyResult unit)) :=
  fun st =>
    let pubKeyDer := buildSubjectPublicKeyInfo publicKey in
    let slotName := if slot =? 0x9a then "9a"%string
                    else bigIntToString16 slot in
    let '(outcome, dev) := ykman (device st) slotName pubKeyDer in
    let st' := mkSession dev (reader st) (pcsc st) (protocol st)
                 (isConnected st) (connectPromiseResolved st)
                 (sent st) (errlog st) in
    match outcome with
    | MkdtempThrows msg => Some (Throw msg, st)
    | WriteThrows msg => Some (Ok (Failure msg), st)
    | ExecError msg =>
        (_ <- consoleError "ykman error:" msg ;;
         ret (Ok (Failure ("ykman failed: " ++ msg)%string))) st'
    | ExecOk => Some (Ok (Success tt), st')
    end.

(** [reconnectAfterYkman()] *)
Definition reconnectAfterYkman : Async R unit :=
  fun st => Some (tt, connect st).

(** [generateP256Key()]: the promise resolves with a result or is
    rejected with what [storeCertificateViaYkman] threw. *)
Definition generateP256Key (fuel : nat) (challenge : Buffer)
  : Async R (Exc (YubiKeyResult PublicKeyResult)) :=
  readResult <- readPublicKey fuel PIV_SLOT_AUTHENTICATION ;;
  match readResult with
  | Success _ => ret (Ok readResult)
  | Failure error =>
      if String.eqb error "NO_KEY"
      then
        generateResult <- generateNewKey fuel challenge PIV_SLOT_AUTHENTICATION ;;
        match generateResult with
        | Success data =>
            _ <- disconnectForYkman ;;
            stored <- storeCertificateViaYkman PIV_SLOT_AUTHENTICATION data ;;
            match stored with
            | Throw msg => ret (Throw msg)
            | Ok storeResult =>
                _ <- reconnectAfterYkman ;;
                _ <- match storeResult with
                     | Failure e => consoleError "Failed to store certificate:" e
                     | Success _ => ret tt
                     end ;;
                ret (Ok generateResult)
            end
        | Failure _ => ret (Ok generateResult)
        end
      else ret (Ok readResult)
  end.

(** The GENERAL AUTHENTICATE command of [signHash]. *)
Definition signCommand (hash : Buffer) : Buffer :=
  [x00; x87; byte_of_Z PIV_ALGORITHM_ECCP256;
   byte_of_Z PIV_SLOT_AUTHENTICATION; x26; x7c; x24; x82; x00; x81; x20]
    ++ hash.

(** [signHash(hashHex)] *)
Definition signHash (fuel : nat) (hashHex : string)
  : Async R (YubiKeyResult SignatureResult) :=
  let hash := fromHex (removeFirst "0x" hashHex) in
  if sne (blen hash) (Num 32)
  then ret (Failure ("Hash must be 32 bytes, got " ++ toStr (blen hash))%string)
  else
    response <- transmit fuel (signCommand hash) ;;
    match response with
    | Failure e => ret (Failure e)
    | Success data =>
        let sw := slice data (Num (-2)) Undefined in
        if notOk sw
        then ret (Failure ("Signing failed: SW=" ++ toHex sw)%string)
        else
          match parseSignatureResponse (slice data (Num 0) (Num (-2))) with
          | None => ret (Failure "Failed to parse signature from response")
          | Some sig => ret (Success sig)
          end
    end.

(** The PIV application identifier and the SELECT command of
    [selectPIV]. *)
Definition PIV_AID : Buffer := [xa0; x00; x00; x03; x08].

Definition selectCommand : Buffer :=
  [x00; xa4; x04; x00; byte_of_Z (Z.of_nat (List.length PIV_AID))] ++ PIV_AID.

(** [selectPIV()] *)
Definition selectPIV (fuel : nat) : Async R (YubiKeyResult unit) :=
  response <- transmit fuel selectCommand ;;
  match response with
  | Failure e => ret (Failure e)
  | Success data =>
      let sw := slice data (Num (-2)) Undefined in
      if notOk sw
      then ret (Failure ("Failed to select PIV: SW=" ++ toHex sw)%string)
      else ret (Success tt)
  end.

(** [readPublicKeyFromSlot()] *)
Definition readPublicKeyFromSlot (fuel : nat)
  : Async R (YubiKeyResult PublicKeyResult) :=
  readPublicKey fuel PIV_SLOT_AUTHENTICATION.

End Methods.

End PIV.

(* ================================================================== *)
(** ** Signature formatting for the Safe contract (renderer/lib/crypto.ts) *)
(* ================================================================== *)

Module Renderer.
Import JS.

(** [s.slice(start)] on a string. *)
Definition strSlice (start : Z) (s : string) : string :=
  let len := Z.of_nat (String.length s) in
  let from := if start <? 0 then Z.max (len + start) 0 else Z.min start len in
  substring (Z.to_nat from) (Z.to_nat (len - from)) s.

(** [s.toLowerCase()] on ASCII text. *)
Definition lowerChar (c : ascii) : ascii :=
  let n := N_of_ascii c in
  if ((65 <=? n) && (n <=? 90))%N then ascii_of_N (n + 32) else c.

Fixpoint toLowerCase (s : string) : string :=
  match s with
  | EmptyString => EmptyString
  | String c rest => String (lowerChar c) (toLowerCase rest)
  end.

Section Viem.
(** The two functions taken from viem: the Keccak-256 digest of a hex
    string, as a hex string, and the EIP-55 form of an address. *)
Variable keccak256 : string -> string.
Variable getAddress : string -> string.

(** [deriveAddress(x, y)] *)
Definition deriveAddress (x y : string) : string :=
  let xHex := padStart0 64 (removeFirst "0x" x) in
  let yHex := padStart0 64 (removeFirst "0x" y) in
  let packed := ("0x" ++ xHex ++ yHex)%string in
  let hash := keccak256 packed in
  getAddress ("0x" ++ strSlice (-40) hash)%string.

(** [formatSafeSignature(r, s, x, y)] *)
Definition formatSafeSignature (r s x y : string) : string :=
  let xHex := padStart0 64 (removeFirst "0x" x) in
  let yHex := padStart0 64 (removeFirst "0x" y) in
  let packed := ("0x" ++ xHex ++ yHex)%string in
  let hash := keccak256 packed in
  let ownerAddress := getAddress ("0x" ++ strSlice (-40) hash)%string in
  let rHex := padStart0 64 (removeFirst "0x" r) in
  let sHex := padStart0 64 (removeFirst "0x" s) in
  let ownerHex := toLowerCase (padStart0 64 (strSlice 2 ownerAddress)) in
  let offsetHex :=
    "0000000000000000000000000000000000000000000000000000000000000041"%string in
  let vHex := "02"%string in
  ("0x" ++ ownerHex ++ offsetHex ++ vHex ++ rHex ++ sHex ++ xHex ++ yHex)%string.

End Viem.

End Renderer.

(* ================================================================== *)
(** ** Auxiliary notions for the statements *)
(* ================================================================== *)

Module Aux.
Import JS Codec.

(** The unsigned big-endian integer held by a buffer. *)
Definition beVal (b : Buffer) : Z :=
  fold_left (fun acc x => 256 * acc + u8 x) b 0.

(** The [k] low-order bytes of [n], most significant first. *)
Fixpoint beBytes (k : nat) (n : N) : Buffer :=
  match k with
  | O => []
  | S k' => beBytes k' (n / 256)%N ++ [byte_of_Z (Z.of_N (n mod 256)%N)]
  end.

(** The [k] low-order hexadecimal digits of [n] in front of [acc]. *)
Fixpoint fixedHex (k : nat) (n : N) (acc : string) : string :=
  match k with
  | O => acc
  | S k' => fixedHex k' (n / 16)%N (String (hexdigit (n mod 16)%N) acc)
  end.

Definition zeros (k : nat) : string :=
  string_of_list_ascii (repeat "0"%char k).

(** The DER encoding of an ECDSA signature from the contents of its two
    INTEGERs, all lengths in short form. *)
Definition derSignature (rRaw sRaw : Buffer) : Buffer :=
  [x30; byte_of_Z (4 + Z.of_nat (List.length rRaw)
                   + Z.of_nat (List.length sRaw))]
    ++ [x02; byte_of_Z (Z.of_nat (List.length rRaw))] ++ rRaw
    ++ [x02; byte_of_Z (Z.of_nat (List.length sRaw))] ++ sRaw.

(** What a read in a buffer gives: a byte value or [undefined]. *)
Definition byteOrUndefined (v : jsval) : Prop :=
  v = Undefined \/ exists k, v = Num k /\ 0 <= k < 256.

(** A GET RESPONSE command, whatever length it asks for. *)
Definition isGetResponse (c : Buffer) : Prop :=
  exists le, c = PIV.getResponseCommand le.

(** The header of the VERIFY command. *)
Definition verifyHeader : Buffer := [x00; x20; x00; x80; x08].

(** A command that is not GENERATE ASYMMETRIC KEY PAIR, for any slot. *)
Definition notGenerate (c : Buffer) : Prop :=
  forall slot, c <> PIV.generateKeyCommand slot.

(** One TLV with a short-form length, and a list of them in a dynamic
    authentication template [7C]. *)
Definition tlv (item : byte * Buffer) : Buffer :=
  [fst item; byte_of_Z (Z.of_nat (List.length (snd item)))] ++ snd item.

Definition template (items : list (byte * Buffer)) : Buffer :=
  [x7c; byte_of_Z (Z.of_nat (List.length (flat_map tlv items)))]
    ++ flat_map tlv items.

(** Every value is short enough for a one-byte length. *)
Definition shortItems (items : list (byte * Buffer)) : Prop :=
  Forall (fun item => Z.of_nat (List.length (snd item)) < 128) items.

(** The value of the first item with tag [tag]. *)
Definition firstWithTag (tag : Z) (items : list (byte * Buffer))
  : option Buffer :=
  option_map snd (find (fun item => u8 (fst item) =? tag) items).

(** The byte [Lc] of a command APDU counts the bytes after the five
    header bytes, [le] trailing bytes [Le] apart. *)
Definition lcCounts (le : nat) (command : Buffer) : Prop :=
  exists lc,
    nth_error command 4 = Some lc
    /\ u8 lc + 5 + Z.of_nat le = Z.of_nat (List.length command).

(** The text has no character [x]. *)
Fixpoint noX (text : string) : Prop :=
  match text with
  | EmptyString => True
  | String c rest => c <> "x"%char /\ noX rest
  end.

(** A command that is GET DATA for [objectId] or GET RESPONSE. *)
Definition isRead (objectId c : Buffer) : Prop :=
  c = PIV.getDataCommand objectId \/ isGetResponse c.

(** The session has no reader or no protocol: [transmitRaw] refuses. *)
Definition unplugged {R} (st : PIV.Session R) : Prop :=
  PIV.reader st = false \/ PIV.protocol st = None.

(** Two sessions with the same connection fields and the same lines on
    [console.error]. *)
Definition sameLink {R} (st st' : PIV.Session R) : Prop :=
  PIV.reader st' = PIV.reader st
  /\ PIV.pcsc st' = PIV.pcsc st
  /\ PIV.protocol st' = PIV.protocol st
  /\ PIV.isConnected st' = PIV.isConnected st
  /\ PIV.connectPromiseResolved st' = PIV.connectPromiseResolved st
  /\ PIV.errlog st' = PIV.errlog st.

(** The two ASCII digits of a number below 100. *)
Definition twoDigits (n : Z) : Buffer :=
  [byte_of_Z (48 + n / 10); byte_of_Z (48 + n mod 10)].

(** The fields are those of a date in the years 0 and later. *)
Definition validUtc (date : Codec.UtcFields) : Prop :=
  0 <= Codec.utcFullYear date
  /\ 0 <= Codec.utcMonth date < 12
  /\ 1 <= Codec.utcDate date <= 31
  /\ 0 <= Codec.utcHours date < 24
  /\ 0 <= Codec.utcMinutes date < 60
  /\ 0 <= Codec.utcSeconds date < 60.

End Aux.

(* ================================================================== *)
(** ** Concrete inputs and collaborators for the examples *)
(* ================================================================== *)

Module Fixture.
Import JS Codec PIV.

(** A reader that plays back a script of outcomes, one per command. *)
Definition Script : Type := list (string + Buffer).

Definition scriptedReader : CardReader Script :=
  {| reader_transmit script _ _ _ :=
       match script with
       | [] => (inl "Card was removed"%string, [])
       | outcome :: rest => (outcome, rest)
       end |}.

(** A stand-in block cipher: the block reversed. *)
Definition toyCrypto : Crypto :=
  {| aes192ecb_decrypt _ block := rev block;
     aes192ecb_encrypt _ block := rev block |}.

(** A host on which [ykman] fails and reconnecting succeeds. *)
Definition failingYkman : External Script :=
  {| ykman dev _ _ := (ExecError "No YubiKey detected"%string, dev);
     connect st := mkSession (device st) true true (Some 2) true true
                     (sent st) (errlog st) |}.

(** A connected session in front of a scripted token. *)
Definition plugged (script : Script) : Session Script :=
  mkSession script true true (Some 2) true true [] [].

(** The same session in front of the script [rest], once [cmds] were
    sent. *)
Definition sessionAt (rest : Script) (cmds : list Buffer) : Session Script :=
  mkSession rest true true (Some 2) true true cmds [].

Definition ok (payload : Buffer) : string + Buffer :=
  inr (payload ++ [x90; x00]).

(** A response in two parts: five bytes are announced by [61 05]. *)
Definition firstPart : Buffer := [x53; x03; x01; x02; x03].
Definition fiveMore : Buffer := [x0a; x0b; x0c; x0d; x0e].
Definition continuationScript : Script :=
  [inr (firstPart ++ [x61; x05]); ok fiveMore].

(** A DER signature with [r = 1] and [s = 2^256 - 1]. *)
Definition derOversizedS : Buffer :=
  [x30; x26; x02; x01; x01; x02; x21; x00] ++ repeat xff 32.

(** A DER signature with [r = 5] and [s = curveOrder - 1]. *)
Definition highS : Buffer :=
  fromHex "ffffffff00000000ffffffffffffffffbce6faada7179e84f3b9cac2fc632550".
Definition derHighS : Buffer := Aux.derSignature [x05] highS.

Definition someChallenge : Buffer :=
  [x10; x11; x12; x13; x14; x15; x16; x17;
   x18; x19; x1a; x1b; x1c; x1d; x1e; x1f].

Definition someWitness : Buffer := repeat xa5 16.

Definition somePoint : Buffer := x04 :: repeat xab 32 ++ repeat xcd 32.

(** The token's answers to the two steps of the handshake; the second
    holds [response] as the card's answer to the challenge. *)
Definition witnessAnswer : string + Buffer :=
  ok ([x7c; x12; x80; x10] ++ someWitness).
Definition challengeAnswer (response : Buffer) : string + Buffer :=
  ok ([x7c; x12; x82; x10] ++ response).

(** The token's answer to GENERATE ASYMMETRIC KEY PAIR. *)
Definition generateAnswer : string + Buffer :=
  ok ([x7f; x49; x43; x86; x41] ++ somePoint).

(** The token's answer to GET DATA on an empty slot. *)
Definition noKeyAnswer : string + Buffer := inr [x6a; x82].

(** The record for [somePoint]. *)
Definition someKey : PublicKeyResult :=
  {| publicKeyHex := toHex somePoint;
     x := toHex (repeat xab 32);
     y := toHex (repeat xcd 32) |}.

(** The object id of slot 9A and the commands sent for it. *)
Definition objectId9a : Buffer := [x5f; xc1; x05].
Definition readCmd : Buffer := getDataCommand objectId9a.
Definition answerCmd : Buffer :=
  authCmd (rev someWitness) someChallenge.


(** A signature response whose [s] INTEGER announces 32 bytes and holds
    four. *)
Definition truncatedSignature : Buffer :=
  [x7c; x0d; x82; x0b; x30; x25; x02; x01; x01; x02; x20;
   xaa; xbb; xcc; xdd].

(** A certificate blob with the key in a long-form BIT STRING, one byte
    short of the 65-byte point. *)
Definition truncatedCertificate : Buffer :=
  ecPubKeyOid ++ [x03; x81; x42; x00; x04] ++ repeat xaa 63.

(** A host on which the temporary directory cannot be made. *)
Definition noTempDir : External Script :=
  {| ykman dev _ _ := (MkdtempThrows "ENOSPC: no space left on device"%string,
                       dev);
     connect st := mkSession (device st) true true (Some 2) true true
                     (sent st) (errlog st) |}.

(** The session once the key of [generateScript] is generated. *)
Definition afterGenerate : Session Script :=
  sessionAt [] [readCmd; witnessReqCmd; answerCmd;
                generateKeyCommand PIV_SLOT_AUTHENTICATION].

(** A hash to sign and the token's answer with the signature
    [derHighS]. *)
Definition someHash : Buffer := repeat x11 32.
Definition signatureAnswer : Buffer :=
  [x7c; x29; x82; x27] ++ derHighS.

(** Stand-ins for viem: a constant digest and a constant address. *)
Definition toyKeccak256 (_ : string) : string :=
  "0x00112233445566778899aabbccddeeff00112233445566778899aabbccddeeff"%string.
Definition toyGetAddress (_ : string) : string :=
  "0x5aAeb6053F3E94C9b9A09f33669435E7Ef1BeAed"%string.

End Fixture.

(* ================================================================== *)
(** ** Properties *)
(* ================================================================== *)
Import JS Codec Aux.

Section HexFacts.

Lemma unhex_hexdigit (d : N) : (d < 16)%N -> unhex (hexdigit d) = Some d.
Proof.
  intros Hd. destruct d as [|p]; [reflexivity|].
  do 4 (destruct p as [p|p|]; try lia; try reflexivity).
Qed.

Lemma u8_byte_of_Z (z : Z) : u8 (byte_of_Z z) = z mod 256.
Proof.
  unfold u8, byte_of_Z.
  assert (Hr : 0 <= z mod 256 < 256) by (apply Z.mod_pos_bound; lia).
  destruct (Byte.of_N (Z.to_N (z mod 256))) as [b|] eqn:E.
  - apply Byte.to_of_N in E. rewrite E. lia.
  - apply Byte.of_N_None_iff in E. lia.
Qed.

Lemma byte_of_Z_u8 (b : byte) : byte_of_Z (u8 b) = b.
Proof.
  unfold u8, byte_of_Z.
  pose proof (Byte.to_N_bounded b) as Hb.
  rewrite Z.mod_small by lia.
  rewrite N2Z.id, Byte.of_to_N. reflexivity.
Qed.

Lemma u8_range (b : byte) : 0 <= u8 b < 256.
Proof. unfold u8. pose proof (Byte.to_N_bounded b). lia. Qed.

Lemma fromHex_toHex (b : Buffer) : fromHex (toHex b) = b.
Proof.
  induction b as [|x b IH]; [reflexivity|].
  cbn [toHex fromHex].
  pose proof (Byte.to_N_bounded x) as Hb.
  rewrite !unhex_hexdigit.
  - rewrite IH. f_equal.
    replace (16 * (Byte.to_N x / 16) + Byte.to_N x mod 16)%N with (Byte.to_N x).
    + apply (byte_of_Z_u8 x).
    + pose proof (N.div_mod (Byte.to_N x) 16). lia.
  - apply N.mod_lt. lia.
  - apply N.Div0.div_lt_upper_bound. lia.
Qed.

End HexFacts.

Section BigIntFacts.

Lemma beVal_app (a b : Buffer) :
  beVal (a ++ b) = fold_left (fun acc x => 256 * acc + u8 x) b (beVal a).
Proof. unfold beVal. apply fold_left_app. Qed.

Lemma beVal_snoc (a : Buffer) (x : byte) :
  beVal (a ++ [x]) = 256 * beVal a + u8 x.
Proof. rewrite beVal_app. reflexivity. Qed.

Lemma fold_beVal_bound (b : Buffer) (acc : Z) :
  0 <= acc ->
  acc * 256 ^ Z.of_nat (List.length b)
  <= fold_left (fun a x => 256 * a + u8 x) b acc
  < (acc + 1) * 256 ^ Z.of_nat (List.length b).
Proof.
  revert acc. induction b as [|x b IH]; intros acc Hacc.
  - cbn [fold_left List.length]. change (256 ^ Z.of_nat 0) with 1. lia.
  - cbn [fold_left]. pose proof (u8_range x) as Hx.
    specialize (IH (256 * acc + u8 x) ltac:(lia)).
    replace (Z.of_nat (List.length (x :: b)))
      with (Z.succ (Z.of_nat (List.length b))) by (cbn [List.length]; lia).
    rewrite Z.pow_succ_r by lia.
    assert (Hp : 0 < 256 ^ Z.of_nat (List.length b))
      by (apply Z.pow_pos_nonneg; lia).
    nia.
Qed.

Lemma beVal_bound (b : Buffer) :
  0 <= beVal b < 256 ^ Z.of_nat (List.length b).
Proof.
  pose proof (fold_beVal_bound b 0 ltac:(lia)) as Hb.
  unfold beVal. lia.
Qed.

Lemma hexValue_toHex (b : Buffer) (acc : N) :
  hexValue (toHex b) acc
  = Some (Z.to_N (fold_left (fun a x => 256 * a + u8 x) b (Z.of_N acc))).
Proof.
  revert acc. induction b as [|x b IH]; intros acc.
  - cbn. rewrite N2Z.id. reflexivity.
  - cbn [toHex hexValue fold_left].
    pose proof (Byte.to_N_bounded x) as Hb.
    rewrite !unhex_hexdigit.
    + rewrite IH. do 3 f_equal. unfold u8.
      pose proof (N.div_mod (Byte.to_N x) 16). lia.
    + apply N.mod_lt. lia.
    + apply N.Div0.div_lt_upper_bound. lia.
Qed.

Lemma bigIntOfHex_toHex (b : Buffer) :
  b <> [] -> bigIntOfHex (toHex b) = Ok (beVal b).
Proof.
  intros Hne. unfold bigIntOfHex.
  destruct b as [|x b]; [congruence|].
  cbn [toHex]. change (String ?a (String ?c (toHex b))) with (toHex (x :: b)).
  rewrite hexValue_toHex. f_equal.
  change (fold_left _ (x :: b) (Z.of_N 0)) with (beVal (x :: b)).
  pose proof (beVal_bound (x :: b)). lia.
Qed.

Lemma length_beBytes (k : nat) (n : N) : List.length (beBytes k n) = k.
Proof.
  revert n. induction k as [|k IH]; intros n; [reflexivity|].
  cbn [beBytes]. rewrite length_app, IH. cbn. lia.
Qed.

Lemma beVal_beBytes (k : nat) (n : N) :
  beVal (beBytes k n) = Z.of_N n mod 256 ^ Z.of_nat k.
Proof.
  revert n. induction k as [|k IH]; intros n.
  - cbn. rewrite Z.mod_1_r. reflexivity.
  - cbn [beBytes]. rewrite beVal_snoc, IH, u8_byte_of_Z.
    rewrite Nat2Z.inj_succ, Z.pow_succ_r by lia.
    rewrite N2Z.inj_div, N2Z.inj_mod. change (Z.of_N 256) with 256.
    rewrite Z.mod_mod by lia.
    assert (Hp : 0 < 256 ^ Z.of_nat k) by (apply Z.pow_pos_nonneg; lia).
    rewrite (Z.rem_mul_r (Z.of_N n) 256 (256 ^ Z.of_nat k)) by lia. lia.
Qed.

End BigIntFacts.

Section HexDigitFacts.

Lemma zeros_S (k : nat) : zeros (S k) = String "0"%char (zeros k).
Proof. reflexivity. Qed.

Lemma zeros_snoc (k : nat) (acc : string) :
  (zeros k ++ String "0"%char acc)%string = String "0"%char (zeros k ++ acc).
Proof.
  induction k as [|k IH]; [reflexivity|].
  rewrite zeros_S. cbn [String.append]. rewrite IH. reflexivity.
Qed.

Lemma length_zeros (k : nat) : String.length (zeros k) = k.
Proof.
  induction k as [|k IH]; [reflexivity|].
  rewrite zeros_S. cbn [String.length]. rewrite IH. reflexivity.
Qed.

Lemma string_length_app (a b : string) :
  String.length (a ++ b) = (String.length a + String.length b)%nat.
Proof.
  induction a as [|c a IH]; [reflexivity|].
  cbn [String.append String.length]. rewrite IH. reflexivity.
Qed.

Lemma fixedHex_zero (k : nat) (acc : string) :
  fixedHex k 0 acc = (zeros k ++ acc)%string.
Proof.
  revert acc. induction k as [|k IH]; intros acc; [reflexivity|].
  cbn [fixedHex]. change (0 / 16)%N with 0%N. change (0 mod 16)%N with 0%N.
  rewrite IH. cbn [hexdigit]. apply zeros_snoc.
Qed.

Lemma pow16_S (k : nat) : (16 ^ N.of_nat (S k) = 16 * 16 ^ N.of_nat k)%N.
Proof. rewrite Nat2N.inj_succ, N.pow_succ_r'. reflexivity. Qed.

Lemma hexDigits_S (f : nat) (n : N) (acc : string) :
  hexDigits (S f) n acc
  = if (n <? 16)%N then String (hexdigit (n mod 16)) acc
    else hexDigits f (n / 16) (String (hexdigit (n mod 16)) acc).
Proof. reflexivity. Qed.

(** The digits printed for [n] are the low-order part of any fixed-width
    rendering that is wide enough; the rest of that rendering is zeros. *)
Lemma hexDigits_fixed (f : nat) :
  forall (n : N) (acc : string) (k : nat),
    (n < 16 ^ N.of_nat (S f))%N -> (n < 16 ^ N.of_nat (S k))%N ->
    (String.length acc < String.length (hexDigits (S f) n acc)
     <= S k + String.length acc)%nat
    /\ fixedHex (S k) n acc
       = (zeros (S k + String.length acc
                 - String.length (hexDigits (S f) n acc))
          ++ hexDigits (S f) n acc)%string.
Proof.
  induction f as [|f IH]; intros n acc k Hf Hk.
  - change (16 ^ N.of_nat 1)%N with 16%N in Hf.
    cbn [hexDigits]. replace (if (n <? 16)%N then _ else _)
      with (String (hexdigit (n mod 16)) acc) by (destruct (n <? 16)%N; reflexivity).
    cbn [fixedHex String.length]. rewrite N.div_small by lia.
    rewrite fixedHex_zero. split; [lia|]. f_equal. f_equal. lia.
  - rewrite (hexDigits_S (S f)). destruct (n <? 16)%N eqn:E.
    + apply N.ltb_lt in E.
      cbn [fixedHex String.length]. rewrite N.div_small by lia.
      rewrite fixedHex_zero. split; [lia|]. f_equal. f_equal. lia.
    + apply N.ltb_ge in E.
      destruct k as [|k].
      { change (16 ^ N.of_nat 1)%N with 16%N in Hk. lia. }
      rewrite pow16_S in Hf, Hk.
      assert (Hf' : (n / 16 < 16 ^ N.of_nat (S f))%N)
        by (apply N.Div0.div_lt_upper_bound; lia).
      assert (Hk' : (n / 16 < 16 ^ N.of_nat (S k))%N)
        by (apply N.Div0.div_lt_upper_bound; lia).
      destruct (IH (n / 16)%N (String (hexdigit (n mod 16)) acc) k Hf' Hk')
        as [Hlen Hfix].
      cbn [String.length] in Hlen, Hfix.
      change (fixedHex (S (S k)) n acc)
        with (fixedHex (S k) (n / 16)%N (String (hexdigit (n mod 16)) acc)).
      rewrite Hfix. split; [lia|]. f_equal. f_equal. lia.
Qed.

Lemma log2_digits (n : N) : (n < 16 ^ N.of_nat (S (N.to_nat (N.log2 n))))%N.
Proof.
  rewrite Nat2N.inj_succ, N2Nat.id.
  apply N.lt_le_trans with (2 ^ N.succ (N.log2 n))%N.
  - destruct n as [|p]; [cbn; lia|]. apply N.log2_spec. lia.
  - apply N.pow_le_mono_l. lia.
Qed.

Lemma padStart0_nonneg (k : nat) (z : Z) :
  0 <= z < 16 ^ Z.of_nat (S k) ->
  padStart0 (S k) (bigIntToString16 z) = fixedHex (S k) (Z.to_N z) EmptyString.
Proof.
  intros Hz. unfold bigIntToString16, padStart0.
  replace (z <? 0) with false by (symmetry; apply Z.ltb_ge; lia).
  replace (Z.abs_N z) with (Z.to_N z) by (destruct z; cbn; lia || reflexivity).
  assert (Hk : (Z.to_N z < 16 ^ N.of_nat (S k))%N).
  { apply N2Z.inj_lt. rewrite N2Z.inj_pow, Z2N.id, nat_N_Z by lia.
    exact (proj2 Hz). }
  destruct (hexDigits_fixed _ _ EmptyString k (log2_digits (Z.to_N z)) Hk)
    as [_ Hfix].
  rewrite Hfix. cbn [String.length]. unfold zeros. f_equal. f_equal. f_equal. lia.
Qed.

Lemma fromHex_fixedHex (k : nat) :
  forall (n : N) (acc : string),
    fromHex (fixedHex (2 * k) n acc) = beBytes k n ++ fromHex acc.
Proof.
  induction k as [|k IH]; intros n acc; [reflexivity|].
  replace (2 * S k)%nat with (S (S (2 * k))) by lia.
  change (fixedHex (S (S (2 * k))) n acc)
    with (fixedHex (2 * k) (n / 16 / 16)%N
            (String (hexdigit ((n / 16) mod 16))
               (String (hexdigit (n mod 16)) acc))).
  rewrite IH. cbn [beBytes fromHex].
  rewrite !unhex_hexdigit by (apply N.mod_lt; lia).
  rewrite N.Div0.div_div. change (16 * 16)%N with 256%N.
  assert (E : (n mod 256 = 16 * ((n / 16) mod 16) + n mod 16)%N).
  { change 256%N with (16 * 16)%N. rewrite N.Div0.mod_mul_r. lia. }
  rewrite E, <- app_assoc. reflexivity.
Qed.

Lemma fromHex_zeros_even (j : nat) (rest : string) :
  fromHex (zeros (2 * j) ++ rest) = repeat x00 j ++ fromHex rest.
Proof.
  induction j as [|j IH]; [reflexivity|].
  replace (2 * S j)%nat with (S (S (2 * j))) by lia.
  rewrite !zeros_S. cbn [String.append fromHex].
  change (unhex "0") with (Some 0%N). cbv iota. rewrite IH. reflexivity.
Qed.

Lemma fromHex_zeros_minus (m : nat) (rest : string) :
  fromHex (zeros m ++ String "-"%char rest) = repeat x00 (m / 2).
Proof.
  rewrite (Nat.div_mod_eq m 2) at 1.
  assert (Hm : (m mod 2 = 0 \/ m mod 2 = 1)%nat)
    by (pose proof (Nat.mod_upper_bound m 2); lia).
  destruct Hm as [Hm|Hm]; rewrite Hm.
  - rewrite Nat.add_0_r, fromHex_zeros_even. cbn [fromHex].
    change (unhex "-") with (@None N). cbv iota.
    destruct rest; apply app_nil_r.
  - replace (2 * (m / 2) + 1)%nat with (S (2 * (m / 2))) by lia.
    rewrite zeros_S. cbn [String.append].
    rewrite <- zeros_snoc, fromHex_zeros_even. cbn [fromHex].
    change (unhex "-") with (@None N). change (unhex "0") with (Some 0%N).
    cbv iota. apply app_nil_r.
Qed.

Lemma beVal_repeat0 (j : nat) : beVal (repeat x00 j) = 0.
Proof.
  induction j as [|j IH]; [reflexivity|].
  change (repeat x00 (S j)) with ([x00] ++ repeat x00 j).
  rewrite beVal_app. exact IH.
Qed.

Lemma padStart0_negative (z : Z) (k : nat) :
  - 16 ^ Z.of_nat (S k) < z < 0 -> (S k < 62)%nat ->
  exists j, (1 <= j <= 31)%nat
    /\ fromHex (padStart0 64 (bigIntToString16 z)) = repeat x00 j.
Proof.
  intros Hz Hk. unfold bigIntToString16, padStart0.
  replace (z <? 0) with true by (symmetry; apply Z.ltb_lt; lia).
  assert (Hn : (Z.abs_N z < 16 ^ N.of_nat (S k))%N).
  { apply N2Z.inj_lt. rewrite N2Z.inj_pow, N2Z.inj_abs_N, nat_N_Z. cbn [Z.of_N]. lia. }
  destruct (hexDigits_fixed _ _ EmptyString k (log2_digits (Z.abs_N z)) Hn)
    as [Hlen _].
  cbn [String.length] in Hlen |- *.
  set (ds := hexDigits _ _ _) in *.
  change (string_of_list_ascii (repeat "0"%char ?m)) with (zeros m).
  rewrite fromHex_zeros_minus.
  exists ((64 - S (String.length ds)) / 2)%nat. split; [|reflexivity].
  split.
  - apply Nat.div_le_lower_bound; lia.
  - apply Nat.Div0.div_le_upper_bound. lia.
Qed.

End HexDigitFacts.

Section BufferFacts.

Lemma adjustOffset_nonneg (z len : Z) :
  0 <= z -> 0 <= len -> adjustOffset (Num z) len = Z.min z len.
Proof.
  intros Hz Hl. unfold adjustOffset.
  destruct (z =? 0) eqn:E0; [lia|].
  destruct (z <? 0) eqn:E1; [lia|].
  destruct (z <? len) eqn:E2; lia.
Qed.

Lemma slice_nonneg (b : Buffer) (s e : Z) :
  0 <= s -> 0 <= e ->
  slice b (Num s) (Num e)
  = firstn (Z.to_nat (e - s)) (skipn (Z.to_nat s) b).
Proof.
  intros Hs He. unfold slice.
  rewrite !adjustOffset_nonneg by lia.
  set (len := Z.of_nat (List.length b)).
  assert (Hlen : Z.to_nat len = List.length b) by (unfold len; lia).
  destruct (Z.lt_ge_cases s len) as [Hsl|Hsl].
  - rewrite (Z.min_l s) by lia.
    destruct (Z.lt_ge_cases e len) as [Hel|Hel].
    + rewrite (Z.min_l e) by lia.
      destruct (s <? e) eqn:Ese; [reflexivity|].
      apply Z.ltb_ge in Ese. f_equal. lia.
    + rewrite (Z.min_r e) by lia.
      replace (s <? len) with true by (symmetry; apply Z.ltb_lt; lia).
      rewrite !firstn_all2 by (rewrite length_skipn; lia). reflexivity.
  - rewrite (Z.min_r s) by lia.
    rewrite !skipn_all2 by lia. rewrite !firstn_nil. reflexivity.
Qed.

Lemma slice_from (b : Buffer) (s : Z) :
  0 <= s -> slice b (Num s) Undefined = skipn (Z.to_nat s) b.
Proof.
  intros Hs. unfold slice.
  rewrite adjustOffset_nonneg by lia.
  set (len := Z.of_nat (List.length b)).
  assert (Hlen : Z.to_nat len = List.length b) by (unfold len; lia).
  destruct (Z.lt_ge_cases s len) as [Hsl|Hsl].
  - rewrite (Z.min_l s) by lia.
    replace (s <? len) with true by (symmetry; apply Z.ltb_lt; lia).
    apply firstn_all2. rewrite length_skipn. lia.
  - rewrite (Z.min_r s) by lia.
    rewrite !skipn_all2 by lia. apply firstn_nil.
Qed.

(** [data.slice(0, -2)] and [data.slice(-2)] on a response that carries a
    status word. *)
Lemma slice_payload (payload : Buffer) (sw1 sw2 : byte) :
  slice (payload ++ [sw1; sw2]) (Num 0) (Num (-2)) = payload.
Proof.
  destruct payload as [|x p]; [reflexivity|].
  unfold slice, adjustOffset. rewrite length_app. cbn [List.length].
  change (0 =? 0) with true. change (-2 =? 0) with false.
  change (-2 <? 0) with true. cbv iota.
  replace (0 <? -2 + Z.of_nat (S (List.length p) + 2)) with true
    by (symmetry; apply Z.ltb_lt; lia).
  replace (-2 + Z.of_nat (S (List.length p) + 2))
    with (Z.of_nat (S (List.length p))) by lia.
  replace (0 <? Z.of_nat (S (List.length p))) with true
    by (symmetry; apply Z.ltb_lt; lia).
  rewrite Z.sub_0_r, Nat2Z.id. change (Z.to_nat 0) with 0%nat.
  cbn [skipn].
  change (S (List.length p)) with (List.length (x :: p)).
  rewrite firstn_app, Nat.sub_diag, firstn_all. cbn [firstn]. apply app_nil_r.
Qed.

Lemma slice_sw (payload : Buffer) (sw1 sw2 : byte) :
  slice (payload ++ [sw1; sw2]) (Num (-2)) Undefined = [sw1; sw2].
Proof.
  destruct payload as [|x p]; [reflexivity|].
  unfold slice, adjustOffset. rewrite length_app. cbn [List.length].
  change (-2 =? 0) with false. change (-2 <? 0) with true. cbv iota.
  replace (0 <? -2 + Z.of_nat (S (List.length p) + 2)) with true
    by (symmetry; apply Z.ltb_lt; lia).
  replace (-2 + Z.of_nat (S (List.length p) + 2))
    with (Z.of_nat (S (List.length p))) by lia.
  replace (Z.of_nat (S (List.length p))
           <? Z.of_nat (S (List.length p) + 2)) with true
    by (symmetry; apply Z.ltb_lt; lia).
  rewrite Nat2Z.id.
  change (S (List.length p)) with (List.length (x :: p)).
  rewrite skipn_app, skipn_all, Nat.sub_diag. cbn [skipn app].
  replace (Z.to_nat _) with 2%nat by (cbn [List.length]; lia). reflexivity.
Qed.

Lemma firstn_repeat (A : Type) (a : A) (k n : nat) :
  (k <= n)%nat -> firstn k (repeat a n) = repeat a k.
Proof.
  revert n. induction k as [|k IH]; intros n Hk; [reflexivity|].
  destruct n as [|n]; [lia|]. cbn. f_equal. apply IH. lia.
Qed.

Lemma normalizeTo32Bytes_short (buf : Buffer) :
  (List.length buf < 32)%nat ->
  normalizeTo32Bytes buf = repeat x00 (32 - List.length buf) ++ buf.
Proof.
  intros Hlen. unfold normalizeTo32Bytes.
  replace (seq (blen buf) (Num 33)) with false
    by (symmetry; apply Z.eqb_neq; lia).
  cbn [andb]. unfold lt, blen.
  replace (Z.of_nat (List.length buf) <? 32) with true
    by (symmetry; apply Z.ltb_lt; lia).
  unfold copy, alloc. rewrite repeat_length.
  replace (Nat.min (List.length buf) (32 - (32 - List.length buf)))
    with (List.length buf) by lia.
  rewrite firstn_repeat by lia. rewrite firstn_all.
  rewrite skipn_all2 by (rewrite repeat_length; lia).
  rewrite app_nil_r. reflexivity.
Qed.

Lemma normalizeTo32Bytes_exact (buf : Buffer) :
  List.length buf = 32%nat -> normalizeTo32Bytes buf = buf.
Proof.
  intros Hlen. unfold normalizeTo32Bytes.
  replace (seq (blen buf) (Num 33)) with false
    by (symmetry; apply Z.eqb_neq; lia).
  cbn [andb]. unfold lt, blen.
  replace (Z.of_nat (List.length buf) <? 32) with false
    by (symmetry; apply Z.ltb_ge; lia).
  rewrite slice_nonneg by lia. cbn [skipn Z.to_nat].
  apply firstn_all2. cbn. lia.
Qed.

Lemma normalizeTo32Bytes_leading_zero (buf : Buffer) :
  List.length buf = 32%nat -> normalizeTo32Bytes (x00 :: buf) = buf.
Proof.
  intros Hlen. unfold normalizeTo32Bytes.
  replace (seq (blen (x00 :: buf)) (Num 33)) with true
    by (symmetry; apply Z.eqb_eq; cbn [List.length]; lia).
  replace (seq (at_ (x00 :: buf) (Num 0)) (Num 0)) with true.
  2:{ unfold at_. cbn [List.length].
      replace ((0 <=? 0) && (0 <? Z.of_nat (S (List.length buf)))) with true
        by (symmetry; apply andb_true_iff; split;
            [reflexivity | apply Z.ltb_lt; lia]).
      reflexivity. }
  cbn [andb]. rewrite slice_from by lia.
  change (skipn (Z.to_nat 1) (x00 :: buf)) with buf.
  unfold lt, blen.
  replace (Z.of_nat (List.length buf) <? 32) with false
    by (symmetry; apply Z.ltb_ge; lia).
  rewrite slice_nonneg by lia. cbn [skipn Z.to_nat].
  apply firstn_all2. cbn. lia.
Qed.

Lemma length_pad_or_cut (buf : Buffer) :
  List.length (if lt (blen buf) (Num 32)
               then copy buf (alloc 32 x00) (32 - List.length buf)
               else slice buf (Num 0) (Num 32)) = 32%nat.
Proof.
  unfold lt, blen.
  destruct (Z.of_nat (List.length buf) <? 32) eqn:E.
  - apply Z.ltb_lt in E. unfold copy, alloc.
    rewrite !length_app, !length_firstn, length_skipn, !repeat_length. lia.
  - apply Z.ltb_ge in E. rewrite slice_nonneg by lia.
    cbn [skipn Z.to_nat]. rewrite length_firstn. cbn. lia.
Qed.

Lemma length_normalizeTo32Bytes (buf : Buffer) :
  List.length (normalizeTo32Bytes buf) = 32%nat.
Proof.
  unfold normalizeTo32Bytes.
  destruct (seq (blen buf) (Num 33) && seq (at_ buf (Num 0)) (Num 0));
    apply length_pad_or_cut.
Qed.

Lemma beVal_zeros_app (k : nat) (b : Buffer) :
  beVal (repeat x00 k ++ b) = beVal b.
Proof.
  rewrite beVal_app, beVal_repeat0. reflexivity.
Qed.

End BufferFacts.

Section LowS.

Lemma curveOrder_odd : curveOrder = 2 * halfN + 1.
Proof. reflexivity. Qed.

Lemma halfN_pos : 0 < halfN.
Proof. reflexivity. Qed.

Lemma curveOrder_lt_2_256 : curveOrder < 256 ^ Z.of_nat 32.
Proof. reflexivity. Qed.

Lemma curveOrder_gap : 256 ^ Z.of_nat 32 - curveOrder < 16 ^ Z.of_nat (S 55).
Proof. reflexivity. Qed.

Lemma pow_16_64 : 16 ^ Z.of_nat (S 63) = 256 ^ Z.of_nat 32.
Proof. reflexivity. Qed.

Lemma lowS_fixed (s : Buffer) :
  s <> [] -> beVal s <= halfN -> lowS s = Ok s.
Proof.
  intros Hne Hle. unfold lowS. rewrite bigIntOfHex_toHex by exact Hne.
  cbn [bindExc].
  replace (halfN <? beVal s) with false by (symmetry; apply Z.ltb_ge; lia).
  reflexivity.
Qed.

(** The low-S step on a 32-byte [s]. *)
Lemma lowS_spec (s : Buffer) :
  List.length s = 32%nat ->
  exists s',
    lowS s = Ok s'
    /\ beVal s' <= halfN
    /\ lowS s' = Ok s'
    /\ (beVal s <= halfN -> s' = s)
    /\ (beVal s <= curveOrder ->
        List.length s' = 32%nat
        /\ (halfN < beVal s -> beVal s' = curveOrder - beVal s)).
Proof.
  intros Hlen.
  assert (Hne : s <> []) by (intros ->; discriminate).
  pose proof (beVal_bound s) as Hb. rewrite Hlen in Hb.
  pose proof curveOrder_odd as Hodd. pose proof halfN_pos as Hpos.
  pose proof curveOrder_lt_2_256 as Hn. pose proof curveOrder_gap as Hgap.
  pose proof pow_16_64 as H64.
  unfold lowS. rewrite bigIntOfHex_toHex by exact Hne. cbn [bindExc].
  destruct (halfN <? beVal s) eqn:E.
  - apply Z.ltb_lt in E.
    destruct (Z.le_gt_cases (beVal s) curveOrder) as [Hle|Hgt].
    + set (z := curveOrder - beVal s).
      assert (Hz : 0 <= z <= halfN) by (unfold z; lia).
      rewrite (padStart0_nonneg 63) by lia.
      change 64%nat with (2 * 32)%nat.
      rewrite fromHex_fixedHex. cbn [fromHex]. rewrite app_nil_r.
      assert (Hv : beVal (beBytes 32 (Z.to_N z)) = z).
      { rewrite beVal_beBytes, Z2N.id by lia. apply Z.mod_small. lia. }
      exists (beBytes 32 (Z.to_N z)).
      split; [reflexivity|]. split; [lia|]. split.
      { apply lowS_fixed; [|lia].
        intros Hnil. apply (f_equal (@List.length byte)) in Hnil.
        rewrite length_beBytes in Hnil. discriminate. }
      split; [lia|]. intros _. split; [apply length_beBytes|]. intros _. exact Hv.
    + destruct (padStart0_negative (curveOrder - beVal s) 55) as (j & Hj & Hfrom);
        [lia | lia |].
      rewrite Hfrom. exists (repeat x00 j).
      pose proof (beVal_repeat0 j) as H0.
      split; [reflexivity|]. split; [lia|]. split.
      { apply lowS_fixed; [|lia]. destruct j; [lia|discriminate]. }
      split; lia.
  - apply Z.ltb_ge in E. exists s.
    split; [reflexivity|]. split; [exact E|]. split.
    { apply lowS_fixed; assumption. }
    split; [reflexivity|]. intros _. split; [exact Hlen|]. lia.
Qed.

End LowS.

Section DerFacts.

Lemma at_nth (b : Buffer) (i : nat) (v : byte) :
  nth_error b i = Some v -> at_ b (Num (Z.of_nat i)) = Num (u8 v).
Proof.
  intros Hnth. unfold at_.
  assert (Hi : (i < List.length b)%nat)
    by (apply nth_error_Some; congruence).
  replace ((0 <=? Z.of_nat i) && (Z.of_nat i <? Z.of_nat (List.length b)))
    with true
    by (symmetry; apply andb_true_iff; split;
        [apply Z.leb_le | apply Z.ltb_lt]; lia).
  rewrite Nat2Z.id, Hnth. reflexivity.
Qed.

Lemma u8_short (k : Z) : 0 <= k < 128 -> u8 (byte_of_Z k) = k.
Proof. intros Hk. rewrite u8_byte_of_Z. apply Z.mod_small. lia. Qed.

Lemma parseLength_short (data : Buffer) (i : nat) (k : Z) :
  0 <= k < 128 -> nth_error data i = Some (byte_of_Z k) ->
  parseLength data (Num (Z.of_nat i)) = Ok (Num k)
  /\ parseLengthBytes data (Num (Z.of_nat i)) = Ok (Num 1).
Proof.
  intros Hk Hnth. unfold parseLength, parseLengthBytes.
  rewrite (at_nth _ _ _ Hnth), u8_short by exact Hk.
  unfold le. replace (k <=? 127) with true
    by (symmetry; apply Z.leb_le; lia).
  split; reflexivity.
Qed.


End DerFacts.

Import Fixture.

Section SignatureCodec.




End SignatureCodec.

Import PIV.

Section JsFacts.

Lemma toInt32_small (z : Z) : 0 <= z < 2 ^ 31 -> toInt32 (Num z) = z.
Proof.
  intros Hz. unfold toInt32.
  rewrite Z.mod_small by lia. lia.
Qed.

Lemma byte_of_jsval_u8 (b : byte) : byte_of_jsval (Num (u8 b)) = b.
Proof.
  unfold byte_of_jsval. pose proof (u8_range b).
  rewrite toInt32_small by lia. apply byte_of_Z_u8.
Qed.

Lemma u8_inj (a b : byte) : u8 a = u8 b -> a = b.
Proof.
  intros E. rewrite <- (byte_of_Z_u8 a), <- (byte_of_Z_u8 b), E. reflexivity.
Qed.

Lemma seq_u8 (a b : byte) :
  seq (Num (u8 a)) (Num (u8 b)) = true <-> a = b.
Proof.
  cbn [seq]. rewrite Z.eqb_eq. split; [apply u8_inj | intros ->; reflexivity].
Qed.

Lemma seq_u8_false (a b : byte) :
  a <> b -> seq (Num (u8 a)) (Num (u8 b)) = false.
Proof.
  intros Hne. destruct (seq (Num (u8 a)) (Num (u8 b))) eqn:E; [|reflexivity].
  apply seq_u8 in E. contradiction.
Qed.

Lemma equals_iff (a b : Buffer) : equals a b = true <-> a = b.
Proof.
  revert b. induction a as [|x a IH]; intros [|y b]; cbn [equals];
    try (split; [discriminate | intros E; discriminate E]);
    try (split; reflexivity).
  rewrite andb_true_iff, IH. split.
  - intros [Hxy Hab]. apply Byte.byte_dec_bl in Hxy. subst. reflexivity.
  - intros E. injection E as -> ->. split; [apply Byte.byte_dec_lb|]; reflexivity.
Qed.

(** The last two bytes of a buffer, as [transmit] reads them. *)
Lemma at_last_but_one (payload : Buffer) (a b : byte) :
  at_ (payload ++ [a; b])
      (Num (Z.of_nat (List.length (payload ++ [a; b])) - 2)) = Num (u8 a).
Proof.
  unfold at_. rewrite length_app. cbn [List.length].
  replace ((0 <=? Z.of_nat (List.length payload + 2) - 2)
           && (Z.of_nat (List.length payload + 2) - 2
               <? Z.of_nat (List.length payload + 2))) with true
    by (symmetry; apply andb_true_iff; split;
        [apply Z.leb_le | apply Z.ltb_lt]; lia).
  replace (Z.to_nat (Z.of_nat (List.length payload + 2) - 2))
    with (List.length payload) by lia.
  rewrite nth_error_app2 by lia. rewrite Nat.sub_diag. reflexivity.
Qed.

Lemma at_last (payload : Buffer) (a b : byte) :
  at_ (payload ++ [a; b])
      (Num (Z.of_nat (List.length (payload ++ [a; b])) - 1)) = Num (u8 b).
Proof.
  unfold at_. rewrite length_app. cbn [List.length].
  replace ((0 <=? Z.of_nat (List.length payload + 2) - 1)
           && (Z.of_nat (List.length payload + 2) - 1
               <? Z.of_nat (List.length payload + 2))) with true
    by (symmetry; apply andb_true_iff; split;
        [apply Z.leb_le | apply Z.ltb_lt]; lia).
  replace (Z.to_nat (Z.of_nat (List.length payload + 2) - 1))
    with (S (List.length payload)) by lia.
  rewrite nth_error_app2 by lia.
  replace (S (List.length payload) - List.length payload)%nat with 1%nat by lia.
  reflexivity.
Qed.

Lemma le_2_blen (payload : Buffer) (a b : byte) :
  le (Num 2) (blen (payload ++ [a; b])) = true.
Proof.
  unfold le, blen. rewrite length_app. cbn [List.length].
  apply Z.leb_le. lia.
Qed.

End JsFacts.

Section Transport.
Context {R : Type} `{CardReader R} `{Crypto} `{External R}.



Lemma transmit_loop_more (fuel : nat) (payload : Buffer) (sw2 : byte)
  (st : Session R) :
  transmit_loop (S fuel) (payload ++ [x61; sw2]) st
  = match transmitRaw (getResponseCommand sw2) st with
    | (Failure e, st') => Some (Failure e, st')
    | (Success more, st') => transmit_loop fuel (payload ++ more) st'
    end.
Proof.
  cbn [transmit_loop].
  rewrite le_2_blen, at_last_but_one, at_last, byte_of_jsval_u8, slice_payload.
  change (seq (Num (u8 x61)) (Num 97)) with true. cbv iota.
  unfold getResponseCommand.
  destruct (transmitRaw [x00; xc0; x00; x00; sw2] st) as [[more|e] st'];
    reflexivity.
Qed.

Lemma transmit_loop_terminal (fuel : nat) (payload : Buffer) (sw1 sw2 : byte)
  (st : Session R) :
  sw1 <> x61 ->
  transmit_loop (S fuel) (payload ++ [sw1; sw2]) st
  = Some (Success (payload ++ [sw1; sw2]), st).
Proof.
  intros Hsw. cbn [transmit_loop].
  rewrite le_2_blen, at_last_but_one.
  change (Num 97) with (Num (u8 x61)).
  rewrite seq_u8_false by exact Hsw. reflexivity.
Qed.

Lemma transmit_loop_short (fuel : nat) (data : Buffer) (st : Session R) :
  (List.length data < 2)%nat ->
  transmit_loop (S fuel) data st = Some (Success data, st).
Proof.
  intros Hlen. cbn [transmit_loop]. unfold le, blen.
  replace (2 <=? Z.of_nat (List.length data)) with false
    by (symmetry; apply Z.leb_gt; lia).
  reflexivity.
Qed.

End Transport.

Section TlvFacts.

Lemma at_byteOrUndefined (b : Buffer) (i : jsval) : byteOrUndefined (at_ b i).
Proof.
  unfold at_. destruct i as [z| |]; try (left; reflexivity).
  destruct ((0 <=? z) && (z <? Z.of_nat (List.length b)));
    [|left; reflexivity].
  destruct (nth_error b (Z.to_nat z)) as [v|]; [|left; reflexivity].
  right. exists (u8 v). split; [reflexivity | apply u8_range].
Qed.

Lemma toInt32_byteOrUndefined (v : jsval) :
  byteOrUndefined v -> 0 <= toInt32 v < 256.
Proof.
  intros [-> | (k & -> & Hk)]; [cbn; lia|].
  rewrite toInt32_small; lia.
Qed.

(** A decoded length is a number that is not negative, or [undefined]. *)
Lemma parseLength_nonneg (data : Buffer) (offset len : jsval) :
  parseLength data offset = Ok len ->
  len = Undefined \/ exists k, len = Num k /\ 0 <= k.
Proof.
  unfold parseLength.
  pose proof (at_byteOrUndefined data offset) as H0.
  pose proof (at_byteOrUndefined data (add offset (Num 1))) as H1.
  pose proof (at_byteOrUndefined data (add offset (Num 2))) as H2.
  destruct (le (at_ data offset) (Num 127)).
  { intros E. injection E as <-.
    destruct H0 as [->|(k & -> & Hk)]; [left; reflexivity|].
    right. exists k. split; [reflexivity | lia]. }
  destruct (seq (at_ data offset) (Num 129)).
  { intros E. injection E as <-.
    destruct H1 as [->|(k & -> & Hk)]; [left; reflexivity|].
    right. exists k. split; [reflexivity | lia]. }
  destruct (seq (at_ data offset) (Num 130)); [|discriminate].
  intros E. injection E as <-. right. eexists. split; [reflexivity|].
  apply toInt32_byteOrUndefined in H1, H2.
  apply Z.lor_nonneg. split; [|lia].
  unfold shl.
  assert (Hsh : 0 <= Z.shiftl (toInt32 (at_ data (add offset (Num 1)))) 8
                < 2 ^ 31).
  { rewrite Z.shiftl_mul_pow2 by lia. change (2 ^ 8) with 256. lia. }
  rewrite !toInt32_small; rewrite ?toInt32_small; lia.
Qed.

Lemma parseLengthBytes_pos (data : Buffer) (offset n : jsval) :
  parseLengthBytes data offset = Ok n -> exists k, n = Num k /\ 1 <= k.
Proof.
  unfold parseLengthBytes.
  repeat match goal with
         | |- context [if ?c then _ else _] => destruct c
         end; intros E; try discriminate E; injection E as <-;
    eexists; (split; [reflexivity | lia]).
Qed.

(** More rounds than the length of the data never change the result of
    the loop of [parseTlvValue]: every round moves the offset forward by
    two or more. *)
Lemma parseTlvValue_loop_fuel (fuel : nat) :
  forall extra data tag offset,
    match offset with
    | Num z =>
        0 <= z /\ Z.of_nat (List.length data) - 1 - z <= 2 * Z.of_nat fuel
    | _ => True
    end ->
    parseTlvValue_loop (fuel + extra) data tag offset
    = parseTlvValue_loop fuel data tag offset.
Proof.
  induction fuel as [|fuel IH]; intros extra data tag offset Hoff.
  - destruct extra as [|extra]; [reflexivity|].
    cbn [Nat.add parseTlvValue_loop].
    replace (lt offset (Num (Z.of_nat (List.length data) - 1))) with false;
      [reflexivity|].
    destruct offset as [z| |]; try reflexivity.
    symmetry. apply Z.ltb_ge. lia.
  - cbn [Nat.add parseTlvValue_loop].
    destruct (lt offset (Num (Z.of_nat (List.length data) - 1))) eqn:Elt;
      [|reflexivity].
    destruct offset as [z| |]; try discriminate Elt.
    apply Z.ltb_lt in Elt. destruct Hoff as [Hz Hfuel].
    destruct (parseLength data (add (Num z) (Num 1))) as [len|msg] eqn:Elen;
      [|reflexivity].
    cbn [bindExc].
    destruct (parseLengthBytes data (add (Num z) (Num 1)))
      as [lenBytes|msg] eqn:Ebytes; [|reflexivity].
    cbn [bindExc].
    destruct (seq (at_ data (Num z)) tag); [reflexivity|].
    apply IH.
    destruct (parseLengthBytes_pos _ _ _ Ebytes) as (k & -> & Hk).
    destruct (parseLength_nonneg _ _ _ Elen) as [-> | (l & -> & Hl)];
      cbn [add]; [exact I | lia].
Qed.

Lemma parseTlvValue_loop_enough (extra : nat) (data : Buffer) (tag : jsval)
  (z : Z) :
  0 <= z ->
  parseTlvValue_loop (List.length data + extra) data tag (Num z)
  = parseTlvValue_loop (List.length data) data tag (Num z).
Proof.
  intros Hz. apply parseTlvValue_loop_fuel. lia.
Qed.

End TlvFacts.

Section TransportProps.
Context {R : Type} `{CardReader R} `{Crypto} `{External R}.

Lemma transmitRaw_connected (command : Buffer) (st : Session R) (proto : Z) :
  reader st = true -> protocol st = Some proto ->
  transmitRaw command st
  = (match fst (reader_transmit (device st) command 1024 proto) with
     | inl msg => Failure msg
     | inr data => Success data
     end,
     afterTransmit st (snd (reader_transmit (device st) command 1024 proto))
       command).
Proof.
  intros Hr Hp. unfold transmitRaw. rewrite Hr, Hp.
  destruct (reader_transmit (device st) command 1024 proto) as [[msg|data] dev];
    reflexivity.
Qed.

Lemma transmitRaw_sent (command : Buffer) (st : Session R) :
  sent (snd (transmitRaw command st)) = sent st
  \/ sent (snd (transmitRaw command st)) = sent st ++ [command].
Proof.
  unfold transmitRaw.
  destruct (reader st); [|left; reflexivity].
  destruct (protocol st) as [proto|]; [|left; reflexivity].
  destruct (reader_transmit (device st) command 1024 proto) as [[msg|data] dev];
    right; reflexivity.
Qed.

Lemma transmit_loop_sent (fuel : nat) :
  forall data (st st' : Session R) res,
    transmit_loop fuel data st = Some (res, st') ->
    exists cmds, sent st' = sent st ++ cmds /\ Forall isGetResponse cmds.
Proof.
  induction fuel as [|fuel IH]; intros data st st' res Hrun;
    [discriminate Hrun|].
  cbn [transmit_loop] in Hrun.
  destruct (le (Num 2) (blen data)).
  2:{ injection Hrun as _ <-. exists []. rewrite app_nil_r. auto. }
  destruct (seq _ (Num 97)).
  2:{ injection Hrun as _ <-. exists []. rewrite app_nil_r. auto. }
  set (cmd := [x00; xc0; x00; x00; _]) in Hrun.
  assert (Hget : isGetResponse cmd) by (eexists; reflexivity).
  pose proof (transmitRaw_sent cmd st) as Hsent.
  destruct (transmitRaw cmd st) as [[more|e] st1]; cbn [snd] in Hsent.
  - apply IH in Hrun. destruct Hrun as (cmds & Hs & Hall).
    destruct Hsent as [E|E]; rewrite E in Hs.
    + exists cmds. auto.
    + exists (cmd :: cmds). rewrite <- app_assoc in Hs. auto.
  - injection Hrun as _ <-.
    destruct Hsent as [E|E]; rewrite E.
    + exists []. rewrite app_nil_r. auto.
    + exists [cmd]. auto.
Qed.

Lemma transmit_sent (fuel : nat) (command : Buffer) (st st' : Session R) res :
  transmit fuel command st = Some (res, st') ->
  exists cmds,
    sent st' = sent st ++ cmds
    /\ Forall (fun c => c = command \/ isGetResponse c) cmds.
Proof.
  unfold transmit. intros Hrun.
  pose proof (transmitRaw_sent command st) as Hsent.
  destruct (transmitRaw command st) as [[data|e] st1]; cbn [snd] in Hsent.
  - apply transmit_loop_sent in Hrun. destruct Hrun as (cmds & Hs & Hall).
    assert (Hall' : Forall (fun c => c = command \/ isGetResponse c) cmds)
      by (eapply Forall_impl; [|exact Hall]; auto).
    destruct Hsent as [E|E]; rewrite E in Hs.
    + exists cmds. auto.
    + exists (command :: cmds). rewrite <- app_assoc in Hs. auto.
  - injection Hrun as _ <-.
    destruct Hsent as [E|E]; rewrite E.
    + exists []. rewrite app_nil_r. auto.
    + exists [command]. auto.
Qed.

Lemma transmit_sent_connected (fuel : nat) (command : Buffer)
  (st st' : Session R) (proto : Z) res :
  reader st = true -> protocol st = Some proto ->
  transmit fuel command st = Some (res, st') ->
  exists rest, sent st' = sent st ++ command :: rest
               /\ Forall isGetResponse rest.
Proof.
  intros Hr Hp. unfold transmit.
  rewrite (transmitRaw_connected command st proto Hr Hp).
  destruct (fst (reader_transmit (device st) command 1024 proto))
    as [msg|data]; intros Hrun.
  - injection Hrun as _ <-. exists []. auto.
  - apply transmit_loop_sent in Hrun. destruct Hrun as (cmds & Hs & Hall).
    exists cmds. cbn [afterTransmit sent] in Hs.
    rewrite <- app_assoc in Hs. auto.
Qed.

(** C3.  [transmit] sends the command and enters its loop with the
    response.  In the loop, data that ends with a status word
    [61 XX] makes it send GET RESPONSE [00 C0 00 00 XX] and go on with the
    data without that status word followed by the new response (or return
    the failure of that exchange); data that ends with another status
    word, or holds less than two bytes, is returned as it is.  On a
    connected session, a response [first ++ 61 05] followed by a GET
    RESPONSE answered with [five ++ 90 00] gives the single payload
    [first ++ five ++ 90 00], and exactly these two commands are sent. *)
Theorem transmit_continuation :
  (forall fuel command (st : Session R),
     transmit fuel command st
     = match transmitRaw command st with
       | (Failure e, st') => Some (Failure e, st')
       | (Success data, st') => transmit_loop fuel data st'
       end)
  /\ (forall fuel payload sw2 (st : Session R),
     transmit_loop (S fuel) (payload ++ [x61; sw2]) st
     = match transmitRaw (getResponseCommand sw2) st with
       | (Failure e, st') => Some (Failure e, st')
       | (Success more, st') => transmit_loop fuel (payload ++ more) st'
       end)
  /\ (forall fuel payload sw1 sw2 (st : Session R),
        sw1 <> x61 ->
        transmit_loop (S fuel) (payload ++ [sw1; sw2]) st
        = Some (Success (payload ++ [sw1; sw2]), st))
  /\ (forall fuel data (st : Session R),
        (List.length data < 2)%nat ->
        transmit_loop (S fuel) data st = Some (Success data, st))
  /\ (forall fuel command (st : Session R) proto first five dev1 dev2,
        reader st = true -> protocol st = Some proto ->
        reader_transmit (device st) command 1024 proto
        = (inr (first ++ [x61; x05]), dev1) ->
        reader_transmit dev1 (getResponseCommand x05) 1024 proto
        = (inr (five ++ [x90; x00]), dev2) ->
        transmit (S (S fuel)) command st
        = Some (Success (first ++ five ++ [x90; x00]),
                afterTransmit (afterTransmit st dev1 command) dev2
                  (getResponseCommand x05))).
Proof.
  split.
  { intros fuel command st. unfold transmit.
    destruct (transmitRaw command st) as [[data|e] st']; reflexivity. }
  split; [exact transmit_loop_more|].
  split; [exact transmit_loop_terminal|].
  split; [exact transmit_loop_short|].
  intros fuel command st proto first five dev1 dev2 Hr Hp Hfirst Hmore.
  unfold transmit.
  rewrite (transmitRaw_connected command st proto Hr Hp), Hfirst.
  cbn [fst snd]. rewrite transmit_loop_more.
  rewrite (transmitRaw_connected _ _ proto) by assumption.
  cbn [afterTransmit device]. rewrite Hmore. cbn [fst snd].
  rewrite app_assoc. rewrite transmit_loop_terminal by discriminate.
  reflexivity.
Qed.

End TransportProps.

Section PinProps.
Context {R : Type} `{CardReader R} `{Crypto} `{External R}.

Lemma copy_at_0 (src : Buffer) (k : nat) (fill : byte) :
  copy src (alloc k fill) 0 = firstn k (src ++ repeat fill k).
Proof.
  unfold copy, alloc. rewrite repeat_length, Nat.sub_0_r. cbn [firstn app Nat.add].
  destruct (Nat.le_gt_cases (List.length src) k) as [Hle|Hgt].
  - rewrite Nat.min_l by lia. rewrite firstn_all.
    rewrite firstn_app, (firstn_all2 src) by lia. f_equal.
    rewrite firstn_repeat by lia.
    clear Hle. revert k. induction src as [|x src IH]; intros k.
    + cbn. rewrite Nat.sub_0_r. reflexivity.
    + destruct k as [|k]; [reflexivity|]. cbn [List.length skipn repeat].
      rewrite IH. reflexivity.
  - rewrite Nat.min_r by lia.
    rewrite skipn_all2 by (rewrite repeat_length; lia).
    rewrite firstn_app. replace (k - List.length src)%nat with 0%nat by lia.
    cbn [firstn]. reflexivity.
Qed.

Lemma length_fromAscii (pin : string) :
  List.length (fromAscii pin) = String.length pin.
Proof.
  induction pin as [|c pin IH]; [reflexivity|].
  cbn [fromAscii List.length String.length]. rewrite IH. reflexivity.
Qed.

Lemma fromAscii_substring (k : nat) (pin : string) :
  fromAscii (substring 0 k pin) = firstn k (fromAscii pin).
Proof.
  revert pin. induction k as [|k IH]; intros pin.
  - destruct pin; reflexivity.
  - destruct pin as [|c pin]; [reflexivity|].
    cbn [substring fromAscii firstn]. rewrite IH. reflexivity.
Qed.

Lemma verifyPinCommand_spec (pin : string) :
  verifyPinCommand pin
  = verifyHeader ++ firstn 8 (fromAscii pin ++ repeat xff 8).
Proof.
  unfold verifyPinCommand. rewrite copy_at_0. reflexivity.
Qed.

Lemma verifyPinCommand_prefix (pin : string) :
  verifyPinCommand (substring 0 8 pin) = verifyPinCommand pin.
Proof.
  rewrite !verifyPinCommand_spec, fromAscii_substring. f_equal.
  rewrite !firstn_app, firstn_firstn, length_firstn. 
  change (Nat.min 8 8) with 8%nat. f_equal. f_equal. lia.
Qed.

(** C9.  The VERIFY command is the five header bytes and exactly eight
    bytes of PIN data: the first eight bytes of the PIN followed by 0xFF
    filler.  A PIN of more than eight characters is cut to its first
    eight: [verifyPin] on it is [verifyPin] on its eight-character prefix,
    with the same result and the same effects, so no length error exists;
    and on a connected session the command is what is transmitted. *)
Theorem verifyPin_truncates_pin :
  (forall pin,
     verifyPinCommand pin
     = verifyHeader ++ firstn 8 (fromAscii pin ++ repeat xff 8)
     /\ List.length (verifyPinCommand pin) = 13%nat)
  /\ (forall pin,
        (8 < String.length pin)%nat ->
        verifyPinCommand pin = verifyHeader ++ firstn 8 (fromAscii pin))
  /\ (forall fuel pin (st : Session R),
        verifyPin fuel pin st = verifyPin fuel (substring 0 8 pin) st)
  /\ (forall fuel pin (st st' : Session R) proto res,
        reader st = true -> protocol st = Some proto ->
        verifyPin fuel pin st = Some (res, st') ->
        exists rest, sent st' = sent st ++ verifyPinCommand pin :: rest
                     /\ Forall isGetResponse rest).
Proof.
  split.
  { intros pin. split; [apply verifyPinCommand_spec|].
    rewrite verifyPinCommand_spec, length_app, length_firstn, length_app,
      repeat_length.
    cbn [verifyHeader List.length]. lia. }
  split.
  { intros pin Hlong. rewrite verifyPinCommand_spec. f_equal.
    rewrite firstn_app.
    replace (8 - List.length (fromAscii pin))%nat with 0%nat
      by (rewrite length_fromAscii; lia).
    cbn [firstn]. apply app_nil_r. }
  split.
  { intros fuel pin st. unfold verifyPin.
    rewrite verifyPinCommand_prefix. reflexivity. }
  intros fuel pin st st' proto res Hr Hp Hrun.
  unfold verifyPin, bind in Hrun.
  destruct (transmit fuel (verifyPinCommand pin) st) as [[response st1]|] eqn:Htx;
    [|discriminate Hrun].
  destruct (transmit_sent_connected _ _ _ _ _ _ Hr Hp Htx) as (rest & Hs & Hall).
  exists rest. split; [|exact Hall]. rewrite <- Hs.
  destruct response as [data|e].
  - repeat match type of Hrun with
           | context [if ?c then _ else _] => destruct c
           end; unfold ret in Hrun; injection Hrun as _ <-; reflexivity.
  - unfold consoleError, ret in Hrun. injection Hrun as _ <-. reflexivity.
Qed.

(** C5.  Whatever VERIFY response [payload ++ sw1 sw2] the transport
    returns: status word 9000 is success; 63 Cx is the failure "Wrong PIN.
    x attempts remaining." with x the low nibble of the second byte, so 63
    C3 reports 3; 6983 is the failure "PIN is blocked.". *)
Theorem verifyPin_status_words :
  forall fuel pin (st st' : Session R) payload sw1 sw2,
    transmit fuel (verifyPinCommand pin) st
    = Some (Success (payload ++ [sw1; sw2]), st') ->
    (sw1 = x90 -> sw2 = x00 ->
     verifyPin fuel pin st = Some (Success (mkPinData None), st'))
    /\ (forall n, 0 <= n < 16 -> sw1 = x63 -> sw2 = byte_of_Z (0xc0 + n) ->
        verifyPin fuel pin st
        = Some (Failure ("Wrong PIN. " ++ toStr (Num n)
                         ++ " attempts remaining.")%string, st'))
    /\ (sw1 = x63 -> sw2 = xc3 ->
        verifyPin fuel pin st
        = Some (Failure "Wrong PIN. 3 attempts remaining.", st'))
    /\ (sw1 = x69 -> sw2 = x83 ->
        verifyPin fuel pin st = Some (Failure "PIN is blocked.", st')).
Proof.
  intros fuel pin st st' payload sw1 sw2 Htx.
  unfold verifyPin, bind. rewrite Htx, slice_sw.
  split; [intros -> ->; reflexivity|].
  split.
  { intros n Hn -> ->.
    rewrite <- (Z2Nat.id n) by lia.
    assert (Hk : (Z.to_nat n < 16)%nat) by lia.
    revert Hk. generalize (Z.to_nat n) as k. intros k Hk.
    do 16 (destruct k as [|k]; [reflexivity|]). lia. }
  split; [intros -> ->; reflexivity|].
  intros -> ->; reflexivity.
Qed.

(** C4.  When the text given to [signHash] does not decode to exactly 32
    bytes, the result is the failure "Hash must be 32 bytes, got N" and
    the session is left as it was: nothing is transmitted. *)
Theorem signHash_rejects_wrong_length :
  forall fuel hashHex (st : Session R),
    List.length (fromHex (removeFirst "0x" hashHex)) <> 32%nat ->
    signHash fuel hashHex st
    = Some (Failure ("Hash must be 32 bytes, got "
                     ++ toStr (blen (fromHex (removeFirst "0x" hashHex))))%string,
            st).
Proof.
  intros fuel hashHex st Hlen. unfold signHash.
  replace (sne (blen (fromHex (removeFirst "0x" hashHex))) (Num 32)) with true.
  - reflexivity.
  - symmetry. unfold sne, seq, blen. apply negb_true_iff, Z.eqb_neq. lia.
Qed.

End PinProps.

Section KeyProps.
Context {R : Type} `{CardReader R} `{Crypto} `{External R}.

Lemma notOk_9000 : notOk [x90; x00] = false.
Proof. reflexivity. Qed.

Lemma notOk_other (sw1 sw2 : byte) :
  (sw1, sw2) <> (x90, x00) -> notOk [sw1; sw2] = true.
Proof.
  intros Hne. unfold notOk, sne.
  change (at_ [sw1; sw2] (Num 0)) with (Num (u8 sw1)).
  change (at_ [sw1; sw2] (Num 1)) with (Num (u8 sw2)).
  change (Num 144) with (Num (u8 x90)). change (Num 0) with (Num (u8 x00)).
  destruct (seq (Num (u8 sw1)) (Num (u8 x90))) eqn:E1; [|reflexivity].
  destruct (seq (Num (u8 sw2)) (Num (u8 x00))) eqn:E2; [|reflexivity].
  apply seq_u8 in E1, E2. subst. contradiction Hne. reflexivity.
Qed.

Lemma isNoKey_other (sw1 sw2 : byte) :
  (sw1, sw2) <> (x6a, x82) ->
  seq (at_ [sw1; sw2] (Num 0)) (Num 0x6a)
  && seq (at_ [sw1; sw2] (Num 1)) (Num 0x82) = false.
Proof.
  intros Hne.
  change (at_ [sw1; sw2] (Num 0)) with (Num (u8 sw1)).
  change (at_ [sw1; sw2] (Num 1)) with (Num (u8 sw2)).
  change (Num 106) with (Num (u8 x6a)). change (Num 130) with (Num (u8 x82)).
  destruct (seq (Num (u8 sw1)) (Num (u8 x6a))) eqn:E1; [|reflexivity].
  destruct (seq (Num (u8 sw2)) (Num (u8 x82))) eqn:E2; [|reflexivity].
  apply seq_u8 in E1, E2. subst. contradiction Hne. reflexivity.
Qed.

(** C7.  In [readPublicKey], a GET DATA response with status word 6A82
    gives the failure-shaped signal "NO_KEY", and any other status word
    than 9000 gives the error "Read public key failed: SW=" followed by
    the status word in hexadecimal.  [generateP256Key] goes on to
    [generateNewKey] exactly when the read failed with "NO_KEY": a read
    that succeeded or failed with another error is returned as it is, with
    the session as the read left it. *)
Theorem readPublicKey_no_key :
  (forall fuel slot objectId (st st' : Session R) payload,
     getSlotObjectId slot = Some objectId ->
     transmit fuel (getDataCommand objectId) st
     = Some (Success (payload ++ [x6a; x82]), st') ->
     readPublicKey fuel slot st = Some (Failure "NO_KEY", st'))
  /\ (forall fuel slot objectId (st st' : Session R) payload sw1 sw2,
        getSlotObjectId slot = Some objectId ->
        transmit fuel (getDataCommand objectId) st
        = Some (Success (payload ++ [sw1; sw2]), st') ->
        (sw1, sw2) <> (x6a, x82) -> (sw1, sw2) <> (x90, x00) ->
        readPublicKey fuel slot st
        = Some (Failure ("Read public key failed: SW=" ++ toHex [sw1; sw2])%string,
                st'))
  /\ (forall fuel challenge (st st1 : Session R) e,
        readPublicKey fuel PIV_SLOT_AUTHENTICATION st = Some (Failure e, st1) ->
        e <> "NO_KEY"%string ->
        generateP256Key fuel challenge st = Some (Ok (Failure e), st1))
  /\ (forall fuel challenge (st st1 : Session R) pubKey,
        readPublicKey fuel PIV_SLOT_AUTHENTICATION st
        = Some (Success pubKey, st1) ->
        generateP256Key fuel challenge st = Some (Ok (Success pubKey), st1))
  /\ (forall fuel challenge (st st1 : Session R),
        readPublicKey fuel PIV_SLOT_AUTHENTICATION st
        = Some (Failure "NO_KEY", st1) ->
        generateP256Key fuel challenge st
        = match generateNewKey fuel challenge PIV_SLOT_AUTHENTICATION st1 with
          | None => None
          | Some (Failure e, st2) => Some (Ok (Failure e), st2)
          | Some (Success pubKey, st2) =>
              match storeCertificateViaYkman PIV_SLOT_AUTHENTICATION
                      pubKey (released st2) with
              | None => None
              | Some (Throw msg, st3) => Some (Throw msg, st3)
              | Some (Ok (Success _), st3) =>
                  Some (Ok (Success pubKey), connect st3)
              | Some (Ok (Failure e), st3) =>
                  Some (Ok (Success pubKey),
                        logged (connect st3)
                          ("Failed to store certificate: " ++ e)%string)
              end
          end).
Proof.
  split.
  { intros fuel slot objectId st st' payload Hslot Htx.
    unfold readPublicKey, bind. rewrite Hslot. cbv zeta. rewrite Htx, slice_sw.
    reflexivity. }
  split.
  { intros fuel slot objectId st st' payload sw1 sw2 Hslot Htx Hnokey Hok.
    unfold readPublicKey, bind. rewrite Hslot. cbv zeta. rewrite Htx, slice_sw.
    rewrite isNoKey_other by exact Hnokey.
    rewrite notOk_other by exact Hok. reflexivity. }
  split.
  { intros fuel challenge st st1 e Hread Hne.
    unfold generateP256Key, bind. rewrite Hread.
    replace (String.eqb e "NO_KEY") with false
      by (symmetry; apply String.eqb_neq; exact Hne).
    reflexivity. }
  split.
  { intros fuel challenge st st1 pubKey Hread.
    unfold generateP256Key, bind. rewrite Hread. reflexivity. }
  intros fuel challenge st st1 Hread.
  unfold generateP256Key, bind. rewrite Hread.
  change (String.eqb "NO_KEY" "NO_KEY") with true. cbv beta iota.
  destruct (generateNewKey fuel challenge PIV_SLOT_AUTHENTICATION st1)
    as [[[pubKey|e] st2]|]; [|reflexivity|reflexivity].
  unfold disconnectForYkman.
  destruct (storeCertificateViaYkman PIV_SLOT_AUTHENTICATION pubKey
              (released st2)) as [[[[u|e]|msg] st3]|]; reflexivity.
Qed.


End KeyProps.

Section HandshakeProps.
Context {R : Type} `{CardReader R} `{Crypto} `{External R}.

Lemma notGenerate_getResponse (c : Buffer) : isGetResponse c -> notGenerate c.
Proof. intros [le ->] slot. discriminate. Qed.

Lemma notGenerate_witnessReq : notGenerate witnessReqCmd.
Proof. intros slot. discriminate. Qed.

Lemma notGenerate_authCmd (w c : Buffer) : notGenerate (authCmd w c).
Proof. intros slot. discriminate. Qed.

Lemma transmit_notGenerate (fuel : nat) (command : Buffer)
  (st st' : Session R) res :
  notGenerate command ->
  transmit fuel command st = Some (res, st') ->
  exists cmds, sent st' = sent st ++ cmds /\ Forall notGenerate cmds.
Proof.
  intros Hcmd Hrun.
  destruct (transmit_sent _ _ _ _ _ Hrun) as (cmds & Hs & Hall).
  exists cmds. split; [exact Hs|].
  eapply Forall_impl; [|exact Hall].
  intros c [-> | Hget]; [exact Hcmd | apply notGenerate_getResponse, Hget].
Qed.

Lemma authenticateManagementKey_sent (fuel : nat) (challenge : Buffer)
  (st st' : Session R) res :
  authenticateManagementKey fuel challenge st = Some (res, st') ->
  exists cmds, sent st' = sent st ++ cmds /\ Forall notGenerate cmds.
Proof.
  unfold authenticateManagementKey, bind. intros Hrun.
  destruct (transmit fuel witnessReqCmd st) as [[witnessResp st1]|] eqn:Htx1;
    [|discriminate Hrun].
  destruct (transmit_notGenerate _ _ _ _ _ notGenerate_witnessReq Htx1)
    as (cmds1 & Hs1 & Hall1).
  assert (Hdone : forall r, ret r st1 = Some (res, st') ->
            exists cmds, sent st' = sent st ++ cmds /\ Forall notGenerate cmds).
  { intros r Hret. injection Hret as _ <-. exists cmds1. auto. }
  destruct witnessResp as [data|e]; [|exact (Hdone _ Hrun)].
  destruct (notOk _); [exact (Hdone _ Hrun)|].
  destruct (parseTlvValue _ 128) as [witness|]; [|exact (Hdone _ Hrun)].
  destruct (sne (blen witness) (Num 16)); [exact (Hdone _ Hrun)|].
  destruct (transmit fuel (authCmd _ challenge) st1)
    as [[authResp st2]|] eqn:Htx2; [|discriminate Hrun].
  destruct (transmit_notGenerate _ _ _ _ _ (notGenerate_authCmd _ _) Htx2)
    as (cmds2 & Hs2 & Hall2).
  assert (Hdone2 : forall r, ret r st2 = Some (res, st') ->
            exists cmds, sent st' = sent st ++ cmds /\ Forall notGenerate cmds).
  { intros r Hret. injection Hret as _ <-. exists (cmds1 ++ cmds2).
    rewrite Hs2, Hs1, app_assoc. split; [reflexivity|].
    apply Forall_app. auto. }
  destruct authResp as [data2|e]; [|exact (Hdone2 _ Hrun)].
  destruct (notOk _); [exact (Hdone2 _ Hrun)|].
  destruct (parseTlvValue _ 130) as [cardResponse|]; [|exact (Hdone2 _ Hrun)].
  destruct (sne (blen cardResponse) (Num 16)); [exact (Hdone2 _ Hrun)|].
  destruct (negb _); exact (Hdone2 _ Hrun).
Qed.

(** C2.  When both exchanges of the handshake end with 9000, the witness
    and the card response are 16 bytes long, and the card response differs
    from the local challenge encrypted with AES-192-ECB under the
    management key, [authenticateManagementKey] returns the failure "Card
    response verification failed"; it returns success only when the card
    response equals that encryption.  When it fails, [generateNewKey]
    returns the same failure with the session as the handshake left it,
    and no GENERATE ASYMMETRIC KEY PAIR command is among the commands
    sent. *)
Theorem authenticateManagementKey_mismatch :
  (forall fuel challenge (st st1 st2 : Session R)
          payload1 payload2 witness cardResponse,
     transmit fuel witnessReqCmd st
     = Some (Success (payload1 ++ [x90; x00]), st1) ->
     parseTlvValue payload1 0x80 = Some witness ->
     List.length witness = 16%nat ->
     transmit fuel (authCmd (aes192ecb_decrypt mgmtKey witness) challenge) st1
     = Some (Success (payload2 ++ [x90; x00]), st2) ->
     parseTlvValue payload2 0x82 = Some cardResponse ->
     List.length cardResponse = 16%nat ->
     (cardResponse <> aes192ecb_encrypt mgmtKey challenge ->
      authenticateManagementKey fuel challenge st
      = Some (Failure "Card response verification failed", st2))
     /\ (authenticateManagementKey fuel challenge st = Some (Success tt, st2)
         <-> cardResponse = aes192ecb_encrypt mgmtKey challenge))
  /\ (forall fuel challenge slot (st st' : Session R) e,
        authenticateManagementKey fuel challenge st = Some (Failure e, st') ->
        generateNewKey fuel challenge slot st = Some (Failure e, st')
        /\ exists cmds,
             sent st' = sent st ++ cmds
             /\ Forall (fun c => forall slot', c <> generateKeyCommand slot')
                  cmds).
Proof.
  split.
  - intros fuel challenge st st1 st2 payload1 payload2 witness cardResponse
      Htx1 Hw Hwlen Htx2 Hc Hclen.
    assert (Hrun : authenticateManagementKey fuel challenge st
                   = if negb (equals cardResponse
                                (aes192ecb_encrypt mgmtKey challenge))
                     then Some (Failure "Card response verification failed", st2)
                     else Some (Success tt, st2)).
    { unfold authenticateManagementKey, bind.
      rewrite Htx1, slice_sw, notOk_9000, slice_payload, Hw.
      replace (sne (blen witness) (Num 16)) with false
        by (unfold sne, seq, blen; rewrite Hwlen; reflexivity).
      rewrite Htx2, slice_sw, notOk_9000, slice_payload, Hc.
      replace (sne (blen cardResponse) (Num 16)) with false
        by (unfold sne, seq, blen; rewrite Hclen; reflexivity).
      destruct (negb _); reflexivity. }
    rewrite Hrun.
    destruct (equals cardResponse (aes192ecb_encrypt mgmtKey challenge)) eqn:E.
    + apply equals_iff in E. cbn [negb]. split.
      * intros Hne. contradiction.
      * split; [intros _; exact E | reflexivity].
    + cbn [negb]. split; [reflexivity|]. split; [discriminate|].
      intros Heq. apply equals_iff in Heq. congruence.
  - intros fuel challenge slot st st' e Hauth. split.
    + unfold generateNewKey, bind. rewrite Hauth. reflexivity.
    + exact (authenticateManagementKey_sent _ _ _ _ _ Hauth).
Qed.

End HandshakeProps.

Section CertificateProps.

Ltac explode_list xy H :=
  repeat (destruct xy as [|? xy]; [discriminate H|]);
  destruct xy; [|discriminate H].

(** C6.  For every public key record whose [publicKeyHex] decodes to an
    uncompressed point [04 || x || y] of 65 bytes, the OID scan of
    [parsePublicKeyFromCert] on [buildSubjectPublicKeyInfo] of it stops at
    index 4, the BIT STRING search after it returns the point, and so the
    parser returns, by its primary strategy, the hexadecimal text of the
    point and of its halves, which decode to the original 64 bytes. *)
Theorem buildSubjectPublicKeyInfo_round_trip :
  forall publicKey xy,
    List.length xy = 64%nat ->
    fromHex (publicKeyHex publicKey) = x04 :: xy ->
    let cert := buildSubjectPublicKeyInfo publicKey in
    let found := {| publicKeyHex := toHex (x04 :: xy);
                    x := toHex (firstn 32 xy);
                    y := toHex (skipn 32 xy) |} in
    findEcOid cert = 4
    /\ findBitString cert 4 = Some found
    /\ parsePublicKeyFromCert cert = Some found
    /\ fromHex (x found) ++ fromHex (y found) = xy.
Proof.
  intros publicKey xy Hlen Hhex cert found.
  assert (Hback : fromHex (x found) ++ fromHex (y found) = xy).
  { unfold found. cbn [x y]. rewrite !fromHex_toHex. apply firstn_skipn. }
  assert (Hmain : findEcOid cert = 4
                  /\ findBitString cert 4 = Some found
                  /\ parsePublicKeyFromCert cert = Some found).
  { clear Hback. subst cert found. unfold buildSubjectPublicKeyInfo.
    rewrite Hhex. clear Hhex.
    explode_list xy Hlen. clear Hlen.
    split; [lazy -[toHex]; reflexivity|].
    split; lazy -[toHex]; reflexivity. }
  destruct Hmain as (Hoid & Hbits & Hparse).
  split; [exact Hoid|]. split; [exact Hbits|]. split; [exact Hparse|].
  exact Hback.
Qed.

End CertificateProps.

Section ParserRobustness.

(** C8, evaluated where the code departs from it.  A signature response
    whose [s] INTEGER announces 32 bytes and holds four is not rejected:
    the four bytes are left-padded to 32.  A certificate blob of 77 bytes
    that ends one byte before the end of the 65-byte point in a long-form
    BIT STRING is not rejected, by the primary search or by the fallback
    search: a 31-byte [y] comes back.  The length decoder returns 256 on
    [82 01] and [undefined] on [81] without throwing.  The sibling paths do
    reject a point that is one byte short: the short-form BIT STRING in
    the certificate parser and the key-generation response parser. *)
Theorem parsers_accept_truncated_blobs :
  parseSignatureResponse truncatedSignature
  = Some {| signatureDer := "30250201010220aabbccdd";
            r := toHex (repeat x00 31 ++ [x01]);
            s := toHex (repeat x00 28 ++ [xaa; xbb; xcc; xdd]) |}
  /\ List.length truncatedCertificate = 77%nat
  /\ parsePublicKeyFromCert truncatedCertificate
     = Some {| publicKeyHex := toHex (x04 :: repeat xaa 63);
               x := toHex (repeat xaa 32);
               y := toHex (repeat xaa 31) |}
  /\ parsePublicKeyFallback truncatedCertificate
     = Some {| publicKeyHex := toHex (x04 :: repeat xaa 63);
               x := toHex (repeat xaa 32);
               y := toHex (repeat xaa 31) |}
  /\ parseLength [x82; x01] (Num 0) = Ok (Num 256)
  /\ parseLength [x81] (Num 0) = Ok Undefined
  /\ parsePublicKeyFromCert
       (ecPubKeyOid ++ [x03; x42; x00; x04] ++ repeat xaa 63) = None
  /\ parsePublicKeyResponse
       ([x7f; x49; x43; x86; x41; x04] ++ repeat xaa 63) = None.
Proof.
  repeat split; vm_compute; reflexivity.
Qed.

End ParserRobustness.

Section Examples.
#[local] Existing Instance scriptedReader.
#[local] Existing Instance toyCrypto.
#[local] Existing Instance failingYkman.

Lemma transmit_continuation_witness :
  reader (plugged continuationScript) = true
  /\ protocol (plugged continuationScript) = Some 2
  /\ reader_transmit (device (plugged continuationScript)) readCmd 1024 2
     = (inr (firstPart ++ [x61; x05]), [ok fiveMore])
  /\ reader_transmit [ok fiveMore] (getResponseCommand x05) 1024 2
     = (inr (fiveMore ++ [x90; x00]), [])
  /\ transmit 2 readCmd (plugged continuationScript)
     = Some (Success (firstPart ++ fiveMore ++ [x90; x00]),
             sessionAt [] [readCmd; getResponseCommand x05]).
Proof.
  split; [reflexivity|]. split; [reflexivity|].
  split; [reflexivity|]. split; [reflexivity|].
  exact (proj2 (proj2 (proj2 (proj2 transmit_continuation))) 0%nat readCmd
           (plugged continuationScript) 2 firstPart fiveMore [ok fiveMore] []
           eq_refl eq_refl eq_refl eq_refl).
Defined.

Lemma authenticateManagementKey_mismatch_witness :
  (transmit 1 witnessReqCmd
     (plugged [witnessAnswer; challengeAnswer (repeat x00 16)])
   = Some (Success (([x7c; x12; x80; x10] ++ someWitness) ++ [x90; x00]),
           sessionAt [challengeAnswer (repeat x00 16)] [witnessReqCmd])
   /\ parseTlvValue ([x7c; x12; x80; x10] ++ someWitness) 0x80
      = Some someWitness
   /\ List.length someWitness = 16%nat
   /\ transmit 1 (authCmd (aes192ecb_decrypt mgmtKey someWitness) someChallenge)
        (sessionAt [challengeAnswer (repeat x00 16)] [witnessReqCmd])
      = Some (Success (([x7c; x12; x82; x10] ++ repeat x00 16) ++ [x90; x00]),
              sessionAt [] [witnessReqCmd; answerCmd])
   /\ parseTlvValue ([x7c; x12; x82; x10] ++ repeat x00 16) 0x82
      = Some (repeat x00 16)
   /\ List.length (repeat x00 16) = 16%nat
   /\ repeat x00 16 <> aes192ecb_encrypt mgmtKey someChallenge
   /\ authenticateManagementKey 1 someChallenge
        (plugged [witnessAnswer; challengeAnswer (repeat x00 16)])
      = Some (Failure "Card response verification failed",
              sessionAt [] [witnessReqCmd; answerCmd]))
  /\ (generateNewKey 1 someChallenge PIV_SLOT_AUTHENTICATION
        (plugged [witnessAnswer; challengeAnswer (repeat x00 16)])
      = Some (Failure "Card response verification failed",
              sessionAt [] [witnessReqCmd; answerCmd])
      /\ exists cmds,
           sent (sessionAt [] [witnessReqCmd; answerCmd])
           = sent (plugged [witnessAnswer; challengeAnswer (repeat x00 16)])
             ++ cmds
           /\ Forall (fun c => forall slot', c <> generateKeyCommand slot') cmds).
Proof.
  assert (Hne : repeat x00 16 <> aes192ecb_encrypt mgmtKey someChallenge)
    by (vm_compute; discriminate).
  pose proof (proj1 (proj1 authenticateManagementKey_mismatch 1%nat someChallenge
                (plugged [witnessAnswer; challengeAnswer (repeat x00 16)])
                (sessionAt [challengeAnswer (repeat x00 16)] [witnessReqCmd])
                (sessionAt [] [witnessReqCmd; answerCmd])
                ([x7c; x12; x80; x10] ++ someWitness)
                ([x7c; x12; x82; x10] ++ repeat x00 16)
                someWitness (repeat x00 16)
                eq_refl eq_refl eq_refl eq_refl eq_refl eq_refl) Hne) as Hfail.
  split.
  - repeat (split; [reflexivity|]). split; [exact Hne | exact Hfail].
  - exact (proj2 authenticateManagementKey_mismatch 1%nat someChallenge
             PIV_SLOT_AUTHENTICATION _ _ _ Hfail).
Defined.

Lemma signHash_rejects_wrong_length_witness :
  List.length (fromHex (removeFirst "0x" "0xabcd")) <> 32%nat
  /\ signHash 1 "0xabcd" (plugged [])
     = Some (Failure "Hash must be 32 bytes, got 2", plugged []).
Proof.
  assert (Hlen : List.length (fromHex (removeFirst "0x" "0xabcd")) <> 32%nat)
    by (vm_compute; discriminate).
  split; [exact Hlen|].
  exact (signHash_rejects_wrong_length 1%nat "0xabcd"%string (plugged []) Hlen).
Defined.

Lemma verifyPin_status_words_witness :
  transmit 1 (verifyPinCommand "123456") (plugged [inr [x63; xc3]])
  = Some (Success ([] ++ [x63; xc3]),
          sessionAt [] [verifyPinCommand "123456"])
  /\ verifyPin 1 "123456" (plugged [inr [x63; xc3]])
     = Some (Failure "Wrong PIN. 3 attempts remaining.",
             sessionAt [] [verifyPinCommand "123456"]).
Proof.
  split; [reflexivity|].
  exact (proj1 (proj2 (proj2 (verifyPin_status_words 1%nat "123456"%string
           (plugged [inr [x63; xc3]]) _ [] x63 xc3 eq_refl)))
           eq_refl eq_refl).
Defined.

Lemma verifyPin_truncates_pin_witness :
  ((8 < String.length "1234567890"%string)%nat
   /\ verifyPinCommand "1234567890"
      = verifyHeader ++ firstn 8 (fromAscii "1234567890"))
  /\ (reader (plugged [ok []]) = true
      /\ protocol (plugged [ok []]) = Some 2
      /\ verifyPin 1 "1234567890" (plugged [ok []])
         = Some (Success (mkPinData None),
                 sessionAt [] [verifyPinCommand "12345678"])
      /\ exists rest,
           sent (sessionAt [] [verifyPinCommand "12345678"])
           = sent (plugged [ok []]) ++ verifyPinCommand "1234567890" :: rest
           /\ Forall isGetResponse rest).
Proof.
  assert (Hlong : (8 < String.length "1234567890"%string)%nat) by (cbn; lia).
  split.
  - split; [exact Hlong|].
    exact (proj1 (proj2 verifyPin_truncates_pin) "1234567890"%string Hlong).
  - split; [reflexivity|]. split; [reflexivity|]. split; [reflexivity|].
    exact (proj2 (proj2 (proj2 verifyPin_truncates_pin)) 1%nat
             "1234567890"%string
             (plugged [ok []]) _ 2 _ eq_refl eq_refl eq_refl).
Defined.

Lemma buildSubjectPublicKeyInfo_round_trip_witness :
  List.length (repeat xab 32 ++ repeat xcd 32) = 64%nat
  /\ fromHex (publicKeyHex someKey) = x04 :: repeat xab 32 ++ repeat xcd 32
  /\ findEcOid (buildSubjectPublicKeyInfo someKey) = 4
  /\ findBitString (buildSubjectPublicKeyInfo someKey) 4
     = Some {| publicKeyHex := toHex (x04 :: repeat xab 32 ++ repeat xcd 32);
               x := toHex (firstn 32 (repeat xab 32 ++ repeat xcd 32));
               y := toHex (skipn 32 (repeat xab 32 ++ repeat xcd 32)) |}
  /\ parsePublicKeyFromCert (buildSubjectPublicKeyInfo someKey)
     = Some {| publicKeyHex := toHex (x04 :: repeat xab 32 ++ repeat xcd 32);
               x := toHex (firstn 32 (repeat xab 32 ++ repeat xcd 32));
               y := toHex (skipn 32 (repeat xab 32 ++ repeat xcd 32)) |}
  /\ fromHex (toHex (firstn 32 (repeat xab 32 ++ repeat xcd 32)))
     ++ fromHex (toHex (skipn 32 (repeat xab 32 ++ repeat xcd 32)))
     = repeat xab 32 ++ repeat xcd 32.
Proof.
  assert (Hhex : fromHex (publicKeyHex someKey)
                 = x04 :: repeat xab 32 ++ repeat xcd 32)
    by (vm_compute; reflexivity).
  split; [reflexivity|]. split; [exact Hhex|].
  exact (buildSubjectPublicKeyInfo_round_trip someKey
           (repeat xab 32 ++ repeat xcd 32) eq_refl Hhex).
Defined.

Lemma readPublicKey_no_key_witness :
  getSlotObjectId PIV_SLOT_AUTHENTICATION = Some objectId9a
  /\ transmit 1 (getDataCommand objectId9a) (plugged [noKeyAnswer])
     = Some (Success ([] ++ [x6a; x82]), sessionAt [] [readCmd])
  /\ readPublicKey 1 PIV_SLOT_AUTHENTICATION (plugged [noKeyAnswer])
     = Some (Failure "NO_KEY", sessionAt [] [readCmd]).
Proof.
  split; [reflexivity|]. split; [reflexivity|].
  exact (proj1 readPublicKey_no_key 1%nat PIV_SLOT_AUTHENTICATION objectId9a
           (plugged [noKeyAnswer]) _ [] eq_refl eq_refl).
Defined.


End Examples.

(* ================================================================== *)
(** ** Further properties of the codec *)
(* ================================================================== *)

Section LengthCodec.

Lemma lor_shiftl_byte (h l : Z) :
  0 <= h -> 0 <= l < 256 -> Z.lor (Z.shiftl h 8) l = h * 256 + l.
Proof.
  intros Hh Hl.
  assert (Hland : Z.land (Z.shiftl h 8) l = 0).
  { apply Z.bits_inj'. intros n Hn. rewrite Z.land_spec, Z.bits_0.
    destruct (Z.lt_ge_cases n 8) as [Hlow|Hhigh].
    - rewrite Z.shiftl_spec_low by lia. reflexivity.
    - replace (Z.testbit l n) with false; [apply andb_false_r|].
      symmetry. destruct (Z.eq_dec l 0) as [->|Hnz]; [apply Z.bits_0|].
      apply Z.bits_above_log2; [lia|].
      apply Z.lt_le_trans with 8; [|lia].
      apply Z.log2_lt_pow2; lia. }
  pose proof (Z.add_lor_land (Z.shiftl h 8) l) as Hadd.
  rewrite Hland in Hadd. rewrite Z.shiftl_mul_pow2 in Hadd |- * by lia.
  change (2 ^ 8) with 256 in Hadd |- *. lia.
Qed.

Lemma at_head (v : byte) (rest : Buffer) :
  at_ (v :: rest) (Num 0) = Num (u8 v).
Proof. exact (at_nth (v :: rest) 0 v eq_refl). Qed.

Lemma at_second (v w : byte) (rest : Buffer) :
  at_ (v :: w :: rest) (Num 1) = Num (u8 w).
Proof. exact (at_nth (v :: w :: rest) 1 w eq_refl). Qed.

Lemma at_third (v w u : byte) (rest : Buffer) :
  at_ (v :: w :: u :: rest) (Num 2) = Num (u8 u).
Proof. exact (at_nth (v :: w :: u :: rest) 2 u eq_refl). Qed.

Lemma u8_byte (k : Z) : 0 <= k < 256 -> u8 (byte_of_Z k) = k.
Proof. intros Hk. rewrite u8_byte_of_Z. apply Z.mod_small. lia. Qed.

Lemma encodeLength_cases (len : Z) :
  0 <= len < 65536 ->
  (len < 128 /\ encodeLength len = [byte_of_Z len])
  \/ (128 <= len < 256 /\ encodeLength len = [x81; byte_of_Z len])
  \/ (256 <= len
      /\ encodeLength len
         = [x82; byte_of_Z (len / 256); byte_of_Z (len mod 256)]).
Proof.
  intros Hlen. unfold encodeLength.
  destruct (len <? 128) eqn:E1; [left; split; [lia | reflexivity]|].
  destruct (len <? 256) eqn:E2; [right; left; split; [lia | reflexivity]|].
  right; right. split; [lia|].
  assert (Hh : 0 <= len / 256 < 256).
  { split; [apply Z.div_pos; lia | apply Z.div_lt_upper_bound; lia]. }
  assert (Hm : 0 <= (len / 256) mod 256 < 256) by (apply Z.mod_pos_bound; lia).
  assert (Hl : 0 <= len mod 256 < 256) by (apply Z.mod_pos_bound; lia).
  unfold band, shr. rewrite (toInt32_small len) by lia.
  change (toInt32 (Num 255)) with (Z.ones 8).
  rewrite Z.shiftr_div_pow2 by lia. change (2 ^ 8) with 256.
  rewrite (toInt32_small (len / 256)) by lia.
  rewrite !Z.land_ones by lia. change (2 ^ 8) with 256.
  rewrite (toInt32_small ((len / 256) mod 256)) by lia.
  rewrite (toInt32_small (len mod 256)) by lia.
  rewrite (Z.mod_small (len / 256)) by lia. reflexivity.
Qed.

(** X1.  A length below 65536 written by [encodeLength] in front of any
    bytes is read back by [parseLength], and [parseLengthBytes] gives the
    number of bytes [encodeLength] wrote. *)
Theorem encodeLength_parseLength :
  forall len rest,
    0 <= len < 65536 ->
    parseLength (encodeLength len ++ rest) (Num 0) = Ok (Num len)
    /\ parseLengthBytes (encodeLength len ++ rest) (Num 0)
       = Ok (Num (Z.of_nat (List.length (encodeLength len)))).
Proof.
  intros len rest Hlen. unfold parseLength, parseLengthBytes.
  destruct (encodeLength_cases len Hlen)
    as [[H1 ->] | [[H2 ->] | [H3 ->]]]; cbn [app].
  - rewrite at_head, u8_byte by lia. unfold le.
    replace (len <=? 127) with true by (symmetry; apply Z.leb_le; lia).
    split; reflexivity.
  - rewrite at_head. change (le (Num (u8 x81)) (Num 127)) with false.
    change (seq (Num (u8 x81)) (Num 129)) with true. cbv iota.
    cbn [add]. rewrite at_second, u8_byte by lia. split; reflexivity.
  - rewrite at_head. change (le (Num (u8 x82)) (Num 127)) with false.
    change (seq (Num (u8 x82)) (Num 129)) with false.
    change (seq (Num (u8 x82)) (Num 130)) with true. cbv iota.
    cbn [add]. rewrite at_second, at_third.
    assert (Hh : 0 <= len / 256 < 256).
    { split; [apply Z.div_pos; lia | apply Z.div_lt_upper_bound; lia]. }
    assert (Hl : 0 <= len mod 256 < 256) by (apply Z.mod_pos_bound; lia).
    rewrite !u8_byte by lia. split; [|reflexivity].
    unfold bor, shl. rewrite (toInt32_small (len / 256)) by lia.
    assert (Hsh : Z.shiftl (len / 256) 8 = len / 256 * 256)
      by (rewrite Z.shiftl_mul_pow2 by lia; reflexivity).
    rewrite !toInt32_small; rewrite ?toInt32_small; try lia.
    rewrite lor_shiftl_byte by lia.
    pose proof (Z.div_mod len 256). f_equal. f_equal. lia.
Qed.

Lemma encodeLength_parseLength_witness :
  0 <= 300 < 65536
  /\ parseLength (encodeLength 300 ++ [xaa]) (Num 0) = Ok (Num 300)
  /\ parseLengthBytes (encodeLength 300 ++ [xaa]) (Num 0)
     = Ok (Num (Z.of_nat (List.length (encodeLength 300)))).
Proof.
  assert (Hr : 0 <= 300 < 65536) by lia.
  split; [exact Hr|]. exact (encodeLength_parseLength 300 [xaa] Hr).
Defined.

End LengthCodec.

Section KeyResponse.

Lemma slice_segment (b : Buffer) (s e : jsval) :
  exists pre post, b = pre ++ slice b s e ++ post.
Proof.
  unfold slice.
  set (m := Z.to_nat (adjustOffset s (Z.of_nat (List.length b)))).
  set (n := Z.to_nat _).
  exists (firstn m b), (skipn n (skipn m b)).
  rewrite firstn_skipn, firstn_skipn. reflexivity.
Qed.

Lemma blen_65 (b : Buffer) :
  sne (blen b) (Num 65) = false -> List.length b = 65%nat.
Proof.
  unfold sne, seq, blen. intros E. apply negb_false_iff, Z.eqb_eq in E. lia.
Qed.

Lemma at_head_04 (b : Buffer) :
  sne (at_ b (Num 0)) (Num 4) = false -> exists rest, b = x04 :: rest.
Proof.
  intros E. destruct b as [|v rest].
  - discriminate E.
  - rewrite at_head in E. unfold sne in E. apply negb_false_iff in E.
    change (Num 4) with (Num (u8 x04)) in E. apply seq_u8 in E. subst v.
    exists rest. reflexivity.
Qed.

Ltac walk H :=
  repeat match type of H with
         | context [bindExc ?m _] =>
             destruct m eqn:?; cbn [bindExc] in H; [|discriminate H]
         | context [if ?c then _ else _] =>
             destruct c eqn:?; [discriminate H|]
         end.

(** X2.  A key that [parsePublicKeyResponse] returns is always an
    uncompressed point taken as one piece from the response: 65 bytes that
    start with 04, given in hexadecimal, with [x] and [y] the hexadecimal
    text of its two 32-byte halves. *)
Theorem parsePublicKeyResponse_sound :
  forall response pubKey,
    parsePublicKeyResponse response = Some pubKey ->
    exists pre xy post,
      response = pre ++ (x04 :: xy) ++ post
      /\ List.length xy = 64%nat
      /\ publicKeyHex pubKey = toHex (x04 :: xy)
      /\ x pubKey = toHex (firstn 32 xy)
      /\ y pubKey = toHex (skipn 32 xy)
      /\ fromHex (x pubKey) ++ fromHex (y pubKey) = xy.
Proof.
  intros response pubKey Hparse.
  unfold parsePublicKeyResponse, tryOrNull in Hparse.
  match type of Hparse with
  | match ?body with _ => _ end = _ => destruct body as [res|msg] eqn:Hbody
  end; [|discriminate Hparse].
  subst res. walk Hbody.
  match type of Hbody with
  | context [slice response ?s ?e] =>
      destruct (slice_segment response s e) as (pre & post & Hseg);
      set (key := slice response s e) in *
  end.
  match goal with
  | E : (sne (blen key) (Num 65) || _) = false |- _ =>
      apply orb_false_iff in E; destruct E as [Hlen Hhead]
  end.
  apply blen_65 in Hlen. apply at_head_04 in Hhead.
  destruct Hhead as [xy Hkey]. clearbody key. subst key.
  cbn [List.length] in Hlen.
  injection Hbody as <-. cbn [publicKeyHex x y].
  assert (Hx : slice (x04 :: xy) (Num 1) (Num 33) = firstn 32 xy).
  { rewrite slice_nonneg by lia. reflexivity. }
  assert (Hy : slice (x04 :: xy) (Num 33) (Num 65) = skipn 32 xy).
  { rewrite slice_nonneg by lia.
    change (skipn (Z.to_nat 33) (x04 :: xy)) with (skipn 32 xy).
    apply firstn_all2. rewrite length_skipn. lia. }
  rewrite Hx, Hy.
  exists pre, xy, post. split; [exact Hseg|]. split; [lia|].
  split; [reflexivity|]. split; [reflexivity|]. split; [reflexivity|].
  rewrite !fromHex_toHex. apply firstn_skipn.
Qed.

Ltac explode xy H :=
  repeat (destruct xy as [|? xy]; [discriminate H|]);
  destruct xy; [|discriminate H].

(** X3.  The response of GENERATE ASYMMETRIC KEY PAIR for P-256, [7F 49
    43 86 41] followed by the point [04 || x || y], is parsed to that
    point, whatever the 64 bytes of [x || y] are. *)
Theorem parsePublicKeyResponse_round_trip :
  forall xy,
    List.length xy = 64%nat ->
    parsePublicKeyResponse ([x7f; x49; x43; x86; x41; x04] ++ xy)
    = Some {| publicKeyHex := toHex (x04 :: xy);
              x := toHex (firstn 32 xy);
              y := toHex (skipn 32 xy) |}.
Proof.
  intros xy Hlen. explode xy Hlen. lazy -[toHex]. reflexivity.
Qed.

Lemma parsePublicKeyResponse_sound_witness :
  parsePublicKeyResponse
    ([x7f; x49; x43; x86; x41; x04] ++ repeat xab 32 ++ repeat xcd 32)
  = Some someKey
  /\ exists pre xy post,
       [x7f; x49; x43; x86; x41; x04] ++ repeat xab 32 ++ repeat xcd 32
       = pre ++ (x04 :: xy) ++ post
       /\ List.length xy = 64%nat
       /\ publicKeyHex someKey = toHex (x04 :: xy)
       /\ x someKey = toHex (firstn 32 xy)
       /\ y someKey = toHex (skipn 32 xy)
       /\ fromHex (x someKey) ++ fromHex (y someKey) = xy.
Proof.
  assert (Hparse : parsePublicKeyResponse
                     ([x7f; x49; x43; x86; x41; x04]
                      ++ repeat xab 32 ++ repeat xcd 32) = Some someKey)
    by (vm_compute; reflexivity).
  split; [exact Hparse|].
  exact (parsePublicKeyResponse_sound _ someKey Hparse).
Defined.

Lemma parsePublicKeyResponse_round_trip_witness :
  List.length (repeat xab 32 ++ repeat xcd 32) = 64%nat
  /\ parsePublicKeyResponse
       ([x7f; x49; x43; x86; x41; x04] ++ repeat xab 32 ++ repeat xcd 32)
     = Some {| publicKeyHex := toHex (x04 :: repeat xab 32 ++ repeat xcd 32);
               x := toHex (firstn 32 (repeat xab 32 ++ repeat xcd 32));
               y := toHex (skipn 32 (repeat xab 32 ++ repeat xcd 32)) |}.
Proof.
  split; [reflexivity|].
  exact (parsePublicKeyResponse_round_trip
           (repeat xab 32 ++ repeat xcd 32) eq_refl).
Defined.

End KeyResponse.

Section Certificates.

Ltac explode xy H :=
  repeat (destruct xy as [|? xy]; [discriminate H|]);
  destruct xy; [|discriminate H].

(** X4.  The certificate that [buildMinimalCertificate] builds around a
    point [04 || x || y], bare or wrapped by [buildCertificateObject] as
    the card stores it, gives the point back through
    [parsePublicKeyFromCert], whatever the 64 bytes are: no byte of the
    fixed fields in front of the key is taken for the key. *)
Theorem buildMinimalCertificate_round_trip :
  forall publicKey xy,
    List.length xy = 64%nat ->
    fromHex (publicKeyHex publicKey) = x04 :: xy ->
    let found := {| publicKeyHex := toHex (x04 :: xy);
                    x := toHex (firstn 32 xy);
                    y := toHex (skipn 32 xy) |} in
    parsePublicKeyFromCert (buildMinimalCertificate publicKey) = Some found
    /\ parsePublicKeyFromCert
         (buildCertificateObject (buildMinimalCertificate publicKey))
       = Some found
    /\ List.length (buildMinimalCertificate publicKey) = 189%nat.
Proof.
  intros publicKey xy Hlen Hhex found. subst found.
  unfold buildMinimalCertificate. rewrite Hhex. clear Hhex.
  explode xy Hlen. clear Hlen.
  split; [lazy -[toHex]; reflexivity|].
  split; [lazy -[toHex]; reflexivity|].
  reflexivity.
Qed.

Lemma buildMinimalCertificate_round_trip_witness :
  List.length (repeat xab 32 ++ repeat xcd 32) = 64%nat
  /\ fromHex (publicKeyHex someKey) = x04 :: repeat xab 32 ++ repeat xcd 32
  /\ parsePublicKeyFromCert (buildMinimalCertificate someKey)
     = Some {| publicKeyHex := toHex (x04 :: repeat xab 32 ++ repeat xcd 32);
               x := toHex (firstn 32 (repeat xab 32 ++ repeat xcd 32));
               y := toHex (skipn 32 (repeat xab 32 ++ repeat xcd 32)) |}
  /\ parsePublicKeyFromCert
       (buildCertificateObject (buildMinimalCertificate someKey))
     = Some {| publicKeyHex := toHex (x04 :: repeat xab 32 ++ repeat xcd 32);
               x := toHex (firstn 32 (repeat xab 32 ++ repeat xcd 32));
               y := toHex (skipn 32 (repeat xab 32 ++ repeat xcd 32)) |}
  /\ List.length (buildMinimalCertificate someKey) = 189%nat.
Proof.
  assert (Hhex : fromHex (publicKeyHex someKey)
                 = x04 :: repeat xab 32 ++ repeat xcd 32)
    by (vm_compute; reflexivity).
  split; [reflexivity|]. split; [exact Hhex|].
  exact (buildMinimalCertificate_round_trip someKey
           (repeat xab 32 ++ repeat xcd 32) eq_refl Hhex).
Defined.

End Certificates.

Section TlvSearch.

Lemma nth_error_middle (pre post : Buffer) (v : byte) :
  nth_error (pre ++ v :: post) (List.length pre) = Some v.
Proof.
  rewrite nth_error_app2 by lia. rewrite Nat.sub_diag. reflexivity.
Qed.

Lemma slice_middle (pre mid post : Buffer) :
  slice (pre ++ mid ++ post) (Num (Z.of_nat (List.length pre)))
    (Num (Z.of_nat (List.length pre) + Z.of_nat (List.length mid))) = mid.
Proof.
  rewrite slice_nonneg by lia.
  replace (Z.to_nat (Z.of_nat (List.length pre) + Z.of_nat (List.length mid)
                     - Z.of_nat (List.length pre)))
    with (List.length mid) by lia.
  rewrite Nat2Z.id, skipn_app, skipn_all, Nat.sub_diag. cbn [skipn app].
  rewrite firstn_app, Nat.sub_diag, firstn_all. apply app_nil_r.
Qed.

Lemma parseTlvValue_loop_items (tag : Z) (items : list (byte * Buffer)) :
  forall (pre : Buffer) (fuel : nat),
    shortItems items ->
    (List.length items < fuel)%nat ->
    parseTlvValue_loop fuel (pre ++ flat_map tlv items) (Num tag)
      (Num (Z.of_nat (List.length pre)))
    = Ok (firstWithTag tag items).
Proof.
  induction items as [|[t v] items IH]; intros pre fuel Hshort Hfuel.
  - destruct fuel as [|fuel]; [cbn [List.length] in Hfuel; lia|].
    cbn [flat_map parseTlvValue_loop]. rewrite app_nil_r. unfold lt.
    replace (Z.of_nat (List.length pre) <? Z.of_nat (List.length pre) - 1)
      with false by (symmetry; apply Z.ltb_ge; lia).
    reflexivity.
  - destruct fuel as [|fuel]; [lia|]. cbn [List.length] in Hfuel.
    inversion Hshort as [|? ? Hv Hrest]; subst. cbn [snd] in Hv.
    cbn [flat_map]. unfold tlv at 1. cbn [fst snd app].
    set (k := Z.of_nat (List.length v)) in *.
    set (rest := flat_map tlv items).
    set (data := pre ++ t :: byte_of_Z k :: v ++ rest).
    assert (Ht : nth_error data (List.length pre) = Some t)
      by apply nth_error_middle.
    assert (Hk : nth_error data (S (List.length pre)) = Some (byte_of_Z k)).
    { unfold data. replace (S (List.length pre))
        with (List.length (pre ++ [t])) by (rewrite length_app; cbn; lia).
      replace (pre ++ t :: byte_of_Z k :: v ++ rest)
        with ((pre ++ [t]) ++ byte_of_Z k :: v ++ rest)
        by (rewrite <- app_assoc; reflexivity).
      apply nth_error_middle. }
    assert (Hlen : Z.of_nat (List.length data)
                   = Z.of_nat (List.length pre) + 2 + k
                     + Z.of_nat (List.length rest)).
    { unfold data, k. rewrite length_app. cbn [List.length].
      rewrite length_app. lia. }
    assert (Hdata : data = (pre ++ [t; byte_of_Z k]) ++ v ++ rest)
      by (unfold data; rewrite <- app_assoc; reflexivity).
    assert (Hdata' : data = (pre ++ [t; byte_of_Z k] ++ v) ++ rest)
      by (unfold data; rewrite <- !app_assoc; reflexivity).
    assert (Hpre2 : Z.of_nat (List.length (pre ++ [t; byte_of_Z k]))
                    = Z.of_nat (List.length pre) + 2)
      by (rewrite length_app; cbn [List.length]; lia).
    cbn [parseTlvValue_loop]. unfold lt.
    replace (Z.of_nat (List.length pre) <? Z.of_nat (List.length data) - 1)
      with true by (symmetry; apply Z.ltb_lt; lia).
    rewrite (at_nth _ _ _ Ht). cbn [add].
    replace (Z.of_nat (List.length pre) + 1)
      with (Z.of_nat (S (List.length pre))) by lia.
    destruct (parseLength_short data (S (List.length pre)) k ltac:(lia) Hk)
      as [Hpl Hpb].
    rewrite Hpl, Hpb. cbn [bindExc add].
    replace (Z.of_nat (S (List.length pre)) + 1)
      with (Z.of_nat (List.length pre) + 2) by lia.
    unfold firstWithTag. cbn [find fst seq].
    destruct (u8 t =? tag) eqn:Etag.
    + cbn [option_map snd]. do 2 f_equal.
      rewrite <- Hpre2. unfold k. rewrite Hdata. apply slice_middle.
    + specialize (IH (pre ++ [t; byte_of_Z k] ++ v) fuel Hrest ltac:(lia)).
      fold rest in IH. rewrite <- Hdata' in IH.
      replace (Z.of_nat (List.length pre) + 2 + k)
        with (Z.of_nat (List.length (pre ++ [t; byte_of_Z k] ++ v)))
        by (rewrite !length_app; cbn [List.length]; unfold k; lia).
      exact IH.
Qed.

Lemma parseTlvValue_template :
  forall items tag,
    shortItems items ->
    Z.of_nat (List.length (flat_map tlv items)) < 128 ->
    parseTlvValue (template items) tag = firstWithTag tag items.
Proof.
  intros items tag Hshort Hbody. unfold parseTlvValue, template.
  cbn [app]. rewrite at_head.
  change (seq (Num (u8 x7c)) (Num 124)) with true. cbv iota. cbn [add].
  set (L := Z.of_nat (List.length (flat_map tlv items))) in *.
  set (data := x7c :: byte_of_Z L :: flat_map tlv items).
  assert (HL : nth_error data 1 = Some (byte_of_Z L)) by reflexivity.
  destruct (parseLength_short data 1 L ltac:(lia) HL) as [_ Hpb].
  change (Num (0 + 1)) with (Num (Z.of_nat 1)). rewrite Hpb.
  cbn [bindExc add].
  change data with ([x7c; byte_of_Z L] ++ flat_map tlv items).
  rewrite (parseTlvValue_loop_items tag items [x7c; byte_of_Z L]
             _ Hshort).
  - reflexivity.
  - rewrite length_app. cbn [List.length].
    assert (Hitems : (List.length items <= List.length (flat_map tlv items))%nat).
    { clear. induction items as [|[t v] items IH]; [cbn; lia|].
      cbn [flat_map List.length]. rewrite length_app.
      unfold tlv at 1. cbn [List.length app fst snd]. lia. }
    lia.
Qed.

Lemma items_le_bytes (items : list (byte * Buffer)) :
  (List.length items <= List.length (flat_map tlv items))%nat.
Proof.
  induction items as [|[t v] items IH]; [cbn; lia|].
  cbn [flat_map List.length]. rewrite length_app.
  unfold tlv at 1. cbn [List.length app fst snd]. lia.
Qed.

(** The wrapper [7C] is optional: the same TLVs without it are searched
    from the first byte. *)
Lemma parseTlvValue_bare :
  forall items tag,
    shortItems items ->
    hd_error (flat_map tlv items) <> Some x7c ->
    parseTlvValue (flat_map tlv items) tag = firstWithTag tag items.
Proof.
  intros items tag Hshort Hhd. unfold parseTlvValue.
  replace (seq (at_ (flat_map tlv items) (Num 0)) (Num 124)) with false.
  - cbn [bindExc]. destruct items as [|[t v] items]; [reflexivity|].
    change (Num 0) with (Num (Z.of_nat (List.length (@nil byte)))).
    change (flat_map tlv ((t, v) :: items))
      with ([] ++ flat_map tlv ((t, v) :: items)) at 2.
    rewrite (parseTlvValue_loop_items tag ((t, v) :: items) [] _ Hshort);
      [reflexivity|].
    pose proof (items_le_bytes items).
    cbn [flat_map List.length]. rewrite length_app.
    unfold tlv at 1. cbn [List.length app fst snd]. lia.
  - symmetry. destruct (flat_map tlv items) as [|b bytes]; [reflexivity|].
    rewrite at_head. change (Num 124) with (Num (u8 x7c)).
    apply seq_u8_false. intros ->. apply Hhd. reflexivity.
Qed.

(** X5.  Among TLVs with short-form lengths, wrapped in a template [7C]
    or not, [parseTlvValue] returns the value of the first TLV that has
    the tag asked for, and nothing when no TLV has it. *)
Theorem parseTlvValue_first_with_tag :
  forall items tag,
    shortItems items ->
    (Z.of_nat (List.length (flat_map tlv items)) < 128 ->
     parseTlvValue (template items) tag = firstWithTag tag items)
    /\ (hd_error (flat_map tlv items) <> Some x7c ->
        parseTlvValue (flat_map tlv items) tag = firstWithTag tag items).
Proof.
  intros items tag Hshort. split.
  - apply parseTlvValue_template, Hshort.
  - apply parseTlvValue_bare, Hshort.
Qed.

Lemma parseTlvValue_first_with_tag_witness :
  shortItems [(x80, someWitness); (x81, someChallenge)]
  /\ (Z.of_nat (List.length
                  (flat_map tlv [(x80, someWitness); (x81, someChallenge)]))
      < 128
      /\ parseTlvValue (template [(x80, someWitness); (x81, someChallenge)])
           0x81
         = Some someChallenge)
  /\ (hd_error (flat_map tlv [(x80, someWitness); (x81, someChallenge)])
      <> Some x7c
      /\ parseTlvValue (flat_map tlv [(x80, someWitness); (x81, someChallenge)])
           0x81
         = Some someChallenge).
Proof.
  assert (Hshort : shortItems [(x80, someWitness); (x81, someChallenge)])
    by (repeat constructor).
  assert (Hbody : Z.of_nat (List.length
                    (flat_map tlv [(x80, someWitness); (x81, someChallenge)]))
                  < 128) by (vm_compute; reflexivity).
  assert (Hhd : hd_error (flat_map tlv
                            [(x80, someWitness); (x81, someChallenge)])
                <> Some x7c) by (vm_compute; discriminate).
  split; [exact Hshort|]. split.
  - split; [exact Hbody|].
    exact (proj1 (parseTlvValue_first_with_tag _ 0x81 Hshort) Hbody).
  - split; [exact Hhd|].
    exact (proj2 (parseTlvValue_first_with_tag _ 0x81 Hshort) Hhd).
Defined.

End TlvSearch.

Section Framing.

Lemma lcCounts_intro (le : nat) (command : Buffer) (lc : byte) :
  nth_error command 4 = Some lc ->
  u8 lc + 5 + Z.of_nat le = Z.of_nat (List.length command) ->
  lcCounts le command.
Proof. intros Hnth Hlen. exists lc. split; assumption. Qed.

(** X6.  The commands built from an argument are framed consistently:
    their [Lc] byte counts the data bytes that follow the header, for the
    VERIFY command of every PIN, the GENERATE command of every slot, the
    GET DATA command of every object id below 126 bytes (one [Le] byte
    apart), the signing command of every 32-byte hash and the handshake
    answer of every 16-byte witness and challenge; and the module's own
    [parseTlvValue] reads the hash, the witness and the challenge back
    from the bodies of the last two. *)
Theorem commands_framed :
  (forall pin, lcCounts 0 (verifyPinCommand pin))
  /\ (forall slot, lcCounts 0 (generateKeyCommand slot))
  /\ (forall objectId,
        Z.of_nat (List.length objectId) < 126 ->
        lcCounts 1 (getDataCommand objectId))
  /\ (forall hash,
        List.length hash = 32%nat ->
        lcCounts 0 (signCommand hash)
        /\ skipn 5 (signCommand hash) = template [(x82, []); (x81, hash)]
        /\ parseTlvValue (skipn 5 (signCommand hash)) 0x81 = Some hash)
  /\ (forall witness challenge,
        List.length witness = 16%nat -> List.length challenge = 16%nat ->
        lcCounts 0 (authCmd witness challenge)
        /\ skipn 5 (authCmd witness challenge)
           = template [(x80, witness); (x81, challenge)]
        /\ parseTlvValue (skipn 5 (authCmd witness challenge)) 0x80
           = Some witness
        /\ parseTlvValue (skipn 5 (authCmd witness challenge)) 0x81
           = Some challenge).
Proof.
  split.
  { intros pin. apply (lcCounts_intro 0 _ x08); [reflexivity|].
    unfold verifyPinCommand. rewrite copy_at_0, length_app, length_firstn,
      length_app, repeat_length.
    cbn [List.length]. change (u8 x08) with 8. lia. }
  split.
  { intros slot. apply (lcCounts_intro 0 _ x05); reflexivity. }
  split.
  { intros objectId Hshort.
    apply (lcCounts_intro 1 _
             (byte_of_Z (Z.of_nat (List.length objectId) + 2)));
      [reflexivity|].
    rewrite u8_byte by lia. unfold getDataCommand.
    repeat (rewrite ?length_app; cbn [List.length]). lia. }
  split.
  { intros hash Hlen.
    assert (Hbody : skipn 5 (signCommand hash)
                    = template [(x82, []); (x81, hash)]).
    { unfold signCommand, template, tlv. cbn [flat_map fst snd app skipn].
      rewrite app_nil_r. cbn [List.length]. rewrite Hlen. reflexivity. }
    split.
    { apply (lcCounts_intro 0 _ x26); [reflexivity|].
      unfold signCommand. rewrite length_app, Hlen. reflexivity. }
    split; [exact Hbody|].
    rewrite Hbody, parseTlvValue_template.
    - reflexivity.
    - repeat constructor. cbn [snd]. lia.
    - unfold tlv. cbn [flat_map fst snd app].
      rewrite app_nil_r. cbn [List.length]. rewrite Hlen. cbn. lia. }
  intros witness challenge Hw Hc.
  assert (Hbody : skipn 5 (authCmd witness challenge)
                  = template [(x80, witness); (x81, challenge)]).
  { unfold authCmd, template, tlv. cbn [flat_map fst snd app skipn].
    rewrite app_nil_r. repeat (rewrite ?length_app; cbn [List.length]).
    rewrite Hw, Hc. cbn [app]. reflexivity. }
  assert (Hshort : shortItems [(x80, witness); (x81, challenge)]).
  { repeat constructor; cbn [snd]; lia. }
  assert (Hlen : Z.of_nat (List.length
                   (flat_map tlv [(x80, witness); (x81, challenge)])) < 128).
  { unfold tlv. cbn [flat_map fst snd app List.length].
    rewrite app_nil_r. repeat (rewrite ?length_app; cbn [List.length]).
    lia. }
  split.
  { apply (lcCounts_intro 0 _ x26); [reflexivity|].
    unfold authCmd. repeat (rewrite ?length_app; cbn [List.length]).
    change (u8 x26) with 38. lia. }
  split; [exact Hbody|].
  rewrite Hbody, !parseTlvValue_template by assumption.
  split; reflexivity.
Qed.

Lemma commands_framed_witness :
  (List.length (repeat x11 32) = 32%nat
   /\ lcCounts 0 (signCommand (repeat x11 32))
   /\ skipn 5 (signCommand (repeat x11 32))
      = template [(x82, []); (x81, repeat x11 32)]
   /\ parseTlvValue (skipn 5 (signCommand (repeat x11 32))) 0x81
      = Some (repeat x11 32))
  /\ (List.length someWitness = 16%nat
      /\ List.length someChallenge = 16%nat
      /\ lcCounts 0 (authCmd someWitness someChallenge)
      /\ skipn 5 (authCmd someWitness someChallenge)
         = template [(x80, someWitness); (x81, someChallenge)]
      /\ parseTlvValue (skipn 5 (authCmd someWitness someChallenge)) 0x80
         = Some someWitness
      /\ parseTlvValue (skipn 5 (authCmd someWitness someChallenge)) 0x81
         = Some someChallenge)
  /\ (Z.of_nat (List.length objectId9a) < 126
      /\ lcCounts 1 (getDataCommand objectId9a)).
Proof.
  split; [|split].
  - split; [reflexivity|].
    exact (proj1 (proj2 (proj2 (proj2 commands_framed)))
             (repeat x11 32) eq_refl).
  - split; [reflexivity|]. split; [reflexivity|].
    exact (proj2 (proj2 (proj2 (proj2 commands_framed)))
             someWitness someChallenge eq_refl eq_refl).
  - assert (Hshort : Z.of_nat (List.length objectId9a) < 126)
      by (vm_compute; reflexivity).
    split; [exact Hshort|].
    exact (proj1 (proj2 (proj2 commands_framed)) objectId9a Hshort).
Defined.

End Framing.

Section SignatureResponse.

Lemma length_toHex (b : Buffer) :
  String.length (toHex b) = (2 * List.length b)%nat.
Proof.
  induction b as [|v b IH]; [reflexivity|].
  cbn [toHex String.length List.length]. rewrite IH. lia.
Qed.

Lemma toHex_app (a b : Buffer) : toHex (a ++ b) = (toHex a ++ toHex b)%string.
Proof.
  induction a as [|v a IH]; [reflexivity|].
  cbn [app toHex String.append]. rewrite IH. reflexivity.
Qed.

Lemma toHex_zero_bytes (k : nat) : toHex (repeat x00 k) = zeros (2 * k).
Proof.
  induction k as [|k IH]; [reflexivity|].
  replace (2 * S k)%nat with (S (S (2 * k))) by lia.
  cbn [repeat toHex]. rewrite IH, !zeros_S. reflexivity.
Qed.

Lemma padStart0_toHex (b : Buffer) :
  (List.length b <= 32)%nat ->
  padStart0 64 (toHex b) = toHex (repeat x00 (32 - List.length b) ++ b).
Proof.
  intros Hlen. unfold padStart0.
  rewrite length_toHex, toHex_app, toHex_zero_bytes. unfold zeros.
  do 3 f_equal. lia.
Qed.

(** The low-S step never makes its result longer than 32 bytes. *)
Lemma lowS_bounds (sIn sOut : Buffer) :
  List.length sIn = 32%nat -> lowS sIn = Ok sOut ->
  (List.length sOut <= 32)%nat /\ beVal sOut <= halfN.
Proof.
  intros Hlen Hlow.
  destruct (lowS_spec sIn Hlen) as (s' & Hs' & Hle & _ & _ & Hsmall).
  rewrite Hs' in Hlow. injection Hlow as <-. split; [|exact Hle].
  destruct (Z.le_gt_cases (beVal sIn) curveOrder) as [Hn|Hn].
  - destruct (Hsmall Hn) as [H32 _]. lia.
  - assert (Hne : sIn <> []) by (intros ->; discriminate).
    pose proof (beVal_bound sIn) as Hb. rewrite Hlen in Hb.
    pose proof curveOrder_odd. pose proof halfN_pos.
    pose proof curveOrder_gap. pose proof curveOrder_lt_2_256.
    unfold lowS in Hs'. rewrite bigIntOfHex_toHex in Hs' by exact Hne.
    cbn [bindExc] in Hs'.
    replace (halfN <? beVal sIn) with true in Hs'
      by (symmetry; apply Z.ltb_lt; lia).
    destruct (padStart0_negative (curveOrder - beVal sIn) 55)
      as (j & Hj & Hfrom); [lia | lia |].
    rewrite Hfrom in Hs'. injection Hs' as <-. rewrite repeat_length. lia.
Qed.

(** X7.  Every signature that [parseSignatureResponse] returns has [r]
    and [s] of exactly 32 bytes each, as 64 hexadecimal digits, and its
    [s], read as an integer, is at most half the curve order, whatever DER
    blob the card sent. *)
Theorem parseSignatureResponse_sound :
  forall response sig,
    parseSignatureResponse response = Some sig ->
    exists rBytes sBytes,
      r sig = toHex rBytes /\ List.length rBytes = 32%nat
      /\ s sig = toHex sBytes /\ List.length sBytes = 32%nat
      /\ beVal sBytes <= halfN
      /\ String.length (r sig) = 64%nat /\ String.length (s sig) = 64%nat.
Proof.
  intros response sig Hparse.
  unfold parseSignatureResponse, tryOrNull in Hparse.
  match type of Hparse with
  | match ?body with _ => _ end = _ => destruct body as [res|msg] eqn:Hbody
  end; [|discriminate Hparse].
  subst res.
  repeat match type of Hbody with
         | context [bindExc ?m _] =>
             destruct m eqn:?; cbn [bindExc] in Hbody; [|discriminate Hbody]
         | context [if ?c then _ else _] =>
             destruct c eqn:?; [discriminate Hbody|]
         end.
  injection Hbody as <-. cbn [r s].
  match goal with
  | E : parseDerSignature _ = Ok ?rs |- _ =>
      destruct rs as [rb sb]; unfold parseDerSignature in E;
      destruct (derIntegers _) as [[rRaw sRaw]|] in E; [|discriminate E];
      cbn [bindExc fst snd] in E;
      destruct (lowS (normalizeTo32Bytes sRaw)) as [sLow|] eqn:Hlow;
        [|discriminate E];
      cbn [bindExc] in E; injection E as <- <-
  end.
  cbn [fst snd].
  destruct (lowS_bounds _ _ (length_normalizeTo32Bytes sRaw) Hlow)
    as [Hlen Hval].
  pose proof (length_normalizeTo32Bytes rRaw) as Hr.
  rewrite !padStart0_toHex by lia. rewrite Hr, Nat.sub_diag. cbn [repeat app].
  exists (normalizeTo32Bytes rRaw),
         (repeat x00 (32 - List.length sLow) ++ sLow).
  assert (Hs32 : List.length (repeat x00 (32 - List.length sLow) ++ sLow)
                 = 32%nat) by (rewrite length_app, repeat_length; lia).
  split; [reflexivity|]. split; [exact Hr|]. split; [reflexivity|].
  split; [exact Hs32|]. split; [rewrite beVal_zeros_app; exact Hval|].
  rewrite !length_toHex, Hr, Hs32. split; reflexivity.
Qed.

Lemma parseSignatureResponse_sound_witness :
  parseSignatureResponse ([x7c; x2a; x82; x28] ++ derOversizedS)
  = Some {| signatureDer := toHex derOversizedS;
            r := toHex (repeat x00 31 ++ [x01]);
            s := toHex (repeat x00 32) |}
  /\ exists rBytes sBytes,
       toHex (repeat x00 31 ++ [x01]) = toHex rBytes
       /\ List.length rBytes = 32%nat
       /\ toHex (repeat x00 32) = toHex sBytes
       /\ List.length sBytes = 32%nat
       /\ beVal sBytes <= halfN
       /\ String.length (toHex (repeat x00 31 ++ [x01])) = 64%nat
       /\ String.length (toHex (repeat x00 32)) = 64%nat.
Proof.
  assert (Hparse :
    parseSignatureResponse ([x7c; x2a; x82; x28] ++ derOversizedS)
    = Some {| signatureDer := toHex derOversizedS;
              r := toHex (repeat x00 31 ++ [x01]);
              s := toHex (repeat x00 32) |})
    by (vm_compute; reflexivity).
  split; [exact Hparse|].
  exact (parseSignatureResponse_sound _ _ Hparse).
Defined.

End SignatureResponse.

Section Disconnected.
Context {R : Type} `{CardReader R} `{Crypto} `{External R}.

Lemma transmitRaw_unplugged (command : Buffer) (st : Session R) :
  unplugged st -> transmitRaw command st = (Failure "Not connected", st).
Proof.
  intros [Hr|Hp]; unfold transmitRaw.
  - rewrite Hr. reflexivity.
  - rewrite Hp. destruct (reader st); reflexivity.
Qed.

Lemma transmit_unplugged (fuel : nat) (command : Buffer) (st : Session R) :
  unplugged st ->
  transmit fuel command st = Some (Failure "Not connected", st).
Proof.
  intros Hun. unfold transmit. rewrite (transmitRaw_unplugged _ _ Hun).
  reflexivity.
Qed.

(** X8.  Without a reader or a protocol every operation fails with
    "Not connected" ([signHash] possibly with its length error, which it
    checks first) and hands nothing to the reader: the session comes
    back as it was, but for the line that [verifyPin] writes to
    [console.error].  No fuel is needed for this. *)
Theorem not_connected_nothing_sent :
  forall (fuel : nat) (st : Session R),
    unplugged st ->
    (forall command,
        transmit fuel command st = Some (Failure "Not connected", st))
    /\ selectPIV fuel st = Some (Failure "Not connected", st)
    /\ (forall pin,
           verifyPin fuel pin st
           = Some (Failure "Not connected",
                   logged st "PIN transmit failed: Not connected"))
    /\ readPublicKeyFromSlot fuel st = Some (Failure "Not connected", st)
    /\ (forall hashHex,
           exists e, signHash fuel hashHex st = Some (Failure e, st))
    /\ (forall challenge,
           authenticateManagementKey fuel challenge st
           = Some (Failure "Not connected", st))
    /\ (forall challenge slot,
           generateNewKey fuel challenge slot st
           = Some (Failure "Not connected", st))
    /\ (forall challenge,
           generateP256Key fuel challenge st
           = Some (Ok (Failure "Not connected"), st)).
Proof.
  intros fuel st Hun.
  pose proof (fun c => transmit_unplugged fuel c st Hun) as Htx.
  assert (Hauth : forall challenge,
             authenticateManagementKey fuel challenge st
             = Some (Failure "Not connected", st)).
  { intros challenge. unfold authenticateManagementKey, bind.
    rewrite Htx. reflexivity. }
  assert (Hread : readPublicKey fuel PIV_SLOT_AUTHENTICATION st
                  = Some (Failure "Not connected", st)).
  { unfold readPublicKey, bind. cbn [getSlotObjectId PIV_SLOT_AUTHENTICATION
      Z.eqb Pos.eqb]. rewrite Htx. reflexivity. }
  assert (Hgen : forall challenge slot,
             generateNewKey fuel challenge slot st
             = Some (Failure "Not connected", st)).
  { intros challenge slot. unfold generateNewKey, bind. rewrite Hauth.
    reflexivity. }
  refine (conj _ (conj _ (conj _ (conj _ (conj _ (conj _ (conj _ _))))))).
  - exact Htx.
  - unfold selectPIV, bind. rewrite Htx. reflexivity.
  - intros pin. unfold verifyPin, bind. rewrite Htx. reflexivity.
  - exact Hread.
  - intros hashHex. unfold signHash.
    destruct (sne _ _); [eexists; reflexivity|].
    unfold bind. rewrite Htx. eexists. reflexivity.
  - exact Hauth.
  - exact Hgen.
  - intros challenge. unfold generateP256Key, bind. rewrite Hread.
    reflexivity.
Qed.

End Disconnected.

Section Frames.
Context {R : Type} `{CardReader R} `{Crypto} `{External R}.

Lemma sameLink_refl (st : Session R) : sameLink st st.
Proof. repeat split. Qed.

Lemma sameLink_trans (a b c : Session R) :
  sameLink a b -> sameLink b c -> sameLink a c.
Proof.
  unfold sameLink. intros (?&?&?&?&?&?) (?&?&?&?&?&?).
  repeat split; congruence.
Qed.

Lemma transmitRaw_link (command : Buffer) (st : Session R) :
  sameLink st (snd (transmitRaw command st)).
Proof.
  unfold transmitRaw.
  destruct (reader st) eqn:Hr; [|apply sameLink_refl].
  destruct (protocol st) as [proto|] eqn:Hp; [|apply sameLink_refl].
  destruct (reader_transmit (device st) command 1024 proto)
    as [[msg|data] dev]; repeat split; cbn; auto.
Qed.

Lemma transmit_loop_link (fuel : nat) :
  forall data (st st' : Session R) res,
    transmit_loop fuel data st = Some (res, st') -> sameLink st st'.
Proof.
  induction fuel as [|fuel IH]; intros data st st' res Hrun;
    [discriminate Hrun|].
  cbn [transmit_loop] in Hrun.
  destruct (le (Num 2) (blen data)).
  2:{ injection Hrun as _ <-. apply sameLink_refl. }
  destruct (seq _ (Num 97)).
  2:{ injection Hrun as _ <-. apply sameLink_refl. }
  set (cmd := [x00; xc0; x00; x00; _]) in Hrun.
  pose proof (transmitRaw_link cmd st) as Hlink.
  destruct (transmitRaw cmd st) as [[more|e] st1]; cbn [snd] in Hlink.
  - apply IH in Hrun. exact (sameLink_trans _ _ _ Hlink Hrun).
  - injection Hrun as _ <-. exact Hlink.
Qed.

Lemma transmit_link (fuel : nat) (command : Buffer) (st st' : Session R) res :
  transmit fuel command st = Some (res, st') -> sameLink st st'.
Proof.
  unfold transmit. intros Hrun.
  pose proof (transmitRaw_link command st) as Hlink.
  destruct (transmitRaw command st) as [[data|e] st1]; cbn [snd] in Hlink.
  - apply transmit_loop_link in Hrun. exact (sameLink_trans _ _ _ Hlink Hrun).
  - injection Hrun as _ <-. exact Hlink.
Qed.

(** A result returned at once leaves the session where it is. *)
Ltac done_here Hrun Hlink :=
  repeat match type of Hrun with
         | context [if ?c then _ else _] => destruct c
         | context [match ?o with Some _ => _ | None => _ end] => destruct o
         end;
  injection Hrun as _ <-; exact Hlink.

Lemma authenticateManagementKey_link (fuel : nat) (challenge : Buffer)
  (st st' : Session R) res :
  authenticateManagementKey fuel challenge st = Some (res, st') ->
  sameLink st st'.
Proof.
  unfold authenticateManagementKey, bind, ret. intros Hrun.
  destruct (transmit fuel witnessReqCmd st) as [[witnessResp st1]|] eqn:Htx1;
    [|discriminate Hrun].
  apply transmit_link in Htx1.
  destruct witnessResp as [data|e]; [|injection Hrun as _ <-; exact Htx1].
  destruct (notOk _); [injection Hrun as _ <-; exact Htx1|].
  destruct (parseTlvValue _ 128) as [witness|];
    [|injection Hrun as _ <-; exact Htx1].
  destruct (sne (blen witness) _); [injection Hrun as _ <-; exact Htx1|].
  destruct (transmit fuel _ st1) as [[authResp st2]|] eqn:Htx2;
    [|discriminate Hrun].
  apply transmit_link in Htx2.
  pose proof (sameLink_trans _ _ _ Htx1 Htx2) as Hlink.
  destruct authResp as [data2|e]; [|injection Hrun as _ <-; exact Hlink].
  done_here Hrun Hlink.
Qed.


(** X10.  [readPublicKey] only reads: whatever the card answers, the
    commands it sends are GET DATA for the object of the slot and GET
    RESPONSE; for a slot without an object it sends nothing and fails
    with "Invalid slot". *)
Theorem readPublicKey_read_only :
  forall (fuel : nat) (slot : Z) (st st' : Session R) res,
    readPublicKey fuel slot st = Some (res, st') ->
    match getSlotObjectId slot with
    | Some objectId =>
        exists cmds, sent st' = sent st ++ cmds
                     /\ Forall (isRead objectId) cmds
    | None => res = Failure "Invalid slot" /\ st' = st
    end.
Proof.
  intros fuel slot st st' res. unfold readPublicKey, bind, ret. intros Hrun.
  destruct (getSlotObjectId slot) as [objectId|].
  2:{ injection Hrun as <- <-. split; reflexivity. }
  destruct (transmit fuel _ st) as [[response st1]|] eqn:Htx;
    [|discriminate Hrun].
  apply transmit_sent in Htx.
  assert (Hst : st' = st1).
  { destruct response as [data|e]; [|injection Hrun as _ <-; reflexivity].
    repeat match type of Hrun with
           | context [if ?c then _ else _] => destruct c
           | context [match ?o with Some _ => _ | None => _ end] => destruct o
           end; injection Hrun as _ <-; reflexivity. }
  subst st1. exact Htx.
Qed.

End Frames.

Section StatusWords.
Context {R : Type} `{CardReader R} `{Crypto} `{External R}.

Lemma slice_last2 (data : Buffer) :
  slice data (Num (-2)) Undefined = skipn (List.length data - 2) data.
Proof.
  unfold slice, adjustOffset.
  change (-2 =? 0) with false. change (-2 <? 0) with true. cbv iota.
  set (len := Z.of_nat (List.length data)).
  destruct (0 <? -2 + len) eqn:E.
  - apply Z.ltb_lt in E.
    replace (-2 + len <? len) with true by (symmetry; apply Z.ltb_lt; lia).
    replace (Z.to_nat (-2 + len)) with (List.length data - 2)%nat
      by (unfold len in *; lia).
    apply firstn_all2. rewrite length_skipn. unfold len in *. lia.
  - apply Z.ltb_ge in E.
    replace (List.length data - 2)%nat with 0%nat by (unfold len in *; lia).
    cbn [Z.to_nat skipn].
    destruct (0 <? len) eqn:E'.
    + apply firstn_all2. unfold len. lia.
    + apply Z.ltb_ge in E'. destruct data; [reflexivity|].
      unfold len in E'. cbn [List.length] in E'. lia.
Qed.

(** The test [sw[0] !== 0x90 || sw[1] !== 0x00] on [data.slice(-2)]
    passes exactly for data that end in [90 00]. *)
Lemma notOk_false_iff (data : Buffer) :
  notOk (slice data (Num (-2)) Undefined) = false
  <-> exists payload, data = payload ++ [x90; x00].
Proof.
  split.
  - rewrite slice_last2. intros Hok.
    pose proof (firstn_skipn (List.length data - 2) data) as Hsplit.
    pose proof (length_skipn (List.length data - 2) data) as Hlen.
    destruct (skipn (List.length data - 2) data) as [|a [|b rest]] eqn:Esw.
    + discriminate Hok.
    + unfold notOk in Hok. rewrite at_head in Hok.
      apply orb_false_iff in Hok. destruct Hok as [_ Hok]. discriminate Hok.
    + assert (rest = []) by (destruct rest; [reflexivity|cbn in Hlen; lia]).
      subst rest. unfold notOk, sne in Hok. rewrite at_head, at_second in Hok.
      apply orb_false_iff in Hok. destruct Hok as [Ha Hb].
      apply negb_false_iff in Ha, Hb.
      change (Num 144) with (Num (u8 x90)) in Ha.
      change (Num 0) with (Num (u8 x00)) in Hb.
      apply seq_u8 in Ha, Hb. subst a b.
      eexists. symmetry. exact Hsplit.
  - intros [payload ->]. rewrite slice_sw. reflexivity.
Qed.

(** X11.  [selectPIV] sends [00 A4 04 00 05 A0 00 00 03 08] and succeeds
    exactly when the answer, continuation data included, ends in [90 00];
    any other answer, one of fewer than two bytes included, is the failure
    "Failed to select PIV: SW=" followed by the hex of its last two bytes
    (of all of it, when it has fewer). *)
Theorem selectPIV_status_words :
  forall (fuel : nat) (st st' : Session R) (data : Buffer),
    transmit fuel selectCommand st = Some (Success data, st') ->
    selectCommand = [x00; xa4; x04; x00; x05; xa0; x00; x00; x03; x08]
    /\ ((exists payload, data = payload ++ [x90; x00]) ->
        selectPIV fuel st = Some (Success tt, st'))
    /\ ((forall payload, data <> payload ++ [x90; x00]) ->
        selectPIV fuel st
        = Some (Failure ("Failed to select PIV: SW="
                         ++ toHex (skipn (List.length data - 2) data))%string,
                st')).
Proof.
  intros fuel st st' data Htx.
  split; [reflexivity|].
  unfold selectPIV, bind, ret. rewrite Htx.
  pose proof (notOk_false_iff data) as Hiff.
  split.
  - intros Hend. apply Hiff in Hend. rewrite Hend. reflexivity.
  - intros Hnot. rewrite <- slice_last2.
    destruct (notOk (slice data (Num (-2)) Undefined)); [reflexivity|].
    destruct (proj1 Hiff eq_refl) as [payload Hp].
    contradiction (Hnot payload Hp).
Qed.

End StatusWords.

Section HashText.
Context {R : Type} `{CardReader R} `{Crypto} `{External R}.

Lemma hexdigit_not_x (n : N) : hexdigit n <> "x"%char.
Proof.
  unfold hexdigit.
  destruct n as [|p]; [discriminate|].
  do 4 (destruct p as [p|p|]; try discriminate).
Qed.

Lemma noX_toHex (b : Buffer) : noX (toHex b).
Proof.
  induction b as [|v b IH]; [exact I|].
  cbn [toHex noX]. repeat split; try apply hexdigit_not_x. exact IH.
Qed.

Lemma prefix_0x_noX (text : string) :
  noX text -> String.prefix "0x" text = false.
Proof.
  destruct text as [|c [|d text]]; intros Hno; cbn [String.prefix].
  - reflexivity.
  - destruct (ascii_dec "0" c); reflexivity.
  - destruct (ascii_dec "0" c); [|reflexivity].
    destruct (ascii_dec "x" d) as [<-|]; [|reflexivity].
    cbn [noX] in Hno. destruct Hno as (_ & Hd & _). contradiction Hd.
    reflexivity.
Qed.

Lemma removeFirst_noX (text : string) :
  noX text -> removeFirst "0x" text = text.
Proof.
  induction text as [|c text IH]; intros Hno; [reflexivity|].
  cbn [removeFirst]. rewrite (prefix_0x_noX _ Hno).
  cbn [noX] in Hno. rewrite IH by apply Hno. reflexivity.
Qed.

Lemma substring_whole (text : string) :
  substring 0 (String.length text) text = text.
Proof.
  induction text as [|c text IH]; [reflexivity|].
  cbn [String.length substring]. rewrite IH. reflexivity.
Qed.

Lemma removeFirst_0x (text : string) :
  removeFirst "0x" ("0x" ++ text) = text.
Proof.
  cbn [String.append]. unfold removeFirst.
  destruct text as [|c text].
  - reflexivity.
  - cbn [String.prefix]. destruct (ascii_dec "0" "0"); [|congruence].
    destruct (ascii_dec "x" "x"); [|congruence].
    cbn [String.length Nat.sub substring].
    change (match text with
            | EmptyString => true
            | String _ _ => true
            end) with true.
    rewrite substring_whole. reflexivity.
Qed.

(** X12.  [signHash] signs the 32 bytes its argument spells, given in
    hexadecimal with the prefix "0x" or without: it sends GENERAL
    AUTHENTICATE with exactly those bytes as challenge, fails with
    "Signing failed: SW=..." unless the answer ends in [90 00], and
    otherwise returns what [parseSignatureResponse] makes of the payload,
    or "Failed to parse signature from response". *)
Theorem signHash_signs_the_hash :
  forall (fuel : nat) (hash : Buffer) (hashHex : string)
         (st st' : Session R) (data : Buffer),
    List.length hash = 32%nat ->
    hashHex = toHex hash \/ hashHex = ("0x" ++ toHex hash)%string ->
    transmit fuel (signCommand hash) st = Some (Success data, st') ->
    ((forall payload, data <> payload ++ [x90; x00]) ->
     signHash fuel hashHex st
     = Some (Failure ("Signing failed: SW="
                      ++ toHex (skipn (List.length data - 2) data))%string,
             st'))
    /\ (forall payload,
           data = payload ++ [x90; x00] ->
           signHash fuel hashHex st
           = Some (match parseSignatureResponse payload with
                   | Some sig => Success sig
                   | None => Failure "Failed to parse signature from response"
                   end, st')).
Proof.
  intros fuel hash hashHex st st' data Hlen Htext Htx.
  assert (Hdecode : fromHex (removeFirst "0x" hashHex) = hash).
  { destruct Htext as [-> | ->].
    - rewrite removeFirst_noX by apply noX_toHex. apply fromHex_toHex.
    - rewrite removeFirst_0x. apply fromHex_toHex. }
  unfold signHash. rewrite Hdecode.
  replace (sne (blen hash) (Num 32)) with false
    by (unfold sne, seq, blen; rewrite Hlen; reflexivity).
  unfold bind, ret. rewrite Htx.
  pose proof (notOk_false_iff data) as Hiff.
  split.
  - intros Hnot. rewrite <- slice_last2.
    destruct (notOk (slice data (Num (-2)) Undefined)); [reflexivity|].
    destruct (proj1 Hiff eq_refl) as [payload Hp].
    contradiction (Hnot payload Hp).
  - intros payload ->.
    rewrite (proj2 Hiff (ex_intro _ payload eq_refl)), slice_payload.
    destruct (parseSignatureResponse payload); reflexivity.
Qed.

End HashText.

Section Normalize.

Lemma fold_beVal (b : Buffer) :
  forall acc,
    fold_left (fun a x => 256 * a + u8 x) b acc
    = acc * 256 ^ Z.of_nat (List.length b) + beVal b.
Proof.
  induction b as [|x b IH]; intros acc.
  - cbn. lia.
  - unfold beVal. cbn [fold_left List.length].
    rewrite (IH (256 * acc + u8 x)), (IH (256 * 0 + u8 x)).
    rewrite Nat2Z.inj_succ, Z.pow_succ_r by lia. unfold beVal. lia.
Qed.

Lemma beVal_cons (h : byte) (t : Buffer) :
  beVal (h :: t) = u8 h * 256 ^ Z.of_nat (List.length t) + beVal t.
Proof.
  unfold beVal at 1. cbn [fold_left]. rewrite fold_beVal. lia.
Qed.

Lemma normalizeTo32Bytes_long (buf : Buffer) :
  (33 < List.length buf)%nat
  \/ (List.length buf = 33%nat /\ hd_error buf <> Some x00) ->
  normalizeTo32Bytes buf = firstn 32 buf.
Proof.
  intros Hlong. unfold normalizeTo32Bytes.
  replace (seq (blen buf) (Num 33) && seq (at_ buf (Num 0)) (Num 0))
    with false.
  - unfold lt, blen.
    replace (Z.of_nat (List.length buf) <? 32) with false
      by (symmetry; apply Z.ltb_ge; lia).
    rewrite slice_nonneg by lia. reflexivity.
  - symmetry. destruct Hlong as [Hlen | [Hlen Hhd]].
    + replace (seq (blen buf) (Num 33)) with false; [reflexivity|].
      symmetry. apply Z.eqb_neq. lia.
    + apply andb_false_iff. right.
      destruct buf as [|h t]; [discriminate Hlen|].
      rewrite at_head. change (Num 0) with (Num (u8 x00)).
      apply seq_u8_false. intros ->. apply Hhd. reflexivity.
Qed.

(** X13.  [normalizeTo32Bytes] keeps the integer it is given whenever
    that integer fits 32 bytes and comes in at most 33 (shorter ones are
    padded in front, the leading zero of a 33-byte one is dropped); of
    anything longer, or of 33 bytes that start with another byte, it
    keeps the first 32 bytes, which is not the same integer.  The result
    is always a fixed point. *)
Theorem normalizeTo32Bytes_value :
  forall buf : Buffer,
    ((List.length buf <= 33)%nat -> beVal buf < 2 ^ 256 ->
     beVal (normalizeTo32Bytes buf) = beVal buf)
    /\ ((33 < List.length buf)%nat
        \/ (List.length buf = 33%nat /\ hd_error buf <> Some x00) ->
        normalizeTo32Bytes buf = firstn 32 buf)
    /\ normalizeTo32Bytes (normalizeTo32Bytes buf) = normalizeTo32Bytes buf.
Proof.
  intros buf. refine (conj _ (conj _ _)).
  - intros Hlen Hval.
    destruct (Nat.lt_ge_cases (List.length buf) 32) as [Hshort|Hge].
    { rewrite normalizeTo32Bytes_short by exact Hshort.
      apply beVal_zeros_app. }
    destruct (Nat.eq_dec (List.length buf) 32) as [H32|Hne].
    { rewrite normalizeTo32Bytes_exact by exact H32. reflexivity. }
    destruct buf as [|h t]; [cbn in Hge; lia|].
    cbn [List.length] in Hlen, Hge, Hne.
    assert (Ht : List.length t = 32%nat) by lia.
    rewrite beVal_cons, Ht in Hval.
    pose proof (u8_range h) as Hh. pose proof (beVal_bound t) as Hb.
    change (256 ^ Z.of_nat 32) with (2 ^ 256) in Hval.
    assert (Hzero : u8 h = 0) by nia.
    assert (h = x00) by (apply u8_inj; exact Hzero). subst h.
    rewrite normalizeTo32Bytes_leading_zero by exact Ht.
    rewrite beVal_cons. change (u8 x00) with 0. lia.
  - apply normalizeTo32Bytes_long.
  - apply normalizeTo32Bytes_exact, length_normalizeTo32Bytes.
Qed.

Lemma normalizeTo32Bytes_value_witness :
  ((List.length [x01; x02] <= 33)%nat /\ beVal [x01; x02] < 2 ^ 256
   /\ beVal (normalizeTo32Bytes [x01; x02]) = 258)
  /\ ((33 < List.length (repeat x00 33 ++ [x07]))%nat
      /\ normalizeTo32Bytes (repeat x00 33 ++ [x07]) = repeat x00 32
      /\ beVal (repeat x00 33 ++ [x07]) = 7).
Proof.
  assert (Hlen : (List.length [x01; x02] <= 33)%nat) by (cbn; lia).
  assert (Hval : beVal [x01; x02] < 2 ^ 256) by (vm_compute; reflexivity).
  assert (Hlong : (33 < List.length (repeat x00 33 ++ [x07]))%nat)
    by (cbn; lia).
  split.
  - split; [exact Hlen|]. split; [exact Hval|].
    exact (proj1 (normalizeTo32Bytes_value [x01; x02]) Hlen Hval).
  - split; [exact Hlong|]. split; [|reflexivity].
    exact (proj1 (proj2 (normalizeTo32Bytes_value (repeat x00 33 ++ [x07])))
             (or_introl Hlong)).
Defined.

End Normalize.

Section GenerateOrder.
Context {R : Type} `{CardReader R} `{Crypto} `{External R}.

Lemma authenticateManagementKey_success_trace (fuel : nat)
  (challenge : Buffer) (st st' : Session R) (proto : Z) u :
  reader st = true -> protocol st = Some proto ->
  authenticateManagementKey fuel challenge st = Some (Success u, st') ->
  exists witness r1 r2,
    sent st' = sent st ++ witnessReqCmd :: r1
                 ++ authCmd (aes192ecb_decrypt mgmtKey witness) challenge :: r2
    /\ List.length witness = 16%nat
    /\ Forall isGetResponse r1 /\ Forall isGetResponse r2.
Proof.
  intros Hr Hp. unfold authenticateManagementKey, bind, ret. intros Hrun.
  destruct (transmit fuel witnessReqCmd st) as [[witnessResp st1]|] eqn:Htx1;
    [|discriminate Hrun].
  pose proof (transmit_link _ _ _ _ _ Htx1) as (Hr1 & _ & Hp1 & _).
  destruct (transmit_sent_connected _ _ _ _ _ _ Hr Hp Htx1)
    as (r1 & Hs1 & Hall1).
  destruct witnessResp as [data|e]; [|discriminate Hrun].
  destruct (notOk _); [discriminate Hrun|].
  destruct (parseTlvValue _ 128) as [witness|]; [|discriminate Hrun].
  destruct (sne (blen witness) (Num 16)) eqn:Hw; [discriminate Hrun|].
  destruct (transmit fuel _ st1) as [[authResp st2]|] eqn:Htx2;
    [|discriminate Hrun].
  rewrite <- Hr1 in Hr. rewrite <- Hp1 in Hp.
  destruct (transmit_sent_connected _ _ _ _ _ _ Hr Hp Htx2)
    as (r2 & Hs2 & Hall2).
  assert (Hst : st' = st2).
  { destruct authResp as [data2|e]; [|discriminate Hrun].
    repeat match type of Hrun with
           | context [if ?c then _ else _] => destruct c
           | context [match ?o with Some _ => _ | None => _ end] => destruct o
           end; try discriminate Hrun; injection Hrun as _ <-; reflexivity. }
  subst st2. exists witness, r1, r2.
  split; [|split; [|split; assumption]].
  - rewrite Hs2, Hs1, <- app_assoc. reflexivity.
  - unfold sne, seq, blen in Hw. apply negb_false_iff, Z.eqb_eq in Hw. lia.
Qed.

(** X14.  A key comes out of [generateNewKey] only after the whole
    handshake: when it returns a key, a connected session has sent, in
    this order, the witness request, the answer built from the decrypted
    16-byte witness and the challenge, and GENERATE ASYMMETRIC KEY PAIR
    for the slot, with nothing but GET RESPONSE in between. *)
Theorem generateNewKey_success_trace :
  forall (fuel : nat) (challenge : Buffer) (slot : Z)
         (st st' : Session R) (proto : Z) (key : PublicKeyResult),
    reader st = true -> protocol st = Some proto ->
    generateNewKey fuel challenge slot st = Some (Success key, st') ->
    exists witness r1 r2 r3,
      sent st' = sent st ++ witnessReqCmd :: r1
                   ++ authCmd (aes192ecb_decrypt mgmtKey witness) challenge
                   :: r2 ++ generateKeyCommand slot :: r3
      /\ List.length witness = 16%nat
      /\ Forall isGetResponse r1 /\ Forall isGetResponse r2
      /\ Forall isGetResponse r3.
Proof.
  intros fuel challenge slot st st' proto key Hr Hp.
  unfold generateNewKey, bind, ret. intros Hrun.
  destruct (authenticateManagementKey fuel challenge st)
    as [[authResult st1]|] eqn:Hauth; [|discriminate Hrun].
  destruct authResult as [u|e]; [|discriminate Hrun].
  pose proof (authenticateManagementKey_link _ _ _ _ _ Hauth)
    as (Hr1 & _ & Hp1 & _).
  destruct (authenticateManagementKey_success_trace _ _ _ _ _ _ Hr Hp Hauth)
    as (witness & r1 & r2 & Hs1 & Hw & Hall1 & Hall2).
  destruct (transmit fuel _ st1) as [[response st2]|] eqn:Htx;
    [|discriminate Hrun].
  rewrite <- Hr1 in Hr. rewrite <- Hp1 in Hp.
  destruct (transmit_sent_connected _ _ _ _ _ _ Hr Hp Htx)
    as (r3 & Hs3 & Hall3).
  assert (Hst : st' = st2).
  { destruct response as [data|e]; [|discriminate Hrun].
    repeat match type of Hrun with
           | context [if ?c then _ else _] => destruct c
           | context [match ?o with Some _ => _ | None => _ end] => destruct o
           end; try discriminate Hrun; injection Hrun as _ <-; reflexivity. }
  subst st2. exists witness, r1, r2, r3.
  split; [|repeat split; assumption].
  rewrite Hs3, Hs1, <- !app_assoc. cbn [app]. rewrite <- app_assoc.
  reflexivity.
Qed.

End GenerateOrder.

Section CertScan.
Context {R : Type} `{CardReader R} `{Crypto} `{External R}.

Lemma forRange_empty {A} (start bound : Z) (body : Z -> option A) :
  bound <= start -> forRange start bound body = None.
Proof.
  intros Hle. unfold forRange.
  replace (Z.to_nat (bound - start)) with 0%nat by lia. reflexivity.
Qed.

Lemma forFrom_found {A} (body : Z -> option A) (bound : Z) :
  forall n i res,
    forFrom n i bound body = Some res ->
    exists j, i <= j < bound /\ body j = Some res.
Proof.
  induction n as [|n IH]; intros i res Hrun; [discriminate Hrun|].
  cbn [forFrom] in Hrun.
  destruct (i <? bound) eqn:E; [|discriminate Hrun].
  apply Z.ltb_lt in E.
  destruct (body i) as [r|] eqn:Hb.
  - injection Hrun as <-. exists i. split; [lia | exact Hb].
  - apply IH in Hrun. destruct Hrun as (j & Hj & Hbj).
    exists j. split; [lia | exact Hbj].
Qed.

Lemma forFrom_skip {A} (body : Z -> option A) (bound : Z) :
  forall (k n : nat) (i : Z),
    (forall j, i <= j < i + Z.of_nat k -> body j = None) ->
    i + Z.of_nat k <= bound -> (k <= n)%nat ->
    forFrom n i bound body = forFrom (n - k) (i + Z.of_nat k) bound body.
Proof.
  induction k as [|k IH]; intros n i Hnone Hbound Hn.
  - rewrite Nat.sub_0_r, Z.add_0_r. reflexivity.
  - destruct n as [|n]; [lia|]. cbn [forFrom].
    replace (i <? bound) with true by (symmetry; apply Z.ltb_lt; lia).
    rewrite (Hnone i) by lia.
    rewrite (IH n (i + 1)) by (try lia; intros j Hj; apply Hnone; lia).
    replace (i + 1 + Z.of_nat k) with (i + Z.of_nat (S k)) by lia.
    reflexivity.
Qed.

Lemma findEcOid_range (data : Buffer) : -1 <= findEcOid data.
Proof.
  unfold findEcOid, forRange.
  match goal with
  | |- context [forFrom ?n ?i ?b ?body] =>
      destruct (forFrom n i b body) as [idx|] eqn:Hrun
  end; [|lia].
  apply forFrom_found in Hrun. destruct Hrun as (j & Hj & Hbody).
  destruct (equals _ _); [|discriminate Hbody].
  injection Hbody as <-. lia.
Qed.

Lemma parsePublicKeyFromCert_short (data : Buffer) :
  (List.length data <= 67)%nat -> parsePublicKeyFromCert data = None.
Proof.
  intros Hlen.
  assert (Hfallback : parsePublicKeyFallback data = None)
    by (apply forRange_empty; lia).
  unfold parsePublicKeyFromCert.
  destruct (findEcOid data =? -1); [exact Hfallback|].
  pose proof (findEcOid_range data) as Hidx.
  unfold findBitString. rewrite forRange_empty; [exact Hfallback|].
  change (Z.of_nat (List.length ecPubKeyOid)) with 9. lia.
Qed.

(** X15.  A blob of 67 bytes or fewer holds no key for the certificate
    parser: both of its searches are empty.  So a slot whose object comes
    back with [90 00] and so short a payload, an empty one included, is
    reported as "Failed to parse public key from response" and not as
    "NO_KEY". *)
Theorem parsePublicKeyFromCert_short_blob :
  forall (fuel : nat) (slot : Z) (objectId payload : Buffer)
         (st st' : Session R),
    (List.length payload <= 67)%nat ->
    getSlotObjectId slot = Some objectId ->
    transmit fuel (getDataCommand objectId) st
    = Some (Success (payload ++ [x90; x00]), st') ->
    parsePublicKeyFromCert payload = None
    /\ parsePublicKeyFallback payload = None
    /\ readPublicKey fuel slot st
       = Some (Failure "Failed to parse public key from response", st').
Proof.
  intros fuel slot objectId payload st st' Hlen Hslot Htx.
  pose proof (parsePublicKeyFromCert_short payload Hlen) as Hcert.
  split; [exact Hcert|]. split; [apply forRange_empty; lia|].
  unfold readPublicKey, bind, ret. rewrite Hslot, Htx.
  rewrite slice_sw, slice_payload, Hcert. reflexivity.
Qed.

Lemma at_app_right (pre rest : Buffer) (k : Z) :
  0 <= k ->
  at_ (pre ++ rest) (Num (Z.of_nat (List.length pre) + k)) = at_ rest (Num k).
Proof.
  intros Hk. unfold at_. rewrite length_app.
  replace (0 <=? Z.of_nat (List.length pre) + k) with true
    by (symmetry; apply Z.leb_le; lia).
  replace (0 <=? k) with true by (symmetry; apply Z.leb_le; lia).
  cbn [andb].
  destruct (k <? Z.of_nat (List.length rest)) eqn:E.
  - apply Z.ltb_lt in E.
    replace (Z.of_nat (List.length pre) + k
             <? Z.of_nat (List.length pre + List.length rest)) with true
      by (symmetry; apply Z.ltb_lt; lia).
    rewrite nth_error_app2 by lia.
    replace (Z.to_nat (Z.of_nat (List.length pre) + k) - List.length pre)%nat
      with (Z.to_nat k) by lia.
    reflexivity.
  - apply Z.ltb_ge in E.
    replace (Z.of_nat (List.length pre) + k
             <? Z.of_nat (List.length pre + List.length rest)) with false
      by (symmetry; apply Z.ltb_ge; lia).
    reflexivity.
Qed.

Lemma slice_app_right (pre rest : Buffer) (a b : Z) :
  0 <= a -> 0 <= b ->
  slice (pre ++ rest) (Num (Z.of_nat (List.length pre) + a))
    (Num (Z.of_nat (List.length pre) + b))
  = slice rest (Num a) (Num b).
Proof.
  intros Ha Hb. rewrite !slice_nonneg by lia.
  replace (Z.of_nat (List.length pre) + b - (Z.of_nat (List.length pre) + a))
    with (b - a) by lia.
  rewrite skipn_app, skipn_all2 by lia.
  replace (Z.to_nat (Z.of_nat (List.length pre) + a) - List.length pre)%nat
    with (Z.to_nat a) by lia.
  reflexivity.
Qed.

Lemma at_before (pre rest : Buffer) (j : Z) :
  Forall (fun b => b <> x03) pre ->
  0 <= j < Z.of_nat (List.length pre) ->
  seq (at_ (pre ++ rest) (Num j)) (Num 3) = false.
Proof.
  intros Hpre Hj.
  destruct (nth_error pre (Z.to_nat j)) as [v|] eqn:Hnth.
  2:{ apply nth_error_None in Hnth. lia. }
  assert (Hv : v <> x03).
  { rewrite Forall_forall in Hpre. apply Hpre.
    eapply nth_error_In. exact Hnth. }
  replace j with (Z.of_nat (Z.to_nat j)) by lia.
  rewrite (at_nth (pre ++ rest) (Z.to_nat j) v).
  - change (Num 3) with (Num (u8 x03)). apply seq_u8_false, Hv.
  - rewrite nth_error_app1 by lia. exact Hnth.
Qed.

(** The scan of [parsePublicKeyFallback] passes over a prefix without a
    byte [03] and stops at the first index where its body gives a key. *)
Lemma parsePublicKeyFallback_scan (pre rest : Buffer) (key : PublicKeyResult) :
  Forall (fun b => b <> x03) pre ->
  (68 <= List.length rest)%nat ->
  (forall data,
      data = pre ++ rest ->
      let i := Z.of_nat (List.length pre) in
      let d k := at_ data (Num (i + k)) in
      (if seq (d 0) (Num 0x03) && seq (d 1) (Num 0x42)
          && seq (d 2) (Num 0x00) && seq (d 3) (Num 0x04)
       then
         Some {| publicKeyHex :=
                   toHex (slice data (Num (i + 3)) (Num (i + 68)));
                 x := toHex (slice data (Num (i + 4)) (Num (i + 36)));
                 y := toHex (slice data (Num (i + 36)) (Num (i + 68))) |}
       else if seq (d 0) (Num 0x03) && seq (d 1) (Num 0x81)
               && seq (d 2) (Num 0x42) && seq (d 3) (Num 0x00)
               && seq (d 4) (Num 0x04)
       then
         Some {| publicKeyHex :=
                   toHex (slice data (Num (i + 4)) (Num (i + 69)));
                 x := toHex (slice data (Num (i + 5)) (Num (i + 37)));
                 y := toHex (slice data (Num (i + 37)) (Num (i + 69))) |}
       else None) = Some key) ->
  parsePublicKeyFallback (pre ++ rest) = Some key.
Proof.
  intros Hpre Hrest Hbody.
  specialize (Hbody _ eq_refl). cbv zeta in Hbody.
  unfold parsePublicKeyFallback, forRange.
  rewrite (forFrom_skip _ _ (List.length pre)).
  - rewrite Z.sub_0_r, Z.add_0_l.
    destruct (Z.to_nat (Z.of_nat (List.length (pre ++ rest)) - 67)
              - List.length pre)%nat as [|n] eqn:En.
    { rewrite length_app in En. lia. }
    cbn [forFrom].
    replace (Z.of_nat (List.length pre)
             <? Z.of_nat (List.length (pre ++ rest)) - 67) with true
      by (symmetry; apply Z.ltb_lt; rewrite length_app; lia).
    cbv zeta. rewrite Hbody. reflexivity.
  - intros j Hj. cbv zeta. rewrite Z.add_0_r.
    rewrite (at_before pre rest j Hpre) by lia. reflexivity.
  - rewrite length_app. lia.
  - rewrite length_app. lia.
Qed.

End CertScan.

Section FallbackScan.

Lemma firstn_exact (xy post : Buffer) (n : nat) :
  List.length xy = n -> firstn n (xy ++ post) = xy.
Proof.
  intros <-. rewrite firstn_app, Nat.sub_diag, firstn_all. cbn [firstn].
  apply app_nil_r.
Qed.

Lemma point_halves (xy post : Buffer) :
  List.length xy = 64%nat ->
  firstn 64 (xy ++ post) = xy
  /\ firstn 32 (xy ++ post) = firstn 32 xy
  /\ firstn 32 (skipn 32 (xy ++ post)) = skipn 32 xy.
Proof.
  intros Hlen. split; [apply firstn_exact, Hlen|]. split.
  - rewrite firstn_app, Hlen. change (32 - 64)%nat with 0%nat.
    rewrite firstn_O. apply app_nil_r.
  - rewrite skipn_app, Hlen. change (32 - 64)%nat with 0%nat.
    rewrite skipn_O. apply firstn_exact. rewrite length_skipn. lia.
Qed.

(** X16.  The fallback search finds a BIT STRING header [03 42 00 04], or
    its long form [03 81 42 00 04], behind any bytes that hold no [03],
    and returns the 64 bytes after it as the point, whatever follows. *)
Theorem parsePublicKeyFallback_finds_point :
  forall pre xy post : Buffer,
    Forall (fun b => b <> x03) pre ->
    List.length xy = 64%nat ->
    parsePublicKeyFallback (pre ++ [x03; x42; x00; x04] ++ xy ++ post)
    = Some {| publicKeyHex := toHex (x04 :: xy);
              x := toHex (firstn 32 xy);
              y := toHex (skipn 32 xy) |}
    /\ parsePublicKeyFallback (pre ++ [x03; x81; x42; x00; x04] ++ xy ++ post)
       = Some {| publicKeyHex := toHex (x04 :: xy);
                 x := toHex (firstn 32 xy);
                 y := toHex (skipn 32 xy) |}.
Proof.
  intros pre xy post Hpre Hlen.
  destruct (point_halves xy post Hlen) as (Hall & Hx & Hy).
  split.
  - apply parsePublicKeyFallback_scan; [exact Hpre | |].
    { cbn [app List.length]. rewrite length_app. lia. }
    intros data -> i d. subst d i. cbv beta.
    rewrite !at_app_right by lia. rewrite !slice_app_right by lia.
    rewrite !slice_nonneg by lia.
    assert (Hat0 : at_ ([x03; x42; x00; x04] ++ xy ++ post) (Num 0)
                   = Num 3)
      by exact (at_nth ([x03; x42; x00; x04] ++ xy ++ post) 0 x03 eq_refl).
    assert (Hat1 : at_ ([x03; x42; x00; x04] ++ xy ++ post) (Num 1)
                   = Num 66)
      by exact (at_nth ([x03; x42; x00; x04] ++ xy ++ post) 1 x42 eq_refl).
    assert (Hat2 : at_ ([x03; x42; x00; x04] ++ xy ++ post) (Num 2)
                   = Num 0)
      by exact (at_nth ([x03; x42; x00; x04] ++ xy ++ post) 2 x00 eq_refl).
    assert (Hat3 : at_ ([x03; x42; x00; x04] ++ xy ++ post) (Num 3)
                   = Num 4)
      by exact (at_nth ([x03; x42; x00; x04] ++ xy ++ post) 3 x04 eq_refl).
    rewrite Hat0, Hat1, Hat2, Hat3.
    cbn [seq Z.eqb Pos.eqb andb].
    change (Z.to_nat (68 - 3)) with 65%nat.
    change (Z.to_nat (36 - 4)) with 32%nat.
    change (Z.to_nat (68 - 36)) with 32%nat.
    change (skipn (Z.to_nat 3) ([x03; x42; x00; x04] ++ xy ++ post))
      with (x04 :: xy ++ post).
    change (skipn (Z.to_nat 4) ([x03; x42; x00; x04] ++ xy ++ post))
      with (xy ++ post).
    change (skipn (Z.to_nat 36) ([x03; x42; x00; x04] ++ xy ++ post))
      with (skipn 32 (xy ++ post)).
    change (firstn 65 (x04 :: xy ++ post)) with (x04 :: firstn 64 (xy ++ post)).
    rewrite Hall, Hx, Hy. reflexivity.
  - apply parsePublicKeyFallback_scan; [exact Hpre | |].
    { cbn [app List.length]. rewrite length_app. lia. }
    intros data -> i d. subst d i. cbv beta.
    rewrite !at_app_right by lia. rewrite !slice_app_right by lia.
    rewrite !slice_nonneg by lia.
    assert (Hat0 : at_ ([x03; x81; x42; x00; x04] ++ xy ++ post) (Num 0)
                   = Num 3)
      by exact (at_nth ([x03; x81; x42; x00; x04] ++ xy ++ post) 0 x03 eq_refl).
    assert (Hat1 : at_ ([x03; x81; x42; x00; x04] ++ xy ++ post) (Num 1)
                   = Num 129)
      by exact (at_nth ([x03; x81; x42; x00; x04] ++ xy ++ post) 1 x81 eq_refl).
    assert (Hat2 : at_ ([x03; x81; x42; x00; x04] ++ xy ++ post) (Num 2)
                   = Num 66)
      by exact (at_nth ([x03; x81; x42; x00; x04] ++ xy ++ post) 2 x42 eq_refl).
    assert (Hat3 : at_ ([x03; x81; x42; x00; x04] ++ xy ++ post) (Num 3)
                   = Num 0)
      by exact (at_nth ([x03; x81; x42; x00; x04] ++ xy ++ post) 3 x00 eq_refl).
    assert (Hat4 : at_ ([x03; x81; x42; x00; x04] ++ xy ++ post) (Num 4)
                   = Num 4)
      by exact (at_nth ([x03; x81; x42; x00; x04] ++ xy ++ post) 4 x04 eq_refl).
    rewrite Hat0, Hat1, Hat2, Hat3, Hat4.
    cbn [seq Z.eqb Pos.eqb andb].
    change (Z.to_nat (69 - 4)) with 65%nat.
    change (Z.to_nat (37 - 5)) with 32%nat.
    change (Z.to_nat (69 - 37)) with 32%nat.
    change (skipn (Z.to_nat 4) ([x03; x81; x42; x00; x04] ++ xy ++ post))
      with (x04 :: xy ++ post).
    change (skipn (Z.to_nat 5) ([x03; x81; x42; x00; x04] ++ xy ++ post))
      with (xy ++ post).
    change (skipn (Z.to_nat 37) ([x03; x81; x42; x00; x04] ++ xy ++ post))
      with (skipn 32 (xy ++ post)).
    change (firstn 65 (x04 :: xy ++ post)) with (x04 :: firstn 64 (xy ++ post)).
    rewrite Hall, Hx, Hy. reflexivity.
Qed.

Lemma parsePublicKeyFallback_finds_point_witness :
  Forall (fun b => b <> x03) [x53; x46; x70; x44]
  /\ List.length (repeat xab 32 ++ repeat xcd 32) = 64%nat
  /\ parsePublicKeyFallback
       ([x53; x46; x70; x44] ++ [x03; x42; x00; x04]
          ++ (repeat xab 32 ++ repeat xcd 32) ++ [x71; x01; x00])
     = Some someKey.
Proof.
  assert (Hpre : Forall (fun b => b <> x03) [x53; x46; x70; x44])
    by (repeat constructor; discriminate).
  assert (Hlen : List.length (repeat xab 32 ++ repeat xcd 32) = 64%nat)
    by reflexivity.
  split; [exact Hpre|]. split; [exact Hlen|].
  exact (proj1 (parsePublicKeyFallback_finds_point [x53; x46; x70; x44]
                  (repeat xab 32 ++ repeat xcd 32) [x71; x01; x00]
                  Hpre Hlen)).
Defined.

End FallbackScan.

Section OidSearch.

Lemma forFrom_first {A} (body : Z -> option A) (bound : Z) :
  forall n i res,
    forFrom n i bound body = Some res ->
    exists j, i <= j < bound /\ body j = Some res
              /\ forall k, i <= k < j -> body k = None.
Proof.
  induction n as [|n IH]; intros i res Hrun; [discriminate Hrun|].
  cbn [forFrom] in Hrun.
  destruct (i <? bound) eqn:E; [|discriminate Hrun].
  apply Z.ltb_lt in E.
  destruct (body i) as [r|] eqn:Hb.
  - injection Hrun as <-. exists i. split; [lia|]. split; [exact Hb|].
    intros k Hk. lia.
  - apply IH in Hrun. destruct Hrun as (j & Hj & Hbj & Hbefore).
    exists j. split; [lia|]. split; [exact Hbj|].
    intros k Hk. destruct (Z.eq_dec k i) as [->|Hne]; [exact Hb|].
    apply Hbefore. lia.
Qed.

Lemma forFrom_nothing {A} (body : Z -> option A) (bound : Z) :
  forall n i,
    bound - i <= Z.of_nat n ->
    forFrom n i bound body = None ->
    forall j, i <= j < bound -> body j = None.
Proof.
  induction n as [|n IH]; intros i Hn Hrun j Hj; [lia|].
  cbn [forFrom] in Hrun.
  replace (i <? bound) with true in Hrun by (symmetry; apply Z.ltb_lt; lia).
  destruct (body i) as [r|] eqn:Hb; [discriminate Hrun|].
  destruct (Z.eq_dec j i) as [->|Hne]; [exact Hb|].
  apply (IH (i + 1)); [lia | exact Hrun | lia].
Qed.

(** X17.  The first loop of [parsePublicKeyFromCert] returns the first
    index at which the nine bytes of the EC public key OID stand, among
    the indices below [data.length - 9], and -1 when they stand at none of
    them; the OID at the very end of the data, at index
    [data.length - 9], is not looked at. *)
Theorem findEcOid_first_occurrence :
  forall data : Buffer,
    let here j := slice data (Num j) (Num (j + 9)) = ecPubKeyOid in
    let bound := Z.of_nat (List.length data) - 9 in
    (findEcOid data = -1 /\ forall j, 0 <= j < bound -> ~ here j)
    \/ (0 <= findEcOid data < bound
        /\ here (findEcOid data)
        /\ forall j, 0 <= j < findEcOid data -> ~ here j).
Proof.
  intros data here bound. unfold findEcOid, forRange.
  change (Z.of_nat (List.length ecPubKeyOid)) with 9. fold bound.
  set (body := fun i : Z => if equals _ ecPubKeyOid then Some i else None).
  assert (Hbody : forall j, body j = None -> ~ here j).
  { intros j Hnone Hhere. unfold body in Hnone. unfold here in Hhere.
    rewrite Hhere in Hnone.
    replace (equals ecPubKeyOid ecPubKeyOid) with true in Hnone
      by reflexivity.
    discriminate Hnone. }
  destruct (forFrom (Z.to_nat (bound - 0)) 0 bound body) as [idx|] eqn:Hrun.
  - right. apply forFrom_first in Hrun.
    destruct Hrun as (j & Hj & Hfound & Hbefore).
    unfold body in Hfound at 1.
    destruct (equals _ ecPubKeyOid) eqn:Heq; [|discriminate Hfound].
    injection Hfound as <-. apply equals_iff in Heq.
    split; [exact Hj|]. split; [exact Heq|].
    intros k Hk. apply Hbody, Hbefore, Hk.
  - left. split; [reflexivity|].
    intros j Hj. apply Hbody.
    apply (forFrom_nothing body bound (Z.to_nat (bound - 0)) 0);
      [lia | exact Hrun | exact Hj].
Qed.

End OidSearch.

Section StoreOutcomes.
Context {R : Type} `{CardReader R} `{Crypto} `{External R}.


End StoreOutcomes.

Import Renderer.

Section SafeSignature.
Variable keccak256 : string -> string.
Variable getAddress : string -> string.

Lemma length_substring (text : string) :
  forall n m,
    (n + m <= String.length text)%nat ->
    String.length (substring n m text) = m.
Proof.
  induction text as [|c text IH]; intros n m Hle.
  - cbn [String.length] in Hle. destruct n, m; try lia; reflexivity.
  - cbn [String.length] in Hle. destruct n as [|n].
    + destruct m as [|m]; [reflexivity|].
      cbn [substring String.length]. rewrite IH by lia. reflexivity.
    + cbn [substring]. apply IH. lia.
Qed.

Lemma toLowerCase_app (a b : string) :
  toLowerCase (a ++ b) = (toLowerCase a ++ toLowerCase b)%string.
Proof.
  induction a as [|c a IH]; [reflexivity|].
  cbn [String.append toLowerCase]. rewrite IH. reflexivity.
Qed.

Lemma toLowerCase_zeros (k : nat) : toLowerCase (zeros k) = zeros k.
Proof.
  induction k as [|k IH]; [reflexivity|].
  rewrite zeros_S. cbn [toLowerCase]. rewrite IH. reflexivity.
Qed.

Lemma length_toLowerCase (text : string) :
  String.length (toLowerCase text) = String.length text.
Proof.
  induction text as [|c text IH]; [reflexivity|].
  cbn [toLowerCase String.length]. rewrite IH. reflexivity.
Qed.

Lemma string_app_assoc (a b c : string) :
  ((a ++ b) ++ c = a ++ b ++ c)%string.
Proof.
  induction a as [|ch a IH]; [reflexivity|].
  cbn [String.append]. rewrite IH. reflexivity.
Qed.

(** A 32-byte value in hexadecimal, with the prefix "0x" or without,
    is a field of 64 digits as it stands. *)
Lemma field_of_32_bytes (b : Buffer) (text : string) :
  List.length b = 32%nat ->
  text = toHex b \/ text = ("0x" ++ toHex b)%string ->
  padStart0 64 (removeFirst "0x" text) = toHex b.
Proof.
  intros Hlen Htext.
  assert (Hplain : removeFirst "0x" text = toHex b).
  { destruct Htext as [-> | ->].
    - apply removeFirst_noX, noX_toHex.
    - apply removeFirst_0x. }
  rewrite Hplain, padStart0_toHex by lia.
  rewrite Hlen. reflexivity.
Qed.

(** X19.  [formatSafeSignature] on the 32-byte values the card codec
    returns: the text is "0x", the address of [deriveAddress] in lower
    case without its "0x" behind 24 zeros, the offset 0x41, the byte 02
    and then r, s, x and y unchanged; 193 bytes in hexadecimal, as long
    as viem's [getAddress] returns 42 characters. *)
Theorem formatSafeSignature_layout :
  (forall a, String.length (getAddress a) = 42%nat) ->
  forall (rB sB xB yB : Buffer) (r s x y : string),
    List.length rB = 32%nat -> List.length sB = 32%nat ->
    List.length xB = 32%nat -> List.length yB = 32%nat ->
    r = toHex rB \/ r = ("0x" ++ toHex rB)%string ->
    s = toHex sB \/ s = ("0x" ++ toHex sB)%string ->
    x = toHex xB \/ x = ("0x" ++ toHex xB)%string ->
    y = toHex yB \/ y = ("0x" ++ toHex yB)%string ->
    formatSafeSignature keccak256 getAddress r s x y
    = ("0x" ++ zeros 24
         ++ toLowerCase (strSlice 2 (deriveAddress keccak256 getAddress x y))
         ++ zeros 62 ++ "41" ++ "02"
         ++ toHex (rB ++ sB ++ xB ++ yB)%list)%string
    /\ String.length (formatSafeSignature keccak256 getAddress r s x y)
       = (2 + 2 * (65 + 128))%nat.
Proof.
  intros Haddr rB sB xB yB r s x y Hr Hs Hx Hy Htr Hts Htx Hty.
  assert (Hform :
    formatSafeSignature keccak256 getAddress r s x y
    = ("0x" ++ zeros 24
         ++ toLowerCase (strSlice 2 (deriveAddress keccak256 getAddress x y))
         ++ zeros 62 ++ "41" ++ "02"
         ++ toHex (rB ++ sB ++ xB ++ yB)%list)%string).
  { unfold formatSafeSignature, deriveAddress. cbv zeta.
    rewrite (field_of_32_bytes rB r Hr Htr), (field_of_32_bytes sB s Hs Hts),
      (field_of_32_bytes xB x Hx Htx), (field_of_32_bytes yB y Hy Hty).
    set (owner := getAddress _).
    assert (Hcut : String.length (strSlice 2 owner) = 40%nat).
    { unfold strSlice. rewrite (Haddr _ : String.length owner = 42%nat).
      apply length_substring. rewrite (Haddr _ : String.length owner = 42%nat).
      cbn. lia. }
    unfold padStart0 at 1. rewrite Hcut.
    change (string_of_list_ascii (repeat "0"%char (64 - 40))) with (zeros 24).
    rewrite toLowerCase_app, toLowerCase_zeros, !toHex_app.
    rewrite !string_app_assoc. reflexivity. }
  split; [exact Hform|].
  rewrite Hform. cbn [String.append String.length].
  rewrite !string_length_app, !length_zeros, length_toLowerCase.
  cbn [String.length]. rewrite length_toHex.
  rewrite !length_app, Hr, Hs, Hx, Hy.
  assert (Hcut : String.length
                   (strSlice 2 (deriveAddress keccak256 getAddress x y))
                 = 40%nat).
  { unfold strSlice, deriveAddress. cbv zeta. rewrite !Haddr.
    apply length_substring. rewrite Haddr. cbn. lia. }
  rewrite Hcut. reflexivity.
Qed.

End SafeSignature.

Section UtcTime.

Lemma fromAscii_app (a b : string) :
  fromAscii (a ++ b) = fromAscii a ++ fromAscii b.
Proof.
  induction a as [|c a IH]; [reflexivity|].
  cbn [String.append fromAscii app]. rewrite IH. reflexivity.
Qed.

Lemma two_digit_field (n : Z) :
  0 <= n < 100 ->
  fromAscii (padStart0 2 (numberToString n)) = twoDigits n
  /\ String.length (padStart0 2 (numberToString n)) = 2%nat.
Proof.
  intros Hn. rewrite <- (Z2Nat.id n) by lia.
  assert (Hk : (Z.to_nat n < 100)%nat) by lia.
  revert Hk. generalize (Z.to_nat n) as k. intros k Hk.
  do 100 (destruct k as [|k]; [split; vm_compute; reflexivity|]).
  lia.
Qed.

(** X20.  For a date in the years 0 and later [encodeUtcTime] gives the
    15 bytes of a UTCTime: tag [17], length [0D], two ASCII digits each
    for the year within its century, the month counted from 1, the day,
    hours, minutes and seconds, and the letter Z. *)
Theorem encodeUtcTime_layout :
  forall date : UtcFields,
    validUtc date ->
    encodeUtcTime date
    = [x17; x0d]
        ++ twoDigits (utcFullYear date mod 100)
        ++ twoDigits (utcMonth date + 1)
        ++ twoDigits (utcDate date)
        ++ twoDigits (utcHours date)
        ++ twoDigits (utcMinutes date)
        ++ twoDigits (utcSeconds date)
        ++ [x5a]
    /\ List.length (encodeUtcTime date) = 15%nat.
Proof.
  intros date (Hy & Hm & Hd & Hh & Hmin & Hs).
  assert (Hyear : Z.rem (utcFullYear date) 100 = utcFullYear date mod 100)
    by (apply Z.rem_mod_nonneg; lia).
  assert (Hyy : 0 <= utcFullYear date mod 100 < 100)
    by (apply Z.mod_pos_bound; lia).
  destruct (two_digit_field (utcFullYear date mod 100) Hyy) as [Ey Ly].
  destruct (two_digit_field (utcMonth date + 1)) as [Em Lm]; [lia|].
  destruct (two_digit_field (utcDate date)) as [Ed Ld]; [lia|].
  destruct (two_digit_field (utcHours date)) as [Eh Lh]; [lia|].
  destruct (two_digit_field (utcMinutes date)) as [Emin Lmin]; [lia|].
  destruct (two_digit_field (utcSeconds date)) as [Es Ls]; [lia|].
  assert (Hform :
    encodeUtcTime date
    = [x17; x0d]
        ++ twoDigits (utcFullYear date mod 100)
        ++ twoDigits (utcMonth date + 1)
        ++ twoDigits (utcDate date)
        ++ twoDigits (utcHours date)
        ++ twoDigits (utcMinutes date)
        ++ twoDigits (utcSeconds date)
        ++ [x5a]).
  { unfold encodeUtcTime. cbv zeta. rewrite Hyear.
    rewrite !string_length_app, Ly, Lm, Ld, Lh, Lmin, Ls.
    rewrite !fromAscii_app, Ey, Em, Ed, Eh, Emin, Es. reflexivity. }
  split; [exact Hform|]. rewrite Hform. reflexivity.
Qed.

Lemma encodeUtcTime_layout_witness :
  validUtc (mkUtcFields 2025 0 1 0 0 0)
  /\ encodeUtcTime (mkUtcFields 2025 0 1 0 0 0)
     = [x17; x0d; x32; x35; x30; x31; x30; x31; x30; x30; x30; x30; x30; x30;
        x5a].
Proof.
  assert (Hvalid : validUtc (mkUtcFields 2025 0 1 0 0 0))
    by (unfold validUtc; cbn; lia).
  split; [exact Hvalid|].
  exact (proj1 (encodeUtcTime_layout (mkUtcFields 2025 0 1 0 0 0) Hvalid)).
Defined.

End UtcTime.

Section MoreExamples.
#[local] Existing Instance scriptedReader.
#[local] Existing Instance toyCrypto.
#[local] Existing Instance failingYkman.

Lemma not_connected_nothing_sent_witness :
  unplugged (released (plugged [ok []]))
  /\ verifyPin 1 "123456" (released (plugged [ok []]))
     = Some (Failure "Not connected",
             logged (released (plugged [ok []]))
               "PIN transmit failed: Not connected")
  /\ generateP256Key 1 someChallenge (released (plugged [ok []]))
     = Some (Ok (Failure "Not connected"), released (plugged [ok []])).
Proof.
  assert (Hun : unplugged (released (plugged [ok []])))
    by (left; reflexivity).
  split; [exact Hun|]. split.
  - exact (proj1 (proj2 (proj2
             (not_connected_nothing_sent 1%nat _ Hun))) "123456"%string).
  - exact (proj2 (proj2 (proj2 (proj2 (proj2 (proj2 (proj2
             (not_connected_nothing_sent 1%nat _ Hun))))))) someChallenge).
Defined.


Lemma readPublicKey_read_only_witness :
  readPublicKey 1 PIV_SLOT_AUTHENTICATION (plugged [noKeyAnswer])
  = Some (Failure "NO_KEY", sessionAt [] [readCmd])
  /\ exists cmds,
       sent (sessionAt [] [readCmd]) = sent (plugged [noKeyAnswer]) ++ cmds
       /\ Forall (isRead objectId9a) cmds.
Proof.
  assert (Hrun : readPublicKey 1 PIV_SLOT_AUTHENTICATION (plugged [noKeyAnswer])
                 = Some (Failure "NO_KEY", sessionAt [] [readCmd]))
    by (vm_compute; reflexivity).
  split; [exact Hrun|].
  exact (readPublicKey_read_only 1%nat PIV_SLOT_AUTHENTICATION
           (plugged [noKeyAnswer]) (sessionAt [] [readCmd]) _ Hrun).
Defined.

Lemma selectPIV_status_words_witness :
  transmit 1 selectCommand (plugged [ok []])
  = Some (Success ([] ++ [x90; x00]), sessionAt [] [selectCommand])
  /\ selectPIV 1 (plugged [ok []])
     = Some (Success tt, sessionAt [] [selectCommand]).
Proof.
  assert (Htx : transmit 1 selectCommand (plugged [ok []])
                = Some (Success ([] ++ [x90; x00]),
                        sessionAt [] [selectCommand]))
    by (vm_compute; reflexivity).
  split; [exact Htx|].
  exact (proj1 (proj2 (selectPIV_status_words 1%nat (plugged [ok []])
                         (sessionAt [] [selectCommand]) _ Htx))
           (ex_intro _ [] eq_refl)).
Defined.

Lemma signHash_signs_the_hash_witness :
  List.length someHash = 32%nat
  /\ transmit 1 (signCommand someHash) (plugged [ok signatureAnswer])
     = Some (Success (signatureAnswer ++ [x90; x00]),
             sessionAt [] [signCommand someHash])
  /\ signHash 1 ("0x" ++ toHex someHash) (plugged [ok signatureAnswer])
     = Some (Success
               {| signatureDer := toHex derHighS;
                  r := toHex (repeat x00 31 ++ [x05]);
                  s := toHex (repeat x00 31 ++ [x01]) |},
             sessionAt [] [signCommand someHash]).
Proof.
  assert (Hlen : List.length someHash = 32%nat) by reflexivity.
  assert (Htx : transmit 1 (signCommand someHash)
                  (plugged [ok signatureAnswer])
                = Some (Success (signatureAnswer ++ [x90; x00]),
                        sessionAt [] [signCommand someHash]))
    by (vm_compute; reflexivity).
  assert (Hparse : parseSignatureResponse signatureAnswer
                   = Some {| signatureDer := toHex derHighS;
                             r := toHex (repeat x00 31 ++ [x05]);
                             s := toHex (repeat x00 31 ++ [x01]) |})
    by (vm_compute; reflexivity).
  split; [exact Hlen|]. split; [exact Htx|].
  rewrite <- (f_equal (fun parsed =>
                         Some (match parsed with
                               | Some sig => Success sig
                               | None =>
                                   Failure
                                     "Failed to parse signature from response"
                               end,
                               sessionAt [] [signCommand someHash]))
                Hparse).
  exact (proj2 (signHash_signs_the_hash 1%nat someHash
                  ("0x" ++ toHex someHash)%string
                  (plugged [ok signatureAnswer])
                  (sessionAt [] [signCommand someHash]) _ Hlen
                  (or_intror eq_refl) Htx)
           signatureAnswer eq_refl).
Defined.

Lemma generateNewKey_success_trace_witness :
  reader (sessionAt [witnessAnswer; challengeAnswer (rev someChallenge);
                     generateAnswer] [readCmd]) = true
  /\ generateNewKey 1 someChallenge PIV_SLOT_AUTHENTICATION
       (sessionAt [witnessAnswer; challengeAnswer (rev someChallenge);
                   generateAnswer] [readCmd])
     = Some (Success someKey, afterGenerate)
  /\ exists witness r1 r2 r3,
       sent afterGenerate
       = [readCmd] ++ witnessReqCmd :: r1
           ++ authCmd (aes192ecb_decrypt mgmtKey witness) someChallenge
           :: r2 ++ generateKeyCommand PIV_SLOT_AUTHENTICATION :: r3
       /\ List.length witness = 16%nat
       /\ Forall isGetResponse r1 /\ Forall isGetResponse r2
       /\ Forall isGetResponse r3.
Proof.
  assert (Hgen :
    generateNewKey 1 someChallenge PIV_SLOT_AUTHENTICATION
      (sessionAt [witnessAnswer; challengeAnswer (rev someChallenge);
                  generateAnswer] [readCmd])
    = Some (Success someKey, afterGenerate))
    by (vm_compute; reflexivity).
  split; [reflexivity|]. split; [exact Hgen|].
  exact (generateNewKey_success_trace 1%nat someChallenge
           PIV_SLOT_AUTHENTICATION
           (sessionAt [witnessAnswer; challengeAnswer (rev someChallenge);
                       generateAnswer] [readCmd])
           afterGenerate 2 someKey eq_refl eq_refl Hgen).
Defined.

Lemma parsePublicKeyFromCert_short_blob_witness :
  (List.length (@nil byte) <= 67)%nat
  /\ transmit 1 (getDataCommand objectId9a) (plugged [ok []])
     = Some (Success ([] ++ [x90; x00]), sessionAt [] [readCmd])
  /\ readPublicKey 1 PIV_SLOT_AUTHENTICATION (plugged [ok []])
     = Some (Failure "Failed to parse public key from response",
             sessionAt [] [readCmd]).
Proof.
  assert (Hlen : (List.length (@nil byte) <= 67)%nat) by (cbn; lia).
  assert (Htx : transmit 1 (getDataCommand objectId9a) (plugged [ok []])
                = Some (Success ([] ++ [x90; x00]), sessionAt [] [readCmd]))
    by (vm_compute; reflexivity).
  split; [exact Hlen|]. split; [exact Htx|].
  exact (proj2 (proj2 (parsePublicKeyFromCert_short_blob 1%nat
                         PIV_SLOT_AUTHENTICATION objectId9a []
                         (plugged [ok []]) (sessionAt [] [readCmd])
                         Hlen eq_refl Htx))).
Defined.

Lemma formatSafeSignature_layout_witness :
  (forall a, String.length (toyGetAddress a) = 42%nat)
  /\ formatSafeSignature toyKeccak256 toyGetAddress
       (toHex (repeat x01 32)) ("0x" ++ toHex (repeat x02 32))
       (toHex (repeat xab 32)) (toHex (repeat xcd 32))
     = ("0x" ++ zeros 24 ++ "5aaeb6053f3e94c9b9a09f33669435e7ef1beaed"
          ++ zeros 62 ++ "41" ++ "02"
          ++ toHex (repeat x01 32 ++ repeat x02 32 ++ repeat xab 32
                      ++ repeat xcd 32)%list)%string.
Proof.
  assert (Haddr : forall a, String.length (toyGetAddress a) = 42%nat)
    by (intros a; reflexivity).
  split; [exact Haddr|].
  exact (proj1 (formatSafeSignature_layout toyKeccak256 toyGetAddress Haddr
                  (repeat x01 32) (repeat x02 32) (repeat xab 32)
                  (repeat xcd 32) _ _ _ _
                  eq_refl eq_refl eq_refl eq_refl
                  (or_introl eq_refl) (or_intror eq_refl)
                  (or_introl eq_refl) (or_introl eq_refl))).
Defined.

End MoreExamples.

Section StoreExamples.
#[local] Existing Instance scriptedReader.
#[local] Existing Instance toyCrypto.
#[local] Existing Instance noTempDir.


End StoreExamples.
